(** * memo-0: the stored procedures of the to-do database

    A shallow embedding of the PL/pgSQL functions and triggers of
    [supabase/transaction_schema_fixed.sql],
    [supabase/search_pagination_working.sql] and
    [supabase/complete_setup.sql], and the properties of the
    specification that hold (or fail) on them.

    Tables are lists of rows in heap order.  A PL/pgSQL function is a
    computation over the database that either returns or raises; a block
    with an EXCEPTION clause runs its handler on the database as it was
    when the block was entered. *)

From Stdlib Require Import ZArith QArith List String Ascii Bool Lia.
From Stdlib Require Import DecimalString Permutation Sorted Qround Lqa.
Import ListNotations.

Open Scope string_scope.
Open Scope Z_scope.

(** ** SQL values *)

(** UUID: a 128-bit identifier; only equality is ever used. *)
Definition uuid := N.

(** TIMESTAMPTZ: microseconds since the epoch. *)
Definition timestamptz := Z.

(** [INTERVAL '1 day'] in microseconds. *)
Definition INTERVAL_1_day : Z := 86400000000.

(** [TIMEZONE('utc', t)] stored back into a TIMESTAMPTZ column; the
    session time zone is UTC, so the instant is unchanged. *)
Definition TIMEZONE_utc (t : timestamptz) : timestamptz := t.

(** INTEGER is a signed 32-bit integer. *)
Definition INT_MIN : Z := -2147483648.
Definition INT_MAX : Z := 2147483647.

(** The errors the statements of these files can raise. *)
Inductive sql_error : Type :=
| raise_exception (message : string)        (* RAISE EXCEPTION '...' *)
| numeric_value_out_of_range                (* INTEGER arithmetic overflow *)
| foreign_key_violation                     (* todos.category_id -> categories.id *)
| invalid_row_count_in_limit_clause         (* LIMIT with a negative count *)
| invalid_row_count_in_result_offset_clause (* OFFSET with a negative count *).

(** [SQLERRM]: the message text of the error being handled. *)
Definition SQLERRM (e : sql_error) : string :=
  match e with
  | raise_exception message => message
  | numeric_value_out_of_range => "integer out of range"
  | foreign_key_violation =>
      (* PostgreSQL puts the two identifiers between double quotes *)
      "insert or update on table todos violates foreign key constraint todos_category_id_fkey"
  | invalid_row_count_in_limit_clause => "LIMIT must not be negative"
  | invalid_row_count_in_result_offset_clause => "OFFSET must not be negative"
  end.

Inductive result (A : Type) : Type :=
| Ok (a : A)
| Error (e : sql_error).
Arguments Ok {A} a.
Arguments Error {A} e.

(** INTEGER addition: PostgreSQL raises on overflow, it does not wrap. *)
Definition int4pl (a b : Z) : result Z :=
  if (INT_MIN <=? a + b) && (a + b <=? INT_MAX) then Ok (a + b)
  else Error numeric_value_out_of_range.

(** An INTEGER printed by the [%] placeholder of RAISE. *)
Definition int4out (n : Z) : string := NilZero.string_of_int (Z.to_int n).

(** [array_length(a, 1)]: NULL for an empty array. *)
Definition array_length {A : Type} (a : list A) : option Z :=
  match a with
  | [] => None
  | _ :: _ => Some (Z.of_nat (List.length a))
  end.

(** [n != m] where [m] may be NULL: the comparison is then NULL. *)
Definition int4ne (n : Z) (m : option Z) : option bool :=
  match m with
  | None => None
  | Some m' => Some (negb (n =? m'))
  end.

(** The condition of IF: a NULL condition does not take the branch. *)
Definition is_true (c : option bool) : bool :=
  match c with
  | Some true => true
  | _ => false
  end.

(** [id = ANY(ids)] for an array without NULL elements. *)
Definition eq_ANY (x : uuid) (ids : list uuid) : bool :=
  existsb (N.eqb x) ids.

(** ** Tables *)

(** [todos] (complete_setup.sql, with the columns added by
    transaction_schema_fixed.sql). *)
Record todo : Type := mk_todo {
  id : uuid;
  user_id : uuid;
  title : string;
  is_complete : bool;
  category_id : option uuid;
  created_at : timestamptz;
  updated_at : timestamptz;
  version : Z
}.

(** [categories]. *)
Record category : Type := mk_category {
  c_id : uuid;
  c_user_id : uuid;
  c_name : string;
  c_color : string;
  c_created_at : timestamptz;
  c_updated_at : timestamptz
}.

(** [profiles]. *)
Record profile : Type := mk_profile {
  p_id : uuid;
  p_created_at : timestamptz;
  p_updated_at : timestamptz
}.

Record database : Type := mk_database {
  profiles : list profile;
  categories : list category;
  todos : list todo
}.

Definition with_todos (db : database) (ts : list todo) : database :=
  {| profiles := profiles db; categories := categories db; todos := ts |}.

Definition with_categories (db : database) (cs : list category) : database :=
  {| profiles := profiles db; categories := cs; todos := todos db |}.

Definition with_profiles (db : database) (ps : list profile) : database :=
  {| profiles := ps; categories := categories db; todos := todos db |}.

(** Column assignments of a SET clause. *)
Definition SET_title (s : string) (t : todo) : todo :=
  mk_todo (id t) (user_id t) s (is_complete t) (category_id t)
          (created_at t) (updated_at t) (version t).

Definition SET_is_complete (b : bool) (t : todo) : todo :=
  mk_todo (id t) (user_id t) (title t) b (category_id t)
          (created_at t) (updated_at t) (version t).

Definition SET_category_id (c : option uuid) (t : todo) : todo :=
  mk_todo (id t) (user_id t) (title t) (is_complete t) c
          (created_at t) (updated_at t) (version t).

Definition SET_updated_at (u : timestamptz) (t : todo) : todo :=
  mk_todo (id t) (user_id t) (title t) (is_complete t) (category_id t)
          (created_at t) u (version t).

Definition SET_version (v : Z) (t : todo) : todo :=
  mk_todo (id t) (user_id t) (title t) (is_complete t) (category_id t)
          (created_at t) (updated_at t) v.

(** An UPDATE of this schema never assigns the key columns: whatever the
    SET clause computes, [id], [user_id] and [created_at] are those of
    the old row. *)
Definition apply_set (assign : todo -> todo) (OLD : todo) : todo :=
  let n := assign OLD in
  mk_todo (id OLD) (user_id OLD) (title n) (is_complete n) (category_id n)
          (created_at OLD) (updated_at n) (version n).

Definition option_uuid_eqb (a b : option uuid) : bool :=
  match a, b with
  | None, None => true
  | Some x, Some y => N.eqb x y
  | _, _ => false
  end.

(** ** The versioning trigger *)

(** [increment_version()], run BEFORE UPDATE ON todos FOR EACH ROW by the
    trigger [update_todo_version]. *)
Definition increment_version (now : timestamptz) (OLD NEW : todo) : result todo :=
  match int4pl (version OLD) 1 with
  | Error e => Error e
  | Ok v => Ok (SET_updated_at (TIMEZONE_utc now) (SET_version v NEW))
  end.

(** ** Statements on [todos] *)

(** The row pass of [UPDATE todos SET assign WHERE cond]: every row that
    satisfies [cond] is replaced by what the trigger returns for it.
    The result is the new heap together with the (old, new) pairs of the
    rows that were updated. *)
Fixpoint update_rows (now : timestamptz) (cond : todo -> bool)
    (assign : todo -> todo) (rows : list todo)
  : result (list todo * list (todo * todo)) :=
  match rows with
  | [] => Ok ([], [])
  | r :: rest =>
      if cond r then
        match increment_version now r (apply_set assign r) with
        | Error e => Error e
        | Ok r' =>
            match update_rows now cond assign rest with
            | Error e => Error e
            | Ok (rest', upd) => Ok (r' :: rest', (r, r') :: upd)
            end
        end
      else
        match update_rows now cond assign rest with
        | Error e => Error e
        | Ok (rest', upd) => Ok (r :: rest', upd)
        end
  end.

(** The foreign key [todos.category_id REFERENCES categories(id)],
    checked at the end of the statement for each updated row whose
    [category_id] changed to a non-NULL value. *)
Definition fk_category_ok (cats : list category) (pr : todo * todo) : bool :=
  let (OLD, NEW) := pr in
  match category_id NEW with
  | None => true
  | Some c =>
      option_uuid_eqb (category_id OLD) (Some c)
      || existsb (fun k => N.eqb (c_id k) c) cats
  end.

(** ** PL/pgSQL computations *)

Inductive outcome (A : Type) : Type :=
| Return (a : A) (db : database)
| Raised (e : sql_error).
Arguments Return {A} a db.
Arguments Raised {A} e.

Definition plpgsql (A : Type) : Type := database -> outcome A.

Definition ret {A : Type} (a : A) : plpgsql A := fun db => Return a db.

Definition bind {A B : Type} (m : plpgsql A) (k : A -> plpgsql B) : plpgsql B :=
  fun db =>
    match m db with
    | Return a db' => k a db'
    | Raised e => Raised e
    end.

Definition RAISE {A : Type} (e : sql_error) : plpgsql A := fun _ => Raised e.

(** [BEGIN body EXCEPTION WHEN OTHERS THEN handler END]: when [body]
    raises, everything it did to the database is rolled back and the
    handler runs on the database as it was at BEGIN. *)
Definition BEGIN_EXCEPTION {A : Type} (body : plpgsql A)
    (handler : sql_error -> plpgsql A) : plpgsql A :=
  fun db =>
    match body db with
    | Return a db' => Return a db'
    | Raised e => handler e db
    end.

Declare Scope plpgsql_scope.
Delimit Scope plpgsql_scope with plpgsql.
Notation "x <- m ;; k" := (bind m (fun x => k))
  (at level 100, m at next level, right associativity) : plpgsql_scope.
Notation "m ;; k" := (bind m (fun _ => k))
  (at level 100, right associativity) : plpgsql_scope.
Open Scope plpgsql_scope.

(** [IF c THEN body END IF]. *)
Definition IF_THEN (c : option bool) (body : plpgsql unit) : plpgsql unit :=
  if is_true c then body else ret tt.

(** [FOREACH x IN ARRAY a LOOP body END LOOP], threading the variables
    the body assigns. *)
Fixpoint FOREACH {A S : Type} (a : list A) (body : A -> S -> plpgsql S)
    (s : S) : plpgsql S :=
  match a with
  | [] => ret s
  | x :: rest => s' <- body x s ;; FOREACH rest body s'
  end.

(** [UPDATE todos SET assign WHERE cond]; the value is the list of new
    rows (for RETURNING), whose length is ROW_COUNT. *)
Definition UPDATE_todos (now : timestamptz) (cond : todo -> bool)
    (assign : todo -> todo) : plpgsql (list todo) :=
  fun db =>
    match update_rows now cond assign (todos db) with
    | Error e => Raised e
    | Ok (rows', upd) =>
        if forallb (fk_category_ok (categories db)) upd
        then Return (map snd upd) (with_todos db rows')
        else Raised foreign_key_violation
    end.

(** [DELETE FROM todos WHERE cond]; the value is ROW_COUNT. *)
Definition DELETE_FROM_todos (cond : todo -> bool) : plpgsql Z :=
  fun db =>
    Return (Z.of_nat (List.length (filter cond (todos db))))
           (with_todos db (filter (fun t => negb (cond t)) (todos db))).

(** [SELECT EXISTS (SELECT 1 FROM categories WHERE cond)]. *)
Definition EXISTS_categories (cond : category -> bool) : plpgsql bool :=
  fun db => Return (existsb cond (categories db)) db.

(** [EXISTS (SELECT 1 FROM todos WHERE cond)]. *)
Definition EXISTS_todos (cond : todo -> bool) : plpgsql bool :=
  fun db => Return (existsb cond (todos db)) db.

Definition ROW_COUNT {A : Type} (rows : list A) : Z := Z.of_nat (List.length rows).

(** ** Bulk operations and the optimistic lock (transaction_schema_fixed.sql) *)

(** The single row of [RETURNS TABLE(success, updated_count, error_message)];
    [bulk_delete_todos] names the second column [deleted_count]. *)
Record bulk_row : Type := mk_bulk_row {
  success : bool;
  updated_count : Z;
  error_message : option string
}.

(** The single row of [RETURNS TABLE(success, new_version, error_message)]. *)
Record version_row : Type := mk_version_row {
  v_success : bool;
  new_version : option Z;
  v_error_message : option string
}.

(** A possibly NULL INTEGER printed by the [%] placeholder of RAISE. *)
Definition int4out_null (n : option Z) : string :=
  match n with
  | None => "<NULL>"
  | Some n' => int4out n'
  end.

(** [WHEN OTHERS THEN RETURN QUERY SELECT false, 0, SQLERRM]. *)
Definition WHEN_OTHERS (e : sql_error) : plpgsql bulk_row :=
  ret (mk_bulk_row false 0 (Some (SQLERRM e))).

Definition bulk_update_todos (now : timestamptz) (p_user_id : uuid)
    (p_todo_ids : list uuid) (p_is_complete : bool) : plpgsql bulk_row :=
  BEGIN_EXCEPTION
    (v_updated_count <-
       FOREACH p_todo_ids
         (fun v_todo_id v_updated_count =>
            rows <- UPDATE_todos now
                      (fun t => N.eqb (id t) v_todo_id && N.eqb (user_id t) p_user_id)
                      (SET_is_complete p_is_complete) ;;
            let v_row_count := ROW_COUNT rows in
            ret (v_updated_count + v_row_count))
         0 ;;
     IF_THEN (int4ne v_updated_count (array_length p_todo_ids))
       (RAISE (raise_exception
          ("Some todos could not be updated. Expected: "
           ++ int4out_null (array_length p_todo_ids)
           ++ ", Updated: " ++ int4out v_updated_count))) ;;
     ret (mk_bulk_row true v_updated_count None))
    WHEN_OTHERS.

Definition bulk_change_category (now : timestamptz) (p_user_id : uuid)
    (p_todo_ids : list uuid) (p_category_id : option uuid) : plpgsql bulk_row :=
  BEGIN_EXCEPTION
    (match p_category_id with
     | Some c =>
         v_category_exists <-
           EXISTS_categories
             (fun k => N.eqb (c_id k) c && N.eqb (c_user_id k) p_user_id) ;;
         IF_THEN (Some (negb v_category_exists))
           (RAISE (raise_exception "Category does not exist or access denied"))
     | None => ret tt
     end ;;
     rows <- UPDATE_todos now
               (fun t => eq_ANY (id t) p_todo_ids && N.eqb (user_id t) p_user_id)
               (SET_category_id p_category_id) ;;
     let v_updated_count := ROW_COUNT rows in
     IF_THEN (int4ne v_updated_count (array_length p_todo_ids))
       (RAISE (raise_exception "Some todos could not be updated")) ;;
     ret (mk_bulk_row true v_updated_count None))
    WHEN_OTHERS.

Definition update_todo_with_version (now : timestamptz) (p_user_id p_todo_id : uuid)
    (p_title : string) (p_is_complete : bool) (p_category_id : option uuid)
    (p_expected_version : Z) : plpgsql version_row :=
  BEGIN_EXCEPTION
    (rows <- UPDATE_todos now
               (fun t => N.eqb (id t) p_todo_id && N.eqb (user_id t) p_user_id
                         && (version t =? p_expected_version))
               (fun t => SET_category_id p_category_id
                           (SET_is_complete p_is_complete (SET_title p_title t))) ;;
     (* RETURNING version INTO v_new_version *)
     let v_new_version := option_map version (hd_error rows) in
     let v_updated_count := ROW_COUNT rows in
     IF_THEN (Some (v_updated_count =? 0))
       (found <- EXISTS_todos
                   (fun t => N.eqb (id t) p_todo_id && N.eqb (user_id t) p_user_id) ;;
        if negb found
        then RAISE (raise_exception "Todo not found or access denied")
        else RAISE (raise_exception
                      "Version conflict: Todo was modified by another process")) ;;
     ret (mk_version_row true v_new_version None))
    (fun e => ret (mk_version_row false (Some 0) (Some (SQLERRM e)))).

Definition bulk_delete_todos (p_user_id : uuid) (p_todo_ids : list uuid)
  : plpgsql bulk_row :=
  BEGIN_EXCEPTION
    (v_deleted_count <-
       DELETE_FROM_todos
         (fun t => eq_ANY (id t) p_todo_ids && N.eqb (user_id t) p_user_id) ;;
     IF_THEN (int4ne v_deleted_count (array_length p_todo_ids))
       (RAISE (raise_exception
          ("Some todos could not be deleted. Expected: "
           ++ int4out_null (array_length p_todo_ids)
           ++ ", Deleted: " ++ int4out v_deleted_count))) ;;
     ret (mk_bulk_row true v_deleted_count None))
    WHEN_OTHERS.

Definition bulk_update_todos_efficient (now : timestamptz) (p_user_id : uuid)
    (p_todo_ids : list uuid) (p_is_complete : bool) : plpgsql bulk_row :=
  BEGIN_EXCEPTION
    (rows <- UPDATE_todos now
               (fun t => eq_ANY (id t) p_todo_ids && N.eqb (user_id t) p_user_id)
               (SET_is_complete p_is_complete) ;;
     let v_updated_count := ROW_COUNT rows in
     IF_THEN (int4ne v_updated_count (array_length p_todo_ids))
       (RAISE (raise_exception
          ("Some todos could not be updated. Expected: "
           ++ int4out_null (array_length p_todo_ids)
           ++ ", Updated: " ++ int4out v_updated_count))) ;;
     ret (mk_bulk_row true v_updated_count None))
    WHEN_OTHERS.

(** ** Derived notions used to state the properties *)

(** The row an UPDATE stores for [OLD] when the trigger does not raise. *)
Definition updated_row (now : timestamptz) (assign : todo -> todo) (OLD : todo) : todo :=
  SET_updated_at (TIMEZONE_utc now) (SET_version (version OLD + 1) (apply_set assign OLD)).

(** [version + 1] is an INTEGER. *)
Definition can_increment (r : todo) : bool :=
  (INT_MIN <=? version r + 1) && (version r + 1 <=? INT_MAX).

(** The WHERE clause of the set-based bulk statements. *)
Definition owned_in (p_user_id : uuid) (p_todo_ids : list uuid) (t : todo) : bool :=
  eq_ANY (id t) p_todo_ids && N.eqb (user_id t) p_user_id.

(** The WHERE clause of one iteration of [bulk_update_todos]. *)
Definition owned_is (p_user_id : uuid) (v_todo_id : uuid) (t : todo) : bool :=
  N.eqb (id t) v_todo_id && N.eqb (user_id t) p_user_id.

(** Rows a set-based bulk statement affects. *)
Definition rows_affected (p_user_id : uuid) (p_todo_ids : list uuid) (db : database) : Z :=
  Z.of_nat (List.length (filter (owned_in p_user_id p_todo_ids) (todos db))).

(** Rows the iterations of [bulk_update_todos] affect, summed over the
    requested ids (an id listed twice counts its row twice). *)
Fixpoint rows_affected_loop (p_user_id : uuid) (p_todo_ids : list uuid) (rows : list todo) : Z :=
  match p_todo_ids with
  | [] => 0
  | v :: rest =>
      Z.of_nat (List.length (filter (owned_is p_user_id v) rows))
      + rows_affected_loop p_user_id rest rows
  end.

(** A sequence of UPDATE statements on [todos], each with its own
    transaction time, WHERE clause and SET clause. *)
Definition statement : Type := timestamptz * (todo -> bool) * (todo -> todo).

Fixpoint run_updates (stmts : list statement) : plpgsql unit :=
  match stmts with
  | [] => ret tt
  | (now, cond, assign) :: rest =>
      UPDATE_todos now cond assign ;; run_updates rest
  end.

(** How many statements of the sequence update the row that starts as [r]. *)
Fixpoint times_updated (stmts : list statement) (r : todo) : Z :=
  match stmts with
  | [] => 0
  | (now, cond, assign) :: rest =>
      if cond r then 1 + times_updated rest (updated_row now assign r)
      else times_updated rest r
  end.

(** PRIMARY KEY (id) on [todos]. *)
Definition todos_pkey (db : database) : Prop := NoDup (map id (todos db)).

(** The WHERE clause of [update_todo_with_version]. *)
Definition owned_at_version (p_user_id p_todo_id : uuid) (p_expected_version : Z)
    (t : todo) : bool :=
  N.eqb (id t) p_todo_id && N.eqb (user_id t) p_user_id
  && (version t =? p_expected_version).

(** The SET clause of [update_todo_with_version]. *)
Definition SET_all (p_title : string) (p_is_complete : bool)
    (p_category_id : option uuid) (t : todo) : todo :=
  SET_category_id p_category_id (SET_is_complete p_is_complete (SET_title p_title t)).

(** A category reference the foreign key accepts: NULL, or the [id] of a
    row of [categories]. *)
Definition category_ref_ok (db : database) (c : option uuid) : bool :=
  match c with
  | None => true
  | Some c' => existsb (fun k => N.eqb (c_id k) c') (categories db)
  end.

Definition Version_conflict : string :=
  "Version conflict: Todo was modified by another process".

Definition Todo_not_found : string := "Todo not found or access denied".

(** The body of the FOREACH loop of [bulk_update_todos]. *)
Definition bulk_update_todos_body (now : timestamptz) (p_user_id : uuid)
    (p_is_complete : bool) (v_todo_id : uuid) (v_updated_count : Z) : plpgsql Z :=
  rows <- UPDATE_todos now (owned_is p_user_id v_todo_id)
                       (SET_is_complete p_is_complete) ;;
  ret (v_updated_count + ROW_COUNT rows).

(** What one UPDATE does to a row: selected rows move one version up and
    get the statement's time, other rows stay as they are. *)
Definition bumped_once (now : timestamptz) (cond : todo -> bool) (OLD NEW : todo) : Prop :=
  if cond OLD
  then version NEW = version OLD + 1
       /\ updated_at NEW = TIMEZONE_utc now
       /\ id NEW = id OLD /\ user_id NEW = user_id OLD
  else NEW = OLD.

(** The UPDATE statements the loop of [bulk_update_todos] issues. *)
Definition bulk_update_todos_statements (now : timestamptz) (p_user_id : uuid)
    (p_todo_ids : list uuid) (p_is_complete : bool) : list statement :=
  map (fun v_todo_id => (now, owned_is p_user_id v_todo_id, SET_is_complete p_is_complete))
      p_todo_ids.
(** ** Text (search_pagination_working.sql)

    TEXT is a string of bytes that holds UTF-8, the encoding of the
    database: a character is a byte that is not a continuation byte
    (10xxxxxx) together with the continuation bytes that follow it.
    LENGTH, SUBSTRING and the wildcards of LIKE count characters.
    LOWER folds the letters A to Z, as it does in every locale; case
    outside ASCII is not modelled. *)

Definition is_continuation (c : ascii) : bool :=
  (N.leb 128 (N_of_ascii c)) && (N.leb (N_of_ascii c) 191).

(** The text does not begin in the middle of a character; every TEXT
    value is like that. *)
Definition starts_character (s : string) : bool :=
  match s with
  | EmptyString => true
  | String c _ => negb (is_continuation c)
  end.

Fixpoint skip_continuation (s : string) : string :=
  match s with
  | EmptyString => EmptyString
  | String c s' => if is_continuation c then skip_continuation s' else s
  end.

Definition is_upper (c : ascii) : bool :=
  (N.leb 65 (N_of_ascii c)) && (N.leb (N_of_ascii c) 90).

Definition lower_char (c : ascii) : ascii :=
  if is_upper c then ascii_of_N (N_of_ascii c + 32) else c.

(** [LOWER(s)]. *)
Fixpoint LOWER (s : string) : string :=
  match s with
  | EmptyString => EmptyString
  | String c s' => String (lower_char c) (LOWER s')
  end.

Fixpoint ltrim (s : string) : string :=
  match s with
  | String c s' => if Ascii.eqb c " " then ltrim s' else s
  | EmptyString => EmptyString
  end.

Definition string_rev (s : string) : string :=
  string_of_list_ascii (rev (list_ascii_of_string s)).

(** [TRIM(s)]: spaces removed at both ends. *)
Definition TRIM (s : string) : string :=
  string_rev (ltrim (string_rev (ltrim s))).

(** [COALESCE(s, '')]. *)
Definition COALESCE (s : option string) : string :=
  match s with
  | Some s' => s'
  | None => ""
  end.

(** The normalisation every search function starts with:
    [LOWER(TRIM(COALESCE(p_search_query, '')))]. *)
Definition normalize (p_search_query : option string) : string :=
  LOWER (TRIM (COALESCE p_search_query)).

Definition is_empty (s : string) : bool :=
  match s with
  | EmptyString => true
  | String _ _ => false
  end.

(** The text from some character on satisfies [m]. *)
Fixpoint any_character (m : string -> bool) (t : string) : bool :=
  (starts_character t && m t)
  || match t with
     | EmptyString => false
     | String _ t' => any_character m t'
     end.

(** [s LIKE p] with the default escape character: [%] matches any
    sequence of characters, [_] any one character, a backslash makes
    the next pattern character literal; everything else is compared
    byte by byte.  A pattern that ends in a lone backslash is an error
    in PostgreSQL; the patterns of this file all end in [%] and never do
    (see [like_dangling_escape_built]). *)
Fixpoint LIKE_pattern (p : string) (s : string) {struct p} : bool :=
  match p with
  | EmptyString => is_empty s
  | String c p' =>
      if Ascii.eqb c "%" then
        LIKE_pattern p' s
        || match s with
           | EmptyString => false
           | String _ s' => any_character (LIKE_pattern p') s'
           end
      else if Ascii.eqb c "_" then
        match s with
        | EmptyString => false
        | String _ s' => LIKE_pattern p' (skip_continuation s')
        end
      else if Ascii.eqb c "\" then
        match p' with
        | EmptyString => false
        | String c' p'' =>
            match s with
            | EmptyString => false
            | String d s' => Ascii.eqb c' d && LIKE_pattern p'' s'
            end
        end
      else
        match s with
        | EmptyString => false
        | String d s' => Ascii.eqb c d && LIKE_pattern p' s'
        end
  end.

Definition LIKE (s p : string) : bool := LIKE_pattern p s.

(** The pattern ends in a backslash that escapes nothing. *)
Fixpoint dangling_escape (p : string) : bool :=
  match p with
  | EmptyString => false
  | String c p' =>
      if Ascii.eqb c "\" then
        match p' with
        | EmptyString => true
        | String _ p'' => dangling_escape p''
        end
      else dangling_escape p'
  end.





(** [LENGTH(s)]: the number of characters. *)
Fixpoint char_length (s : string) : nat :=
  match s with
  | EmptyString => O
  | String c s' => if is_continuation c then char_length s' else S (char_length s')
  end.

Definition LENGTH (s : string) : Z := Z.of_nat (char_length s).

(** [SUBSTRING(s FROM 1 FOR n)]: the first [n] characters. *)
Fixpoint SUBSTRING_FROM_1_FOR (n : nat) (s : string) : string :=
  match s with
  | EmptyString => EmptyString
  | String c s' =>
      if is_continuation c then String c (SUBSTRING_FROM_1_FOR n s')
      else match n with
           | O => EmptyString
           | S n' => String c (SUBSTRING_FROM_1_FOR n' s')
           end
  end.

(** ** Floating point

    [real] and [double precision] values are the rationals they denote.
    A decimal literal or an exact quotient that becomes a [real] or a
    [double precision] is rounded to the nearest value with a 24-bit,
    respectively 53-bit, significand, ties to even.  The numbers of this
    file lie far inside the exponent range of both types. *)

Definition round_to_precision (p : Z) (q : Q) : Q :=
  let n := Qnum q in
  let d := Zpos (Qden q) in
  if n =? 0 then 0%Q
  else
    let a := Z.abs n in
    let k := Z.log2 a - Z.log2 d in
    let e := if d * 2 ^ Z.max 0 k <=? a * 2 ^ Z.max 0 (- k) then k else k - 1 in
    let shift := p - 1 - e in
    let num := a * 2 ^ Z.max 0 shift in
    let den := d * 2 ^ Z.max 0 (- shift) in
    let m := num / den in
    let r := num mod den in
    let m' := if 2 * r <? den then m
              else if den <? 2 * r then m + 1
              else if Z.even m then m else m + 1 in
    Qred (Qmake (Z.sgn n * m' * 2 ^ Z.max 0 (- shift))
                (Z.to_pos (2 ^ Z.max 0 shift))).

(** A value of type [real]. *)
Definition float4 (q : Q) : Q := round_to_precision 24 q.

(** A value of type [double precision]. *)
Definition float8 (q : Q) : Q := round_to_precision 53 q.

(** ** Ordering and paging *)

(** ORDER BY: a stable insertion sort by the given "comes first"
    test.  SQL leaves the order of rows with equal sort keys open, and
    it may change from one query to the next; this is one admissible
    order, and the only one when the sort keys are distinct. *)
Fixpoint insert_by {A : Type} (before : A -> A -> bool) (x : A) (l : list A) : list A :=
  match l with
  | [] => [x]
  | y :: l' => if before x y then x :: l else y :: insert_by before x l'
  end.

Fixpoint ORDER_BY {A : Type} (before : A -> A -> bool) (l : list A) : list A :=
  match l with
  | [] => []
  | x :: l' => insert_by before x (ORDER_BY before l')
  end.

(** [LIMIT n]: an error when [n] is negative. *)
Definition LIMIT {A : Type} (n : Z) (rows : list A) : result (list A) :=
  if n <? 0 then Error invalid_row_count_in_limit_clause
  else Ok (firstn (Z.to_nat n) rows).

(** [LIMIT n OFFSET k]: the offset is checked first. *)
Definition LIMIT_OFFSET {A : Type} (n k : Z) (rows : list A) : result (list A) :=
  if k <? 0 then Error invalid_row_count_in_result_offset_clause
  else LIMIT n (skipn (Z.to_nat k) rows).

(** [FROM todos t LEFT JOIN categories c ON t.category_id = c.id]:
    [categories.id] is the primary key, so the join yields one row per
    todo, with the category it references or NULLs. *)
Definition LEFT_JOIN_categories (db : database) : list (todo * option category) :=
  map (fun t =>
         (t, match category_id t with
             | None => None
             | Some c => find (fun k => N.eqb (c_id k) c) (categories db)
             end))
      (todos db).

(** [p_category_id IS NULL OR t.category_id = p_category_id]. *)
Definition category_filter (p_category_id : option uuid) (t : todo) : bool :=
  match p_category_id with
  | None => true
  | Some c => option_uuid_eqb (category_id t) (Some c)
  end.

(** ** pg_trgm

    [similarity(text, text)] belongs to the pg_trgm extension, not to
    this repository.  The search functions take it as a parameter; the
    definition below follows the extension (lower-cased words of letters
    and digits, each padded with two spaces in front and one behind, the
    set of their 3-character windows, shared over total, as a [real])
    and is used for the concrete examples.  Characters outside ASCII
    count as letters, as they do for the letters of other scripts in a
    UTF-8 locale; the extension keeps a 3-byte hash of a window that
    takes more than 3 bytes, here two windows are equal only when they
    are the same. *)

(** The characters of a text. *)
Fixpoint characters (s : string) : list string :=
  match s with
  | EmptyString => []
  | String c s' =>
      if starts_character s' then String c EmptyString :: characters s'
      else match characters s' with
           | [] => [String c EmptyString]
           | ch :: chs => String c ch :: chs
           end
  end.

Definition is_alnum (c : ascii) : bool :=
  let n := N_of_ascii c in
  ((N.leb 48 n) && (N.leb n 57)) || ((N.leb 65 n) && (N.leb n 90))
  || ((N.leb 97 n) && (N.leb n 122)).

Definition is_word_character (ch : string) : bool :=
  match ch with
  | EmptyString => false
  | String c EmptyString => is_alnum c
  | String _ _ => true
  end.

Fixpoint trgm_words (s : list string) (cur : list string) : list (list string) :=
  match s with
  | [] => match cur with [] => [] | _ => [rev cur] end
  | ch :: s' =>
      if is_word_character ch then trgm_words s' (LOWER ch :: cur)
      else match cur with
           | [] => trgm_words s' []
           | _ => rev cur :: trgm_words s' []
           end
  end.

Fixpoint windows3 (w : list string) : list (string * string * string) :=
  match w with
  | a :: ((b :: c :: _) as w') => (a, b, c) :: windows3 w'
  | _ => []
  end.

Definition trgm_eqb (x y : string * string * string) : bool :=
  let '(a, b, c) := x in
  let '(d, e, f) := y in
  String.eqb a d && String.eqb b e && String.eqb c f.

Fixpoint trgm_uniq (l : list (string * string * string))
  : list (string * string * string) :=
  match l with
  | [] => []
  | x :: l' => if existsb (trgm_eqb x) l' then trgm_uniq l' else x :: trgm_uniq l'
  end.

Definition generate_trgm (s : string) : list (string * string * string) :=
  trgm_uniq
    (flat_map (fun w => windows3 (" " :: " " :: w ++ [" "]))
              (trgm_words (characters s) [])).

Definition pg_trgm_similarity (a b : string) : Q :=
  let ta := generate_trgm a in
  let tb := generate_trgm b in
  let shared := List.length (filter (fun x => existsb (trgm_eqb x) tb) ta) in
  match ta, tb with
  | [], _ => 0%Q
  | _, [] => 0%Q
  | _, _ =>
      float4 (Z.of_nat shared
              # Pos.of_nat (List.length ta + List.length tb - shared))
  end.

(** ** Search and pagination functions *)

(** The columns every listing function selects from the join. *)
Record listed_todo : Type := mk_listed_todo {
  l_id : uuid;
  l_title : string;
  l_is_complete : bool;
  l_category_id : option uuid;
  l_created_at : timestamptz;
  l_version : Z;
  l_category_name : option string;
  l_category_color : option string
}.

Definition project (j : todo * option category) : listed_todo :=
  let (t, c) := j in
  mk_listed_todo (id t) (title t) (is_complete t) (category_id t)
                 (created_at t) (version t)
                 (option_map c_name c) (option_map c_color c).

Definition Qgt_bool (a b : Q) : bool := negb (Qle_bool a b).

(** The rank expression of [search_todos] (the same CASE appears in the
    select list and in ORDER BY).  One branch is [similarity], a [real],
    so the CASE is of type [real] and its literals are [real] values;
    the cast to FLOAT keeps the value. *)
Definition search_rank (similarity : string -> string -> Q)
    (v_search_query : string) (t : todo) : Q :=
  if negb (is_empty v_search_query) then
    if String.eqb (LOWER (title t)) v_search_query then float4 1
    else if LIKE (LOWER (title t)) (v_search_query ++ "%") then float4 (8 # 10)
    else if LIKE (LOWER (title t)) ("%" ++ v_search_query ++ "%") then float4 (6 # 10)
    else similarity (LOWER (title t)) v_search_query
  else float4 0.

(** The text condition of the WHERE clauses.  A [real] is compared with
    the literal 0.2 in [double precision]. *)
Definition search_filter (similarity : string -> string -> Q)
    (v_search_query : string) (t : todo) : bool :=
  is_empty v_search_query
  || LIKE (LOWER (title t)) ("%" ++ v_search_query ++ "%")
  || Qgt_bool (similarity (LOWER (title t)) v_search_query) (float8 (2 # 10)).

(** [ORDER BY rank DESC, t.created_at DESC]. *)
Definition rank_created_desc (rank : todo -> Q) (a b : todo * option category) : bool :=
  Qgt_bool (rank (fst a)) (rank (fst b))
  || (Qeq_bool (rank (fst a)) (rank (fst b))
      && (created_at (fst b) <=? created_at (fst a))).

(** [ORDER BY t.created_at DESC]. *)
Definition created_desc (a b : todo * option category) : bool :=
  created_at (fst b) <=? created_at (fst a).

Definition search_todos (similarity : string -> string -> Q) (db : database)
    (p_user_id : uuid) (p_search_query : option string)
    (p_category_id : option uuid) (p_limit p_offset : Z)
  : result (list (listed_todo * Q)) :=
  let v_search_query := normalize p_search_query in
  LIMIT_OFFSET p_limit p_offset
    (map (fun j => (project j, search_rank similarity v_search_query (fst j)))
       (ORDER_BY (rank_created_desc (search_rank similarity v_search_query))
          (filter (fun j => N.eqb (user_id (fst j)) p_user_id
                            && search_filter similarity v_search_query (fst j)
                            && category_filter p_category_id (fst j))
                  (LEFT_JOIN_categories db)))).

(** The rows [get_todos_cursor] selects before ordering and limiting. *)
Definition cursor_candidates (similarity : string -> string -> Q) (db : database)
    (p_user_id : uuid) (p_cursor : timestamptz) (v_search_query : string)
    (p_category_id : option uuid) : list (todo * option category) :=
  filter (fun j => N.eqb (user_id (fst j)) p_user_id
                   && (created_at (fst j) <? p_cursor)
                   && search_filter similarity v_search_query (fst j)
                   && category_filter p_category_id (fst j))
         (LEFT_JOIN_categories db).

Definition get_todos_cursor (similarity : string -> string -> Q) (now : timestamptz)
    (db : database) (p_user_id : uuid) (p_cursor : option timestamptz)
    (p_limit : Z) (p_search_query : option string) (p_category_id : option uuid)
  : result (list (listed_todo * bool)) :=
  let v_search_query := normalize p_search_query in
  let p_cursor :=
    match p_cursor with
    | None => now + INTERVAL_1_day
    | Some c => c
    end in
  match int4pl p_limit 1 with
  | Error e => Error e
  | Ok limit_plus_1 =>
      match LIMIT limit_plus_1
              (ORDER_BY created_desc
                 (cursor_candidates similarity db p_user_id p_cursor
                                    v_search_query p_category_id)) with
      | Error e => Error e
      | Ok fetched_todos =>
          match LIMIT p_limit fetched_todos with
          | Error e => Error e
          | Ok limited_todos =>
              Ok (map (fun lt =>
                         (project lt,
                          Z.of_nat (List.length fetched_todos) >? p_limit))
                      limited_todos)
          end
      end
  end.

(** The suggestion text of a title. *)
Definition suggestion_of (title : string) : string :=
  if LENGTH title >? 50 then SUBSTRING_FROM_1_FOR 47 title ++ "..." else title.

(** GROUP BY on one text expression with COUNT: one row per distinct
    value, with the number of rows that have it. *)
Fixpoint distinct (l : list string) : list string :=
  match l with
  | [] => []
  | x :: l' => x :: filter (fun y => negb (String.eqb x y)) (distinct l')
  end.

Definition count_of (x : string) (l : list string) : Z :=
  Z.of_nat (List.length (filter (String.eqb x) l)).

Definition GROUP_BY_count (l : list string) : list (string * Z) :=
  map (fun x => (x, count_of x l)) (distinct l).

(** [ORDER BY count DESC, suggestion] (text compared character code by
    character code). *)
Definition count_desc_suggestion (a b : string * Z) : bool :=
  (snd b <? snd a) || ((snd a =? snd b) && String.leb (fst a) (fst b)).

Definition get_search_suggestions (db : database) (p_user_id : uuid)
    (p_query : option string) (p_limit : Z) : result (list (string * Z)) :=
  let v_query := normalize p_query in
  if is_empty v_query then Ok []
  else
    LIMIT p_limit
      (ORDER_BY count_desc_suggestion
         (GROUP_BY_count
            (map (fun t => suggestion_of (title t))
                 (filter (fun t => N.eqb (user_id t) p_user_id
                                   && LIKE (LOWER (title t)) (v_query ++ "%"))
                         (todos db))))).

(** ** Ranking tiers of [search_todos] *)




(** Row [a] may precede row [b] under [ORDER BY rank DESC, created_at DESC]. *)
Definition ranked_before (a b : listed_todo * Q) : Prop :=
  (snd b < snd a)%Q
  \/ ((snd a == snd b)%Q /\ l_created_at (fst b) <= l_created_at (fst a)).

(** ** Notions used to state the cursor pagination properties *)

(** The rows [get_todos_cursor] would return without the LIMITs, in
    their [created_at DESC] order. *)
Definition cursor_sequence (similarity : string -> string -> Q) (db : database)
    (p_user_id : uuid) (p_cursor : timestamptz) (p_search_query : option string)
    (p_category_id : option uuid) : list (todo * option category) :=
  ORDER_BY created_desc
    (cursor_candidates similarity db p_user_id p_cursor
                       (normalize p_search_query) p_category_id).

(** The cursor a call uses: the argument, or now + 1 day when it is NULL. *)
Definition effective_cursor (now : timestamptz) (p_cursor : option timestamptz)
  : timestamptz :=
  match p_cursor with
  | None => now + INTERVAL_1_day
  | Some c => c
  end.

(** Listed rows in [created_at DESC] order. *)
Definition newest_first {B : Type} (a b : listed_todo * B) : Prop :=
  l_created_at (fst b) <= l_created_at (fst a).



(** ** New-user provisioning (complete_setup.sql) *)

(** A row conflicts with [categories] when it repeats the primary key
    [id] or the UNIQUE pair [(user_id, name)]. *)
Definition category_conflict (row : category) (cats : list category) : bool :=
  existsb (fun k => N.eqb (c_id k) (c_id row)
                    || (N.eqb (c_user_id k) (c_user_id row)
                        && String.eqb (c_name k) (c_name row)))
          cats.

(** One row of [INSERT INTO categories ... ON CONFLICT DO NOTHING]. *)
Definition INSERT_category (row : category) (cats : list category) : list category :=
  if category_conflict row cats then cats else cats ++ [row].

(** [create_default_categories()], the AFTER INSERT trigger function on
    [profiles]; [NEW_id] is [NEW.id].  [gen_random_uuid k] is the value
    the column default [gen_random_uuid()] draws for the k-th row, and
    the timestamp defaults are the transaction time. *)
Definition create_default_categories (now : timestamptz)
    (gen_random_uuid : nat -> uuid) (NEW_id : uuid) (db : database) : database :=
  let t := TIMEZONE_utc now in
  let cats := categories db in
  let cats := INSERT_category
                (mk_category (gen_random_uuid 0%nat) NEW_id "仕事" "#EF4444" t t) cats in
  let cats := INSERT_category
                (mk_category (gen_random_uuid 1%nat) NEW_id "個人" "#10B981" t t) cats in
  let cats := INSERT_category
                (mk_category (gen_random_uuid 2%nat) NEW_id "勉強" "#8B5CF6" t t) cats in
  let cats := INSERT_category
                (mk_category (gen_random_uuid 3%nat) NEW_id "買い物" "#F59E0B" t t) cats in
  with_categories db cats.

(** [create_profile_for_user()], the AFTER INSERT trigger function on
    [auth.users]: [INSERT INTO profiles (id) VALUES (NEW.id) ON CONFLICT
    DO NOTHING].  When the row is inserted, the trigger
    [create_user_default_categories] on [profiles] fires for it. *)
Definition create_profile_for_user (now : timestamptz)
    (gen_random_uuid : nat -> uuid) (NEW_id : uuid) (db : database) : database :=
  if existsb (fun p => N.eqb (p_id p) NEW_id) (profiles db) then db
  else
    create_default_categories now gen_random_uuid NEW_id
      (with_profiles db
         (profiles db ++ [mk_profile NEW_id (TIMEZONE_utc now) (TIMEZONE_utc now)])).

(** The categories of a user, and the profile rows of a user. *)
Definition categories_of (u : uuid) (db : database) : list category :=
  filter (fun k => N.eqb (c_user_id k) u) (categories db).

Definition profiles_of (u : uuid) (db : database) : list profile :=
  filter (fun p => N.eqb (p_id p) u) (profiles db).

(** The four values drawn for the rows are pairwise distinct and none is
    the id of an existing category. *)
Definition fresh_uuids (gen_random_uuid : nat -> uuid) (db : database) : Prop :=
  NoDup [gen_random_uuid 0%nat; gen_random_uuid 1%nat;
         gen_random_uuid 2%nat; gen_random_uuid 3%nat]
  /\ forall i k, (i < 4)%nat -> In k (categories db) -> c_id k <> gen_random_uuid i.

(** The starter set for user [u] as inserted at time [now]. *)
Definition starter_categories (now : timestamptz) (gen_random_uuid : nat -> uuid)
    (u : uuid) : list category :=
  let t := TIMEZONE_utc now in
  [mk_category (gen_random_uuid 0%nat) u "仕事" "#EF4444" t t;
   mk_category (gen_random_uuid 1%nat) u "個人" "#10B981" t t;
   mk_category (gen_random_uuid 2%nat) u "勉強" "#8B5CF6" t t;
   mk_category (gen_random_uuid 3%nat) u "買い物" "#F59E0B" t t].

(** [cats] has a category of user [u] named [n]. *)
Definition has_category (u : uuid) (n : string) (cats : list category) : bool :=
  existsb (fun k => N.eqb (c_user_id k) u && String.eqb (c_name k) n) cats.

(** The rows of a multi-row INSERT ... ON CONFLICT DO NOTHING, in order. *)
Definition INSERT_categories (rows cats : list category) : list category :=
  fold_left (fun acc row => INSERT_category row acc) rows cats.

(** ** The ordered bulk update (transaction_schema_fixed.sql) *)

(** [SELECT id FROM todos WHERE id = ANY(p_todo_ids) AND user_id =
    p_user_id ORDER BY id FOR UPDATE]: the ids of the caller's requested
    rows, in ascending order (the order in which the rows are locked). *)
Definition locked_ids (p_user_id : uuid) (p_todo_ids : list uuid) (db : database)
  : list uuid :=
  map id
      (ORDER_BY (fun a b => N.leb (id a) (id b))
                (filter (fun t => eq_ANY (id t) p_todo_ids && N.eqb (user_id t) p_user_id)
                        (todos db))).

Definition bulk_update_todos_ordered (now : timestamptz) (p_user_id : uuid)
    (p_todo_ids : list uuid) (p_is_complete : bool) : plpgsql bulk_row :=
  BEGIN_EXCEPTION
    (rows <- (fun db =>
                UPDATE_todos now
                  (fun t => eq_ANY (id t) (locked_ids p_user_id p_todo_ids db))
                  (SET_is_complete p_is_complete) db) ;;
     let v_updated_count := ROW_COUNT rows in
     IF_THEN (int4ne v_updated_count (array_length p_todo_ids))
       (RAISE (raise_exception "Update failed")) ;;
     ret (mk_bulk_row true v_updated_count None))
    WHEN_OTHERS.

(** ** Deleting a category (complete_setup.sql)

    [todos.category_id REFERENCES categories(id) ON DELETE SET NULL]:
    for each deleted category the referential action runs
    [UPDATE todos SET category_id = NULL WHERE category_id = OLD.id],
    which fires the versioning trigger like any other UPDATE. *)
Definition references (c : uuid) (t : todo) : bool :=
  option_uuid_eqb (category_id t) (Some c).

Definition DELETE_FROM_categories (now : timestamptz) (cond : category -> bool)
  : plpgsql Z :=
  fun db =>
    let deleted := filter cond (categories db) in
    let kept := filter (fun k => negb (cond k)) (categories db) in
    match FOREACH deleted
            (fun k (_ : unit) =>
               UPDATE_todos now (references (c_id k)) (SET_category_id None) ;;
               ret tt)
            tt (with_categories db kept) with
    | Return _ db' => Return (Z.of_nat (List.length deleted)) db'
    | Raised e => Raised e
    end.

(** The client's [.from('categories').delete().eq('id', categoryId)]
    under the policy "Users can delete their own categories"
    ([USING (auth.uid() = user_id)]). *)
Definition deleteCategory (now : timestamptz) (auth_uid : uuid) (categoryId : uuid)
  : plpgsql Z :=
  DELETE_FROM_categories now
    (fun k => N.eqb (c_id k) categoryId && N.eqb (c_user_id k) auth_uid).

(** ** Constraints of the schema *)

(** FOREIGN KEY (category_id) REFERENCES categories(id) on [todos]. *)
Definition todos_category_fkey (db : database) : Prop :=
  forall t, In t (todos db) -> category_ref_ok db (category_id t) = true.

(** PRIMARY KEY (id) and UNIQUE (user_id, name) on [categories]. *)
Definition categories_pkey (cats : list category) : Prop := NoDup (map c_id cats).

Definition categories_user_id_name_key (cats : list category) : Prop :=
  NoDup (map (fun k => (c_user_id k, c_name k)) cats).

(** PRIMARY KEY (id) on [profiles]. *)
Definition profiles_pkey (db : database) : Prop := NoDup (map p_id (profiles db)).

(** A computation keeps a property of the database whenever it returns. *)
Definition keeps {A : Type} (Inv : database -> Prop) (m : plpgsql A) : Prop :=
  forall db a db', Inv db -> m db = Return a db' -> Inv db'.

(** The constraints on [todos]. *)
Definition todos_constraints (db : database) : Prop :=
  todos_pkey db /\ todos_category_fkey db.

(** The constraints on [todos] hold and the other tables are those of [db0]. *)
Definition todos_constraints_frame (db0 db : database) : Prop :=
  todos_constraints db
  /\ categories db = categories db0 /\ profiles db = profiles db0.

(** The todo references one of the given categories. *)
Definition references_any (deleted : list category) (t : todo) : bool :=
  existsb (fun k => references (c_id k) t) deleted.

(** The WHERE clause of [deleteCategory], policy included. *)
Definition own_category (auth_uid categoryId : uuid) (k : category) : bool :=
  N.eqb (c_id k) categoryId && N.eqb (c_user_id k) auth_uid.

(** The primary keys of [profiles] and [categories] and the
    UNIQUE(user_id, name) constraint of [categories]. *)
Definition setup_constraints (db : database) : Prop :=
  profiles_pkey db
  /\ categories_pkey (categories db)
  /\ categories_user_id_name_key (categories db).

(** The names of the starter categories. *)
Definition starter_names : list string := ["仕事"; "個人"; "勉強"; "買い物"].

(** ** Page numbers and keyword search (search_pagination_working.sql) *)

(** [COUNT] over the selected rows: a BIGINT. *)
Definition COUNT {A : Type} (rows : list A) : Z := Z.of_nat (List.length rows).

(** A BIGINT cast to INTEGER: an error outside the INTEGER range. *)
Definition int84 (n : Z) : result Z :=
  if (INT_MIN <=? n) && (n <=? INT_MAX) then Ok n
  else Error numeric_value_out_of_range.

(** [CEIL(x)::INTEGER] of a quotient of two INTEGERs.  The quotient is
    a FLOAT; for an INTEGER count and the divisor 20 the rounding error
    of the division (below 2^-22) is smaller than the distance of an
    inexact quotient from the next whole number (at least 1/20), so the
    ceiling is that of the exact quotient. *)
Definition CEIL (x : Q) : Z := Qceiling x.

(** The single row of [get_pagination_info]. *)
Record pagination_info : Type := mk_pagination_info {
  total_count : Z;
  total_pages : Z;
  items_per_page : Z
}.

Definition get_pagination_info (similarity : string -> string -> Q) (db : database)
    (p_user_id : uuid) (p_search_query : option string)
    (p_category_id : option uuid) : result pagination_info :=
  let v_items_per_page := 20 in
  let v_search_query := normalize p_search_query in
  match int84 (COUNT (filter (fun t => N.eqb (user_id t) p_user_id
                                       && search_filter similarity v_search_query t
                                       && category_filter p_category_id t)
                             (todos db))) with
  | Error e => Error e
  | Ok v_total_count =>
      Ok (mk_pagination_info
            v_total_count
            (CEIL (inject_Z v_total_count / inject_Z v_items_per_page)%Q)
            v_items_per_page)
  end.










(** The rows [search_todos] would return without LIMIT and OFFSET. *)
Definition search_sequence (similarity : string -> string -> Q) (db : database)
    (p_user_id : uuid) (p_search_query : option string)
    (p_category_id : option uuid) : list (listed_todo * Q) :=
  let v_search_query := normalize p_search_query in
  map (fun j => (project j, search_rank similarity v_search_query (fst j)))
    (ORDER_BY (rank_created_desc (search_rank similarity v_search_query))
       (filter (fun j => N.eqb (user_id (fst j)) p_user_id
                         && search_filter similarity v_search_query (fst j)
                         && category_filter p_category_id (fst j))
               (LEFT_JOIN_categories db))).

(** ** The todo list of the client (TodoListWithSearch.tsx) *)

Definition ITEMS_PER_PAGE : Z := 20.

(** [s || null]: the empty string is falsy. *)
Definition or_null (s : string) : option string :=
  if is_empty s then None else Some s.

Inductive page_mode : Type := infinite | pagination.

(** A listed todo as the component keeps it: [rank] is present on the
    rows of [search_todos] only. *)
Definition TodoWithSearch : Type := (listed_todo * option Q)%type.

(** The state [fetchTodos] reads and sets. *)
Record list_state : Type := mk_list_state {
  st_todos : list TodoWithSearch;
  st_hasMore : bool;
  st_cursor : option timestamptz;
  st_totalCount : Z
}.

(** [fetchTodos(reset, search, categoryId, page)] for a signed-in user,
    with the defaults of its optional arguments resolved: [searchTerm],
    [category] ([None] for the empty selection) and [targetPage].  Both
    calls of the pagination branch see the same database.  An RPC error
    leaves the state it would have set untouched. *)
Definition fetchTodos (similarity : string -> string -> Q) (now : timestamptz)
    (db : database) (user_id : uuid) (pageMode : page_mode) (reset : bool)
    (searchTerm : string) (category : option uuid) (targetPage : Z)
    (st : list_state) : list_state :=
  match pageMode with
  | infinite =>
      match get_todos_cursor similarity now db user_id
              (if reset then None else st_cursor st)
              ITEMS_PER_PAGE (or_null searchTerm) category with
      | Error _ => st
      | Ok [] =>
          mk_list_state (if reset then [] else st_todos st) false
                        (st_cursor st) (st_totalCount st)
      | Ok ((first :: _) as todosData) =>
          let hasMoreData := snd first in
          let todosWithoutMeta :=
            map (fun item => (fst item, @None Q)) todosData in
          mk_list_state
            (if reset then todosWithoutMeta
             else st_todos st ++ todosWithoutMeta)%list
            hasMoreData
            (Some (l_created_at (fst (last todosData first))))
            (st_totalCount st)
      end
  | pagination =>
      let offset := (targetPage - 1) * ITEMS_PER_PAGE in
      let todos' :=
        match search_todos similarity db user_id (or_null searchTerm) category
                ITEMS_PER_PAGE offset with
        | Ok data => map (fun row => (fst row, Some (snd row))) data
        | Error _ => st_todos st
        end in
      match get_pagination_info similarity db user_id (or_null searchTerm)
              category with
      | Ok paginationInfo =>
          mk_list_state todos' (targetPage <? total_pages paginationInfo)
                        (st_cursor st) (total_count paginationInfo)
      | Error _ =>
          mk_list_state todos' (st_hasMore st) (st_cursor st) (st_totalCount st)
      end
  end.

(** Infinite scrolling: a first fetch with [reset], then one more fetch
    per entry of [later], each at its own transaction time. *)
Definition scroll (similarity : string -> string -> Q) (db : database)
    (user_id : uuid) (searchTerm : string) (category : option uuid)
    (first_now : timestamptz) (later : list timestamptz) (st : list_state)
  : list_state :=
  fold_left
    (fun st' now =>
       fetchTodos similarity now db user_id infinite false searchTerm category 1 st')
    later
    (fetchTodos similarity first_now db user_id infinite true searchTerm category 1 st).

(** A row of the cursor listing as the component keeps it. *)
Definition without_meta (j : todo * option category) : TodoWithSearch :=
  (project j, None).

(** After [k] fetches: the list holds the first [20 k] rows of
    [matching], and the next fetch, whenever it runs, selects the rows
    after them. *)
Definition scrolled (similarity : string -> string -> Q) (db : database)
    (user_id : uuid) (searchTerm : string) (categoryId : option uuid)
    (matching : list (todo * option category)) (k : nat) (st : list_state) : Prop :=
  st_todos st = map without_meta (firstn (20 * k) matching)
  /\ forall now,
       (forall t, In t (todos db) -> created_at t < now + INTERVAL_1_day) ->
       cursor_sequence similarity db user_id (effective_cursor now (st_cursor st))
                       (or_null searchTerm) categoryId
       = skipn (20 * k) matching.

(** The text consists of spaces only (or is empty). *)
Definition only_spaces (s : string) : bool :=
  forallb (fun c => Ascii.eqb c " ") (list_ascii_of_string s).

(** The query is NULL or blank. *)
Definition blank_query (p_search_query : option string) : bool :=
  match p_search_query with
  | None => true
  | Some s => only_spaces s
  end.

(** ** Completion rate of a period (advanced_stats.sql) *)

(** [NULLIF(a, b)]. *)
Definition NULLIF (a b : Z) : option Z := if a =? b then None else Some a.

(** [ROUND(x, 2)] on NUMERIC: to the nearest multiple of 0.01, ties
    away from zero. *)
Definition ROUND_2 (x : Q) : Q :=
  if Qle_bool 0 x then Qmake (Qfloor (x * 100 + (1 # 2))%Q) 100
  else Qopp (Qmake (Qfloor (- x * 100 + (1 # 2))%Q) 100).

(** The single row of [get_completion_rate_for_period]. *)
Record completion_row : Type := mk_completion_row {
  total_todos : Z;
  completed_todos : Z;
  completion_rate : option Q
}.

(** [get_completion_rate_for_period(p_user_id, p_start_date,
    p_end_date)], the session time zone being UTC.  The quotient of the
    two counts is a NUMERIC computed to at least 16 significant digits;
    for counts that fit an INTEGER its error (times 100, below 10^-14)
    is smaller than the distance of an inexact 100 c / t from the next
    rounding tie (at least 1 / (200 t)), and a quotient on a tie is
    exact, so the rounded rate is that of the exact quotient. *)
Definition get_completion_rate_for_period (db : database) (p_user_id : uuid)
    (p_start_date p_end_date : timestamptz) : result completion_row :=
  let selected :=
    filter (fun t => N.eqb (user_id t) p_user_id
                     && ((p_start_date <=? created_at t)
                         && (created_at t <=? p_end_date)))
           (todos db) in
  match int84 (COUNT selected) with
  | Error e => Error e
  | Ok total =>
      match int84 (COUNT (filter is_complete selected)) with
      | Error e => Error e
      | Ok completed =>
          Ok (mk_completion_row total completed
                (match NULLIF (COUNT selected) 0 with
                 | None => None
                 | Some n =>
                     Some (ROUND_2 (inject_Z (COUNT (filter is_complete selected))
                                    / inject_Z n * 100))
                 end))
      end
  end.

(** ** The transactions API of the client (types/database.ts) *)

Definition MAX_RETRIES : nat := 3.
Definition RETRY_DELAY : Z := 1000.

(** An error value as the client reads it: the [name] of its class, a
    [code] and a [message], each of which may be missing. *)
Record js_error : Type := mk_js_error {
  name : option string;
  code : option string;
  message : option string
}.

(** [new TransactionError(message, code)]. *)
Definition TransactionError (message code : string) : js_error :=
  mk_js_error (Some "TransactionError") (Some code) (Some message).

(** [s.includes(searchString)]. *)
Fixpoint includes (s searchString : string) : bool :=
  String.prefix searchString s
  || match s with
     | EmptyString => false
     | String _ s' => includes s' searchString
     end.

(** [err.message?.includes(searchString)] as a condition. *)
Definition message_includes (err : js_error) (searchString : string) : bool :=
  match message err with
  | Some m => includes m searchString
  | None => false
  end.

Definition isRetryableError (error : js_error) : bool :=
  if match code error with
     | Some c => String.eqb c "NETWORK_ERROR"
     | None => false
     end then true
  else if message_includes error "fetch" then true
  else if message_includes error "timeout" then true
  else false.

(** [RETRY_DELAY * Math.pow(2, MAX_RETRIES - retries)], in milliseconds;
    powers of two are exact in a JS number. *)
Definition retry_delay (retries : nat) : Q :=
  (inject_Z RETRY_DELAY * Qpower 2 (Z.of_nat MAX_RETRIES - Z.of_nat retries))%Q.

(** [retryWithBackoff(operation, retries)] over a world [W] the
    operation acts on.  An operation returns a value ([inl]) or throws
    ([inr]); the third component lists the delays slept through, in
    order. *)
Fixpoint retryWithBackoff {W T : Type} (operation : W -> (T + js_error) * W)
    (retries : nat) (w : W) : (T + js_error) * W * list Q :=
  match operation w with
  | (inl value, w') => (inl value, w', [])
  | (inr error, w') =>
      match retries with
      | S retries' =>
          if isRetryableError error then
            let delay := retry_delay retries in
            let '(outcome, w'', slept) := retryWithBackoff operation retries' w' in
            (outcome, w'', delay :: slept)
          else (inr error, w', [])
      | O => (inr error, w', [])
      end
  end.

(** What the client talks to: the signed-in user, if any, the
    database, and the number of requests served so far. *)
Record client_world : Type := mk_client_world {
  auth_user : option uuid;
  server : database;
  requests : nat
}.

(** [supabase.rpc(fn, args).single()] over a connection that delivers
    every request: the function runs in a transaction of its own, at
    the time [NOW k] for the k-th request; an error it raises undoes
    the transaction and comes back as [error.message]. *)
Definition rpc {A : Type} (NOW : nat -> timestamptz) (fn : timestamptz -> plpgsql A)
    (w : client_world) : (A + string) * client_world :=
  match fn (NOW (requests w)) (server w) with
  | Return data db' =>
      (inl data, mk_client_world (auth_user w) db' (S (requests w)))
  | Raised e =>
      (inr (SQLERRM e), mk_client_world (auth_user w) (server w) (S (requests w)))
  end.

(** [a || b] on strings: NULL and the empty string are falsy. *)
Definition or_else (a : option string) (b : string) : string :=
  match a with
  | Some s => if is_empty s then b else s
  | None => b
  end.

(** [{ success, updatedCount }] (or [deletedCount]). *)
Record count_result : Type := mk_count_result {
  cr_success : bool;
  cr_count : Z
}.

(** [{ success, newVersion }]. *)
Record version_result : Type := mk_version_result {
  vr_success : bool;
  vr_newVersion : option Z
}.

(** The operation the three bulk functions hand to [retryWithBackoff]. *)
Definition bulk_operation (NOW : nat -> timestamptz)
    (fn : uuid -> timestamptz -> plpgsql bulk_row) (failed : string)
    (w : client_world) : (count_result + js_error) * client_world :=
  match auth_user w with
  | None => (inr (TransactionError "Not authenticated" "PERMISSION_DENIED"), w)
  | Some user_id =>
      match rpc NOW (fn user_id) w with
      | (inr error_message', w') =>
          (inr (TransactionError (or_else (Some error_message') failed) "UNKNOWN"), w')
      | (inl result, w') =>
          if negb (success result) then
            (inr (TransactionError (or_else (error_message result) "Transaction failed")
                                   "UNKNOWN"), w')
          else (inl (mk_count_result true (updated_count result)), w')
      end
  end.

Definition bulkUpdateTodos (NOW : nat -> timestamptz) (todoIds : list uuid)
    (isComplete : bool) (w : client_world)
  : (count_result + js_error) * client_world * list Q :=
  retryWithBackoff
    (bulk_operation NOW
       (fun user_id now => bulk_update_todos now user_id todoIds isComplete)
       "Failed to update todos")
    MAX_RETRIES w.

Definition bulkChangeCategory (NOW : nat -> timestamptz) (todoIds : list uuid)
    (categoryId : option uuid) (w : client_world)
  : (count_result + js_error) * client_world * list Q :=
  retryWithBackoff
    (bulk_operation NOW
       (fun user_id now => bulk_change_category now user_id todoIds categoryId)
       "Failed to change categories")
    MAX_RETRIES w.

Definition bulkDeleteTodos (NOW : nat -> timestamptz) (todoIds : list uuid)
    (w : client_world)
  : (count_result + js_error) * client_world * list Q :=
  retryWithBackoff
    (bulk_operation NOW
       (fun user_id _ => bulk_delete_todos user_id todoIds)
       "Failed to delete todos")
    MAX_RETRIES w.

Definition updateTodoWithVersion (NOW : nat -> timestamptz) (todoId : uuid)
    (title' : string) (isComplete : bool) (categoryId : option uuid)
    (expectedVersion : Z) (w : client_world)
  : (version_result + js_error) * client_world :=
  match auth_user w with
  | None => (inr (TransactionError "Not authenticated" "PERMISSION_DENIED"), w)
  | Some user_id =>
      match rpc NOW (fun now => update_todo_with_version now user_id todoId title'
                                  isComplete categoryId expectedVersion) w with
      | (inr error_message', w') =>
          (inr (TransactionError (or_else (Some error_message') "Failed to update todo")
                                 "UNKNOWN"), w')
      | (inl result, w') =>
          if negb (v_success result) then
            if match v_error_message result with
               | Some m => includes m "Version conflict"
               | None => false
               end
            then (inr (TransactionError
                         "This item was modified by another user. Please refresh and try again."
                         "VERSION_CONFLICT"), w')
            else (inr (TransactionError
                         (or_else (v_error_message result) "Update failed")
                         "UNKNOWN"), w')
          else (inl (mk_version_result true (new_version result)), w')
      end
  end.

(** The world before the [i]-th attempt of an operation, counting from 0. *)
Fixpoint world_before {W T : Type} (operation : W -> (T + js_error) * W)
    (w : W) (i : nat) : W :=
  match i with
  | O => w
  | S i' => snd (operation (world_before operation w i'))
  end.

(** A character occurs in a text. *)
Definition has_char (c : ascii) (s : string) : bool :=
  existsb (Ascii.eqb c) (list_ascii_of_string s).

(** A message that [isRetryableError] does not take for a network
    failure, and that [||] does not replace. *)
Definition not_retryable_message (m : string) : Prop :=
  m <> "" /\ includes m "fetch" = false /\ includes m "timeout" = false.

(** The outcome of a bulk function of the API that ran its stored
    procedure [fn] exactly once (or not at all, when nobody is signed
    in) and did not sleep: the count on success; on rejection the
    database as it was and the procedure's message, which is not one
    that is retried, thrown as UNKNOWN. *)
Definition served_once (NOW : nat -> timestamptz)
    (fn : uuid -> timestamptz -> plpgsql bulk_row) (w : client_world)
    (outcome : (count_result + js_error) * client_world * list Q) : Prop :=
  match auth_user w with
  | None =>
      outcome = (inr (TransactionError "Not authenticated" "PERMISSION_DENIED"), w, [])
  | Some u =>
      exists r db',
        fn u (NOW (requests w)) (server w) = Return r db'
        /\ if success r
           then outcome = (inl (mk_count_result true (updated_count r)),
                           mk_client_world (Some u) db' (S (requests w)), [])
           else db' = server w
                /\ exists m,
                     error_message r = Some m
                     /\ not_retryable_message m
                     /\ outcome = (inr (TransactionError m "UNKNOWN"),
                                   mk_client_world (Some u) (server w)
                                                   (S (requests w)), [])
  end.

(** The error [updateTodoWithVersion] throws for a version conflict. *)
Definition VersionConflictError : js_error :=
  TransactionError
    "This item was modified by another user. Please refresh and try again."
    "VERSION_CONFLICT".

(** ** Creating a category with its todos (types/database.ts) *)

(** The world after one more request, with the database it left. *)
Definition served (w : client_world) (db' : database) : client_world :=
  mk_client_world (auth_user w) db' (S (requests w)).

(** [INSERT INTO categories ... RETURNING *] of one row: refused when
    the row repeats the primary key or the UNIQUE pair (user_id, name). *)
Definition INSERT_INTO_categories (row : category) (db : database) : option database :=
  if category_conflict row (categories db) then None
  else Some (with_categories db (categories db ++ [row])).

(** The ids are pairwise distinct. *)
Fixpoint distinct_ids (ids : list uuid) : bool :=
  match ids with
  | [] => true
  | x :: rest => negb (existsb (N.eqb x) rest) && distinct_ids rest
  end.

(** [INSERT INTO todos ... RETURNING *] of several rows, one statement:
    refused as a whole when a row repeats a primary key, of the table
    or of another new row, or references a missing category. *)
Definition INSERT_INTO_todos (rows : list todo) (db : database) : option database :=
  if distinct_ids (map id rows)
     && forallb (fun r => negb (existsb (fun t => N.eqb (id t) (id r)) (todos db))) rows
     && forallb (fun r => category_ref_ok db (category_id r)) rows
  then Some (with_todos db (todos db ++ rows))
  else None.

(** The row a client INSERT of [title], [user_id], [category_id] makes:
    the other columns take their defaults. *)
Definition inserted_todo (now : timestamptz) (id' user : uuid) (title' : string)
    (categoryId : option uuid) : todo :=
  mk_todo id' user title' false categoryId (TIMEZONE_utc now) (TIMEZONE_utc now) 1.

(** [supabase.from('categories').delete().eq('id', categoryId)] with
    its result ignored. *)
Definition delete_category_ignoring (NOW : nat -> timestamptz) (categoryId : uuid)
    (w : client_world) : client_world :=
  match auth_user w with
  | None => served w (server w)
  | Some u =>
      match deleteCategory (NOW (requests w)) u categoryId (server w) with
      | Return _ db' => served w db'
      | Raised _ => served w (server w)
      end
  end.

(** [{ success, categoryId, todoIds }]. *)
Record created_result : Type := mk_created_result {
  cw_success : bool;
  cw_categoryId : uuid;
  cw_todoIds : list uuid
}.

(** The todos [createCategoryWithTodos] inserts; [gen_random_uuid k] is
    the id drawn for the k-th of them. *)
Definition todosToInsert (now : timestamptz) (gen_random_uuid : nat -> uuid)
    (user : uuid) (categoryId : uuid) (todoTitles : list string) : list todo :=
  map (fun kt => inserted_todo now (gen_random_uuid (fst kt)) user (snd kt)
                               (Some categoryId))
      (combine (seq 0 (List.length todoTitles)) todoTitles).

(** The operation [createCategoryWithTodos] hands to
    [retryWithBackoff].  [category_uuid k] and [todo_uuid k] are the ids
    drawn by the request number [k]. *)
Definition createCategoryWithTodos_operation (NOW : nat -> timestamptz)
    (category_uuid : nat -> uuid) (todo_uuid : nat -> nat -> uuid)
    (categoryName categoryColor : string) (todoTitles : list string)
    (w : client_world) : (created_result + js_error) * client_world :=
  match auth_user w with
  | None => (inr (TransactionError "Not authenticated" "PERMISSION_DENIED"), w)
  | Some user_id =>
      let failed := TransactionError "Failed to create category with todos" "UNKNOWN" in
      let now := NOW (requests w) in
      let categoryData :=
        mk_category (category_uuid (requests w)) user_id categoryName categoryColor
                    (TIMEZONE_utc now) (TIMEZONE_utc now) in
      match INSERT_INTO_categories categoryData (server w) with
      | None => (inr failed, served w (server w))
      | Some db1 =>
          let w1 := served w db1 in
          let categoryId := c_id categoryData in
          let rows := todosToInsert (NOW (requests w1)) (todo_uuid (requests w1))
                                    user_id categoryId todoTitles in
          match INSERT_INTO_todos rows (server w1) with
          | None =>
              let w2 := served w1 (server w1) in
              let w3 := delete_category_ignoring NOW categoryId w2 in
              let w4 := delete_category_ignoring NOW categoryId w3 in
              (inr failed, w4)
          | Some db2 =>
              (inl (mk_created_result true categoryId (map id rows)), served w1 db2)
          end
      end
  end.

Definition createCategoryWithTodos (NOW : nat -> timestamptz)
    (category_uuid : nat -> uuid) (todo_uuid : nat -> nat -> uuid)
    (categoryName categoryColor : string) (todoTitles : list string)
    (w : client_world)
  : (created_result + js_error) * client_world * list Q :=
  retryWithBackoff
    (createCategoryWithTodos_operation NOW category_uuid todo_uuid
       categoryName categoryColor todoTitles)
    MAX_RETRIES w.

(** The error [createCategoryWithTodos] throws for every failure after
    signing in. *)
Definition CreateFailedError : js_error :=
  TransactionError "Failed to create category with todos" "UNKNOWN".

(** ** The bulk actions of the todo list (TodoListWithTransactions.tsx) *)

Module TodoListWithTransactions.

(** A todo as the component keeps it: the row and its joined category. *)
Definition TodoWithVersion : Type := (todo * option category)%type.

(** A JS [Set] of ids: its values in insertion order, each once. *)
Definition Set_has (s : list uuid) (x : uuid) : bool := existsb (N.eqb x) s.

Definition Set_add (s : list uuid) (x : uuid) : list uuid :=
  if Set_has s x then s else (s ++ [x])%list.

Definition Set_delete (s : list uuid) (x : uuid) : list uuid :=
  filter (fun y => negb (N.eqb y x)) s.

(** [new Set(values)]. *)
Definition new_Set (values : list uuid) : list uuid :=
  fold_left Set_add values [].

(** The choice of the category filter: ['all'], ['uncategorized'] or a
    category id. *)
Inductive filter_choice : Type :=
| filter_all
| filter_uncategorized
| filter_category (c : uuid).

(** The state the bulk actions read and set. *)
Record bulk_state : Type := mk_bulk_state {
  ui_todos : list TodoWithVersion;
  ui_categories : list category;
  selectedTodos : list uuid;
  filterCategoryId : filter_choice;
  bulkLoading : bool;
  ui_error : option string;
  successMessage : option string
}.

(** [String(n)] for an integer. *)
Definition String_of_number (n : Z) : string := NilZero.string_of_int (Z.to_int n).

(** [err instanceof TransactionError]. *)
Definition instanceof_TransactionError (err : js_error) : bool :=
  match name err with
  | Some n => String.eqb n "TransactionError"
  | None => false
  end.

Definition filteredTodos (st : bulk_state) : list TodoWithVersion :=
  match filterCategoryId st with
  | filter_all => ui_todos st
  | filter_uncategorized =>
      filter (fun todo => match category_id (fst todo) with
                          | None => true
                          | Some _ => false
                          end) (ui_todos st)
  | filter_category c =>
      filter (fun todo => option_uuid_eqb (category_id (fst todo)) (Some c))
             (ui_todos st)
  end.

Definition with_selectedTodos (st : bulk_state) (s : list uuid) : bulk_state :=
  mk_bulk_state (ui_todos st) (ui_categories st) s (filterCategoryId st)
                (bulkLoading st) (ui_error st) (successMessage st).

Definition handleSelectAll (st : bulk_state) : bulk_state :=
  if Nat.eqb (List.length (selectedTodos st)) (List.length (filteredTodos st))
  then with_selectedTodos st []
  else with_selectedTodos st (new_Set (map (fun t => id (fst t)) (filteredTodos st))).

Definition handleSelectTodo (id' : uuid) (st : bulk_state) : bulk_state :=
  let newSelected := selectedTodos st in
  with_selectedTodos st
    (if Set_has newSelected id' then Set_delete newSelected id'
     else Set_add newSelected id').

(** [fetchTodos()]: the rows the SELECT policies let the signed-in user
    see, with the category each one references, newest first. *)
Definition fetchTodos (w : client_world) : list TodoWithVersion * client_world :=
  (match auth_user w with
   | None => []
   | Some u =>
       ORDER_BY created_desc
         (map (fun t =>
                 (t, match category_id t with
                     | None => None
                     | Some c =>
                         find (fun k => N.eqb (c_id k) c && N.eqb (c_user_id k) u)
                              (categories (server w))
                     end))
              (filter (fun t => N.eqb (user_id t) u) (todos (server w))))
   end,
   mk_client_world (auth_user w) (server w) (S (requests w))).

(** The state after a failed bulk action: [setError], then
    [setBulkLoading(false)]. *)
Definition failed (st : bulk_state) (e : option string) : bulk_state :=
  mk_bulk_state (ui_todos st) (ui_categories st) (selectedTodos st)
                (filterCategoryId st) false e (successMessage st).

(** The state after a bulk action that succeeded. *)
Definition succeeded (st : bulk_state) (todos' : list TodoWithVersion) (msg : string)
  : bulk_state :=
  mk_bulk_state todos' (ui_categories st) [] (filterCategoryId st) false None (Some msg).

Definition handleBulkComplete (NOW : nat -> timestamptz) (isComplete : bool)
    (st : bulk_state) (w : client_world) : bulk_state * client_world :=
  match selectedTodos st with
  | [] => (st, w)
  | _ :: _ =>
      match bulkUpdateTodos NOW (selectedTodos st) isComplete w with
      | (inl result, w', _) =>
          if cr_success result then
            (succeeded st
               (map (fun todo =>
                       if Set_has (selectedTodos st) (id (fst todo))
                       then (SET_is_complete isComplete (fst todo), snd todo)
                       else todo)
                    (ui_todos st))
               (String_of_number (cr_count result) ++ "件のTodoを"
                ++ (if isComplete then "完了" else "未完了") ++ "にしました"),
             w')
          else (failed st None, w')
      | (inr err, w', _) =>
          if instanceof_TransactionError err then
            if match code err with
               | Some c => String.eqb c "VERSION_CONFLICT"
               | None => false
               end
            then
              let (data, w'') := fetchTodos w' in
              (mk_bulk_state data (ui_categories st) (selectedTodos st)
                 (filterCategoryId st) false
                 (Some "他のユーザーによって変更されています。ページを更新してください。")
                 (successMessage st),
               w'')
            else (failed st (message err), w')
          else (failed st (Some "予期しないエラーが発生しました"), w')
      end
  end.

Definition handleBulkChangeCategory (NOW : nat -> timestamptz)
    (categoryId : option uuid) (st : bulk_state) (w : client_world)
  : bulk_state * client_world :=
  match selectedTodos st with
  | [] => (st, w)
  | _ :: _ =>
      match bulkChangeCategory NOW (selectedTodos st) categoryId w with
      | (inl result, w', _) =>
          if cr_success result then
            let category' :=
              find (fun c => option_uuid_eqb (Some (c_id c)) categoryId)
                   (ui_categories st) in
            (succeeded st
               (map (fun todo =>
                       if Set_has (selectedTodos st) (id (fst todo))
                       then (SET_category_id categoryId (fst todo), category')
                       else todo)
                    (ui_todos st))
               (String_of_number (cr_count result) ++ "件のカテゴリーを変更しました"),
             w')
          else (failed st None, w')
      | (inr err, w', _) =>
          if instanceof_TransactionError err then (failed st (message err), w')
          else (failed st (Some "カテゴリー変更に失敗しました"), w')
      end
  end.

(** [confirmed] is the answer to the [confirm] dialog. *)
Definition handleBulkDelete (NOW : nat -> timestamptz) (confirmed : bool)
    (st : bulk_state) (w : client_world) : bulk_state * client_world :=
  match selectedTodos st with
  | [] => (st, w)
  | _ :: _ =>
      if negb confirmed then (st, w)
      else
        match bulkDeleteTodos NOW (selectedTodos st) w with
        | (inl result, w', _) =>
            if cr_success result then
              (succeeded st
                 (filter (fun todo => negb (Set_has (selectedTodos st) (id (fst todo))))
                         (ui_todos st))
                 (String_of_number (cr_count result) ++ "件のTodoを削除しました"),
               w')
            else (failed st None, w')
        | (inr err, w', _) =>
            if instanceof_TransactionError err then (failed st (message err), w')
            else (failed st (Some "削除に失敗しました"), w')
        end
  end.

(** The list shows the table's row of todo [j], [lag] versions behind. *)
Definition shows (db : database) (lag : Z) (j : TodoWithVersion) : Prop :=
  exists r,
    In r (todos db)
    /\ id r = id (fst j) /\ user_id r = user_id (fst j)
    /\ title r = title (fst j) /\ is_complete r = is_complete (fst j)
    /\ category_id r = category_id (fst j) /\ created_at r = created_at (fst j)
    /\ version r = version (fst j) + lag.

(** A bulk action that failed: the table, the list and the selection
    are as they were, and an error message is shown. *)
Definition action_failed (st : bulk_state) (w : client_world)
    (after : bulk_state * client_world) : Prop :=
  server (snd after) = server w
  /\ ui_todos (fst after) = ui_todos st
  /\ selectedTodos (fst after) = selectedTodos st
  /\ exists m, ui_error (fst after) = Some m /\ not_retryable_message m.

End TodoListWithTransactions.

(** ** Outcomes and example databases used in the statements *)

(** A bulk operation was rejected: it returned [success = false] with a
    count of 0 and an error message, and the database is as it was. *)
Definition rejected (o : outcome bulk_row) (db : database) : Prop :=
  exists msg, o = Return (mk_bulk_row false 0 (Some msg)) db.

(** A database with one todo of user 10 at version [v] and no category. *)
Definition db_one_todo (v : Z) : database :=
  mk_database [] [] [mk_todo 1%N 10%N "Buy milk" false None 100 100 v].

(** Todos 1 and 3 of user 10 and todo 2 of user 20. *)
Definition db_three_todos : database :=
  mk_database [] []
    [mk_todo 1%N 10%N "A" false None 100 100 1;
     mk_todo 2%N 20%N "B" false None 101 101 1;
     mk_todo 3%N 10%N "C" false None 102 102 1].

(** The single todo of [db_one_todo v]. *)
Definition the_todo (v : Z) : todo :=
  mk_todo 1%N 10%N "Buy milk" false None 100 100 v.

(** A SET clause that tries to write [version] and [updated_at] itself. *)
Definition SET_version_and_time (t : todo) : todo :=
  SET_version 0 (SET_updated_at 0 t).

(** A WHERE clause that selects every row. *)
Definition every_row (t : todo) : bool := true.

(** The empty database, and a source of ids 100, 101, ... *)
Definition db_empty : database := mk_database [] [] [].

Definition uuid_from (base : N) (k : nat) : uuid := (base + N.of_nat k)%N.


(** The spec's ranking example. *)
Definition db_ranking : database :=
  mk_database [] []
    [mk_todo 1%N 10%N "I need to buy milk" false None 100 100 1;
     mk_todo 2%N 10%N "Buy milk today" false None 101 101 1;
     mk_todo 3%N 10%N "Buy milk" false None 102 102 1].

(** 25 todos of user 10, todo [k] created at [created k]. *)
Definition db_25_todos (created : nat -> Z) : database :=
  mk_database [] []
    (map (fun k => mk_todo (N.of_nat k) 10%N "task" false None
                           (created k) (created k) 1)
         (seq 1 25)).




(** Two categories (7 of user 10, 8 of user 20) and three todos: todo 1
    of user 10 filed under category 7 at version [v], todo 2 of user 10
    without category, todo 3 of user 20 filed under category 8. *)
Definition db_categorized (v : Z) : database :=
  mk_database []
    [mk_category 7%N 10%N "Work" "#3B82F6" 50 50;
     mk_category 8%N 20%N "Home" "#10B981" 51 51]
    [mk_todo 1%N 10%N "Write report" false (Some 7%N) 100 100 v;
     mk_todo 2%N 10%N "Buy milk" false None 101 101 1;
     mk_todo 3%N 20%N "Clean" false (Some 8%N) 102 102 1].

(** The state of the list component before its first fetch. *)
Definition initial_list_state : list_state := mk_list_state [] true None 0.

(** Todo [k] of [db_25_todos] is created at instant [1000 + k]. *)
Definition created_1000 (k : nat) : Z := 1000 + Z.of_nat k.

(** An operation on a counter of attempts that fails twice with a
    network error and then returns the number of the attempt. *)
Definition fails_twice (attempt : nat) : (nat + js_error) * nat :=
  if (attempt <? 2)%nat
  then (inr (mk_js_error (Some "TypeError") None (Some "Failed to fetch")), S attempt)
  else (inl attempt, S attempt).

(** The list of user 10 over [db_categorized 1], with todo 1 selected,
    and the client signed in as user 10. *)
Definition list_of_user_10 : TodoListWithTransactions.bulk_state :=
  TodoListWithTransactions.mk_bulk_state
    [(mk_todo 1%N 10%N "Write report" false (Some 7%N) 100 100 1,
      Some (mk_category 7%N 10%N "Work" "#3B82F6" 50 50));
     (mk_todo 2%N 10%N "Buy milk" false None 101 101 1, None)]
    [mk_category 7%N 10%N "Work" "#3B82F6" 50 50]
    [1%N] TodoListWithTransactions.filter_all false None None.

Definition client_of_user_10 : client_world :=
  mk_client_world (Some 10%N) (db_categorized 1) 0.

(** [db_25_todos created_1000] with a 26th todo added at instant 5000. *)
Definition db_26_todos : database :=
  with_todos (db_25_todos created_1000)
    (todos (db_25_todos created_1000)
     ++ [mk_todo 26%N 10%N "new" false None 5000 5000 1])%list.

(** Three todos of user 10 created at 100, 101 and 102, two of them
    complete. *)
Definition db_two_of_three_done : database :=
  mk_database [] []
    [mk_todo 1%N 10%N "A" true None 100 100 1;
     mk_todo 2%N 10%N "B" true None 101 101 1;
     mk_todo 3%N 10%N "C" false None 102 102 1].

(** * Properties *)

(** ** The UPDATE statement and the versioning trigger *)

Lemma with_todos_same (db : database) : with_todos db (todos db) = db.
Proof. destruct db; reflexivity. Qed.

Lemma increment_version_eq now OLD NEW :
  increment_version now OLD NEW =
  if can_increment OLD
  then Ok (SET_updated_at (TIMEZONE_utc now) (SET_version (version OLD + 1) NEW))
  else Error numeric_value_out_of_range.
Proof.
  unfold increment_version, int4pl, can_increment.
  destruct ((INT_MIN <=? version OLD + 1) && (version OLD + 1 <=? INT_MAX));
    reflexivity.
Qed.

(** The row pass in closed form: it raises exactly when some selected row
    is at the largest INTEGER, and otherwise rewrites the selected rows
    in place. *)
Lemma update_rows_eq now cond assign rows :
  update_rows now cond assign rows =
  if forallb (fun r => implb (cond r) (can_increment r)) rows
  then Ok (map (fun r => if cond r then updated_row now assign r else r) rows,
           map (fun r => (r, updated_row now assign r)) (filter cond rows))
  else Error numeric_value_out_of_range.
Proof.
  induction rows as [|r rest IH]; simpl; [reflexivity|].
  rewrite IH, increment_version_eq. clear IH.
  destruct (cond r); simpl.
  - destruct (can_increment r); simpl; [|reflexivity].
    destruct (forallb _ rest); reflexivity.
  - destruct (forallb _ rest); reflexivity.
Qed.

Lemma map_id_if {A} (f : A -> bool) (l : list A) :
  (forall x, In x l -> f x = false) ->
  forall g, map (fun r => if f r then g r else r) l = l.
Proof.
  intros H g. induction l as [|x l IH]; simpl; [reflexivity|].
  rewrite (H x (or_introl eq_refl)), IH; [reflexivity|].
  intros y Hy. apply H. now right.
Qed.

Lemma filter_nil_iff {A} (f : A -> bool) (l : list A) :
  filter f l = [] <-> forall x, In x l -> f x = false.
Proof.
  induction l as [|x l IH]; simpl.
  - split; [intros _ y []|reflexivity].
  - destruct (f x) eqn:E.
    + split; [discriminate|]. intros H. specialize (H x (or_introl eq_refl)). congruence.
    + rewrite IH. split.
      * intros H y [<-|Hy]; auto.
      * intros H y Hy. apply H. now right.
Qed.

(** A SET clause that leaves [category_id] alone never trips the
    foreign key. *)
Lemma fk_unchanged_ok cats now assign rows :
  (forall r, category_id (assign r) = category_id r) ->
  forallb (fk_category_ok cats) (map (fun r => (r, updated_row now assign r)) rows) = true.
Proof.
  intros H. induction rows as [|r rows IH]; simpl; [reflexivity|].
  rewrite IH, andb_true_r. rewrite H.
  destruct (category_id r) as [c|]; simpl; [|reflexivity].
  now rewrite N.eqb_refl.
Qed.

(** UPDATE in closed form for a SET clause that keeps [category_id]. *)
Lemma UPDATE_todos_keep_category now cond assign db :
  (forall r, category_id (assign r) = category_id r) ->
  UPDATE_todos now cond assign db =
  if forallb (fun r => implb (cond r) (can_increment r)) (todos db)
  then Return (map (updated_row now assign) (filter cond (todos db)))
              (with_todos db (map (fun r => if cond r then updated_row now assign r else r)
                                  (todos db)))
  else Raised numeric_value_out_of_range.
Proof.
  intros H. unfold UPDATE_todos. rewrite update_rows_eq.
  destruct (forallb _ (todos db)); [|reflexivity].
  rewrite fk_unchanged_ok by assumption.
  now rewrite map_map.
Qed.

(** An UPDATE whose WHERE clause selects nothing returns no row and
    changes nothing. *)
Lemma UPDATE_todos_no_match now cond assign db :
  filter cond (todos db) = [] ->
  UPDATE_todos now cond assign db = Return [] db.
Proof.
  intros H. unfold UPDATE_todos. rewrite update_rows_eq, H.
  pose proof (proj1 (filter_nil_iff _ _) H) as Hf.
  replace (forallb _ (todos db)) with true.
  - simpl. rewrite map_id_if by assumption. now rewrite with_todos_same.
  - symmetry. apply forallb_forall. intros r Hr. now rewrite (Hf r Hr).
Qed.

(** What a successful UPDATE stores. *)
Lemma UPDATE_todos_Return now cond assign db rows db' :
  UPDATE_todos now cond assign db = Return rows db' ->
  rows = map (updated_row now assign) (filter cond (todos db)) /\
  db' = with_todos db (map (fun r => if cond r then updated_row now assign r else r)
                           (todos db)).
Proof.
  unfold UPDATE_todos. rewrite update_rows_eq.
  destruct (forallb _ (todos db)); [|discriminate].
  destruct (forallb (fk_category_ok _) _); [|discriminate].
  intros H. injection H as <- <-. now rewrite map_map.
Qed.

Lemma Forall2_map_self {A} (R : A -> A -> Prop) (f : A -> A) (l : list A) :
  (forall x, In x l -> R x (f x)) -> Forall2 R l (map f l).
Proof.
  induction l as [|x l IH]; simpl; intros H; constructor.
  - apply H. now left.
  - apply IH. intros y Hy. apply H. now right.
Qed.

Lemma Forall2_compose {A} (R S T : A -> A -> Prop) (l1 l2 l3 : list A) :
  (forall x y z, R x y -> S y z -> T x z) ->
  Forall2 R l1 l2 -> Forall2 S l2 l3 -> Forall2 T l1 l3.
Proof.
  intros H H12. revert l3.
  induction H12 as [|x y l1 l2 Hxy _ IH]; intros l3 H23; inversion H23; subst;
    constructor; eauto.
Qed.

(** One UPDATE, row by row: a selected row ends at [version + 1] with
    [updated_at] refreshed, whatever the SET clause assigned; any other
    row is untouched. *)
Lemma UPDATE_todos_rowwise now cond assign db rows db' :
  UPDATE_todos now cond assign db = Return rows db' ->
  Forall2 (fun OLD NEW =>
             if cond OLD
             then NEW = updated_row now assign OLD
             else NEW = OLD)
          (todos db) (todos db').
Proof.
  intros H. apply UPDATE_todos_Return in H as [_ ->]. simpl.
  apply Forall2_map_self. intros r _. now destruct (cond r).
Qed.

Lemma run_updates_rowwise stmts : forall db db',
  run_updates stmts db = Return tt db' ->
  Forall2 (fun OLD NEW =>
             version NEW = version OLD + times_updated stmts OLD /\ id NEW = id OLD)
          (todos db) (todos db').
Proof.
  induction stmts as [|[[now cond] assign] rest IH]; intros db db' H.
  - injection H as <-. rewrite <- (map_id (todos db)) at 2.
    apply Forall2_map_self. intros x _. simpl. split; [lia|reflexivity].
  - simpl in H. unfold bind in H.
    destruct (UPDATE_todos now cond assign db) as [rows db1|e] eqn:E; [|discriminate].
    apply UPDATE_todos_rowwise in E. apply IH in H.
    eapply Forall2_compose; [|exact E|exact H].
    intros x y z Hxy [Hv Hi]. cbn [times_updated]. cbv beta in Hxy.
    destruct (cond x); subst y; [|now split].
    change (version (updated_row now assign x)) with (version x + 1) in Hv.
    change (id (updated_row now assign x)) with (id x) in Hi.
    split; [lia|assumption].
Qed.

Lemma times_updated_nonneg stmts : forall r, 0 <= times_updated stmts r.
Proof.
  induction stmts as [|[[now cond] assign] rest IH]; intros r; cbn [times_updated]; [lia|].
  destruct (cond r); [specialize (IH (updated_row now assign r))|specialize (IH r)]; lia.
Qed.

(** ** Optimistic lock *)

Lemma UPDATE_todos_eq now cond assign db :
  UPDATE_todos now cond assign db =
  if forallb (fun r => implb (cond r) (can_increment r)) (todos db)
  then if forallb (fk_category_ok (categories db))
                  (map (fun r => (r, updated_row now assign r)) (filter cond (todos db)))
       then Return (map (updated_row now assign) (filter cond (todos db)))
                   (with_todos db (map (fun r => if cond r then updated_row now assign r else r)
                                       (todos db)))
       else Raised foreign_key_violation
  else Raised numeric_value_out_of_range.
Proof.
  unfold UPDATE_todos. rewrite update_rows_eq.
  destruct (forallb _ (todos db)); [|reflexivity].
  destruct (forallb (fk_category_ok _) _); [|reflexivity].
  now rewrite map_map.
Qed.

Lemma update_todo_with_version_no_match :
  forall now p_user_id p_todo_id p_title p_is_complete p_category_id
         p_expected_version db,
    filter (owned_at_version p_user_id p_todo_id p_expected_version) (todos db) = [] ->
    update_todo_with_version now p_user_id p_todo_id p_title p_is_complete
                             p_category_id p_expected_version db
    = Return (mk_version_row false (Some 0)
                (Some (if existsb (owned_is p_user_id p_todo_id) (todos db)
                       then Version_conflict else Todo_not_found)))
             db.
Proof.
  intros now u tid ttl b c v db H.
  unfold update_todo_with_version, BEGIN_EXCEPTION, bind.
  fold (owned_at_version u tid v). fold (owned_is u tid).
  rewrite (UPDATE_todos_no_match now _ _ db H).
  unfold IF_THEN, EXISTS_todos, bind, RAISE, ret. simpl.
  destruct (existsb (owned_is u tid) (todos db)); reflexivity.
Qed.

(** C4. When the conditional UPDATE of [update_todo_with_version] selects
    no row, the function re-queries [todos] by id and owner: if no such
    row exists it fails with 'Todo not found or access denied', otherwise
    (the row exists at another version) with 'Version conflict: ...'.
    Nothing is changed in either case. *)
Theorem update_todo_with_version_zero_rows :
  forall now p_user_id p_todo_id p_title p_is_complete p_category_id
         p_expected_version db,
    filter (owned_at_version p_user_id p_todo_id p_expected_version) (todos db) = [] ->
    update_todo_with_version now p_user_id p_todo_id p_title p_is_complete
                             p_category_id p_expected_version db
    = Return (mk_version_row false (Some 0)
                (Some (if existsb (owned_is p_user_id p_todo_id) (todos db)
                       then Version_conflict else Todo_not_found)))
             db.
Proof. exact update_todo_with_version_no_match. Qed.

Lemma owned_at_version_true u tid v r :
  owned_at_version u tid v r = true <-> id r = tid /\ user_id r = u /\ version r = v.
Proof.
  unfold owned_at_version. rewrite !andb_true_iff, !N.eqb_eq, Z.eqb_eq. tauto.
Qed.

Lemma owned_is_true u tid r :
  owned_is u tid r = true <-> id r = tid /\ user_id r = u.
Proof. unfold owned_is. rewrite andb_true_iff, !N.eqb_eq. tauto. Qed.

Lemma fk_ok_of_category_ref_ok db now ttl b c rows :
  category_ref_ok db c = true ->
  forallb (fk_category_ok (categories db))
          (map (fun r => (r, updated_row now (SET_all ttl b c) r)) rows) = true.
Proof.
  intros H. induction rows as [|r rows IH]; simpl; [reflexivity|].
  rewrite IH, andb_true_r. destruct c as [c'|]; [|reflexivity].
  simpl in H. rewrite H. apply orb_true_r.
Qed.

Lemma update_todo_with_version_match now u t ttl b c db :
  In t (todos db) -> user_id t = u ->
  INT_MIN <= version t < INT_MAX ->
  category_ref_ok db c = true ->
  update_todo_with_version now u (id t) ttl b c (version t) db
  = Return (mk_version_row true (Some (version t + 1)) None)
           (with_todos db
              (map (fun r => if owned_at_version u (id t) (version t) r
                             then updated_row now (SET_all ttl b c) r else r)
                   (todos db))).
Proof.
  intros Hin Hu Hv Hc.
  unfold update_todo_with_version, BEGIN_EXCEPTION, bind.
  fold (owned_at_version u (id t) (version t)). fold (SET_all ttl b c).
  rewrite UPDATE_todos_eq.
  replace (forallb _ (todos db)) with true.
  2:{ symmetry. apply forallb_forall. intros r _.
      destruct (owned_at_version u (id t) (version t) r) eqn:E; [|reflexivity].
      apply owned_at_version_true in E as (_ & _ & E). simpl.
      unfold can_increment. rewrite E.
      apply andb_true_iff. split; apply Z.leb_le; unfold INT_MIN, INT_MAX in *; lia. }
  rewrite fk_ok_of_category_ref_ok by assumption.
  assert (Hf : In t (filter (owned_at_version u (id t) (version t)) (todos db))).
  { apply filter_In. split; [assumption|]. apply owned_at_version_true. auto. }
  destruct (filter _ (todos db)) as [|r0 l] eqn:F; [destruct Hf|].
  assert (Hr0 : version r0 = version t).
  { assert (In r0 (filter (owned_at_version u (id t) (version t)) (todos db)))
      by (rewrite F; now left).
    apply filter_In in H as [_ H]. now apply owned_at_version_true in H. }
  unfold IF_THEN, ret. cbn -[Z.add]. now rewrite Hr0.
Qed.

(** After the guarded UPDATE no row is left at the expected version. *)
Lemma stale_version_selects_nothing now u tid v assign rows :
  filter (owned_at_version u tid v)
         (map (fun r => if owned_at_version u tid v r
                        then updated_row now assign r else r) rows) = [].
Proof.
  apply filter_nil_iff. intros r' Hr'. apply in_map_iff in Hr' as (r & <- & _).
  destruct (owned_at_version u tid v r) eqn:E; [|assumption].
  apply owned_at_version_true in E as (_ & _ & E).
  unfold owned_at_version. replace (version (updated_row now assign r) =? v) with false.
  - apply andb_false_r.
  - symmetry. apply Z.eqb_neq. simpl. lia.
Qed.

(** C2 (amended). For a todo of user [u] at version [N], with [N] below
    the largest INTEGER and a category argument that is NULL or the id of
    an existing category, [update_todo_with_version] with expected
    version [N] succeeds, returns [N + 1] and stores the row at version
    [N + 1]; a repeated call with the stale expected version [N] fails
    with 'Version conflict' and changes nothing. *)
Theorem update_todo_with_version_succeeds_then_conflicts :
  forall now now' u t ttl b c ttl' b' c' db,
    In t (todos db) -> user_id t = u ->
    INT_MIN <= version t < INT_MAX ->
    category_ref_ok db c = true ->
    exists db',
      update_todo_with_version now u (id t) ttl b c (version t) db
      = Return (mk_version_row true (Some (version t + 1)) None) db'
      /\ In (updated_row now (SET_all ttl b c) t) (todos db')
      /\ version (updated_row now (SET_all ttl b c) t) = version t + 1
      /\ update_todo_with_version now' u (id t) ttl' b' c' (version t) db'
         = Return (mk_version_row false (Some 0) (Some Version_conflict)) db'.
Proof.
  intros now now' u t ttl b c ttl' b' c' db Hin Hu Hv Hc.
  eexists. split; [apply update_todo_with_version_match; assumption|].
  assert (Hin' : In (updated_row now (SET_all ttl b c) t)
                    (map (fun r => if owned_at_version u (id t) (version t) r
                                   then updated_row now (SET_all ttl b c) r else r)
                         (todos db))).
  { apply in_map_iff. exists t. split; [|assumption].
    replace (owned_at_version u (id t) (version t) t) with true; [reflexivity|].
    symmetry. apply owned_at_version_true. auto. }
  split; [exact Hin'|]. split; [reflexivity|].
  rewrite update_todo_with_version_no_match.
  - replace (existsb _ _) with true; [reflexivity|].
    symmetry. apply existsb_exists. eexists. split; [exact Hin'|].
    apply owned_is_true. auto.
  - apply stale_version_selects_nothing.
Qed.

(** C2 fails as stated: the call at the current version does not succeed
    when the category argument references no category (the foreign key
    raises), nor when the version is the largest INTEGER (the trigger's
    addition raises). *)
Lemma update_todo_with_version_can_fail_at_current_version :
  update_todo_with_version 200 10%N 1%N "Buy milk" true (Some 99%N) 1 (db_one_todo 1)
  = Return (mk_version_row false (Some 0) (Some (SQLERRM foreign_key_violation)))
           (db_one_todo 1)
  /\ update_todo_with_version 200 10%N 1%N "Buy milk" true None INT_MAX
                              (db_one_todo INT_MAX)
     = Return (mk_version_row false (Some 0) (Some "integer out of range"))
              (db_one_todo INT_MAX).
Proof. split; reflexivity. Qed.

(** ** Bulk operations *)

Lemma forallb_ext_in {A} (f g : A -> bool) (l : list A) :
  (forall x, In x l -> f x = g x) -> forallb f l = forallb g l.
Proof.
  induction l as [|x l IH]; simpl; intros H; [reflexivity|].
  rewrite (H x (or_introl eq_refl)), IH; [reflexivity|].
  intros y Hy. apply H. now right.
Qed.

Lemma forallb_map {A B} (f : B -> bool) (g : A -> B) (l : list A) :
  forallb f (map g l) = forallb (fun x => f (g x)) l.
Proof. induction l as [|x l IH]; simpl; [reflexivity|]. now rewrite IH. Qed.

Lemma forallb_andb {A} (f g : A -> bool) (l : list A) :
  forallb (fun x => f x && g x) l = forallb f l && forallb g l.
Proof.
  induction l as [|x l IH]; simpl; [reflexivity|]. rewrite IH.
  destruct (f x), (g x), (forallb f l); reflexivity.
Qed.

Lemma length_filter_orb {A} (f g : A -> bool) (l : list A) :
  (forall x, In x l -> f x = true -> g x = false) ->
  List.length (filter (fun x => f x || g x) l)
  = (List.length (filter f l) + List.length (filter g l))%nat.
Proof.
  induction l as [|x l IH]; simpl; intros H; [reflexivity|].
  assert (IH' := IH (fun y Hy => H y (or_intror Hy))).
  specialize (H x (or_introl eq_refl)).
  destruct (f x); simpl.
  - rewrite H by reflexivity. simpl. now rewrite IH'.
  - destruct (g x); simpl; rewrite IH'; lia.
Qed.

Lemma BEGIN_EXCEPTION_raised {A} (body : plpgsql A) handler db e :
  body db = Raised e -> BEGIN_EXCEPTION body handler db = handler e db.
Proof. unfold BEGIN_EXCEPTION. now intros ->. Qed.

Lemma owned_in_cons u v rest r :
  owned_in u (v :: rest) r = owned_is u v r || owned_in u rest r.
Proof.
  unfold owned_in, owned_is, eq_ANY. simpl.
  destruct (N.eqb (id r) v), (existsb (N.eqb (id r)) rest), (N.eqb (user_id r) u);
    reflexivity.
Qed.

Lemma owned_in_nil u r : owned_in u [] r = false.
Proof. reflexivity. Qed.

Lemma owned_in_true u ids r :
  owned_in u ids r = true <-> In (id r) ids /\ user_id r = u.
Proof.
  unfold owned_in, eq_ANY. rewrite andb_true_iff, N.eqb_eq, existsb_exists.
  split.
  - intros [(x & Hx & E) Hu]. apply N.eqb_eq in E. subst. auto.
  - intros [Hi Hu]. split; [|assumption]. exists (id r). split; [assumption|].
    apply N.eqb_refl.
Qed.

(** The updated row keeps the key columns, so the WHERE clauses of the
    bulk statements see it as they saw the old row. *)
Lemma owned_is_updated u v now assign r :
  owned_is u v (updated_row now assign r) = owned_is u v r.
Proof. reflexivity. Qed.

Lemma owned_in_updated u ids now assign r :
  owned_in u ids (updated_row now assign r) = owned_in u ids r.
Proof. reflexivity. Qed.

Lemma rows_affected_loop_ext u ids rows rows' :
  (forall v, List.length (filter (owned_is u v) rows')
             = List.length (filter (owned_is u v) rows)) ->
  rows_affected_loop u ids rows' = rows_affected_loop u ids rows.
Proof.
  intros H. induction ids as [|v rest IH]; simpl; [reflexivity|].
  now rewrite H, IH.
Qed.

Lemma length_filter_map_if {A} (p c : A -> bool) (g : A -> A) (l : list A) :
  (forall x, p (g x) = p x) ->
  List.length (filter p (map (fun r => if c r then g r else r) l))
  = List.length (filter p l).
Proof.
  intros H. induction l as [|x l IH]; simpl; [reflexivity|].
  replace (p (if c x then g x else x)) with (p x)
    by (destruct (c x); [now rewrite H|reflexivity]).
  destruct (p x); simpl; now rewrite IH.
Qed.

Lemma bulk_update_todos_body_eq now u b v acc db :
  bulk_update_todos_body now u b v acc db =
  if forallb (fun r => implb (owned_is u v r) (can_increment r)) (todos db)
  then Return (acc + Z.of_nat (List.length (filter (owned_is u v) (todos db))))
              (with_todos db
                 (map (fun r => if owned_is u v r
                                then updated_row now (SET_is_complete b) r else r)
                      (todos db)))
  else Raised numeric_value_out_of_range.
Proof.
  unfold bulk_update_todos_body, bind.
  rewrite UPDATE_todos_keep_category by reflexivity.
  destruct (forallb _ (todos db)); [|reflexivity].
  unfold ret, ROW_COUNT. now rewrite length_map.
Qed.

(** The loop either raises or returns the sum of the per-id row counts. *)
Lemma FOREACH_bulk_update_outcome now u b ids : forall acc db,
  (exists db', FOREACH ids (bulk_update_todos_body now u b) acc db
               = Return (acc + rows_affected_loop u ids (todos db)) db')
  \/ (exists e, FOREACH ids (bulk_update_todos_body now u b) acc db = Raised e).
Proof.
  induction ids as [|v rest IH]; intros acc db; simpl.
  - left. exists db. unfold ret. now rewrite Z.add_0_r.
  - unfold bind. rewrite bulk_update_todos_body_eq.
    destruct (forallb _ (todos db)); [|right; eauto].
    match goal with |- context [FOREACH rest _ ?a ?d] =>
      destruct (IH a d) as [[db' E]|[e E]]; rewrite E; clear E end;
      [left|right; eauto].
    exists db'. f_equal. simpl.
    rewrite (rows_affected_loop_ext u rest (todos db)); [lia|].
    intros w. apply length_filter_map_if. intros x. apply owned_is_updated.
Qed.

(** With pairwise distinct ids the loop is the set-based UPDATE. *)
Lemma FOREACH_bulk_update_NoDup now u b ids :
  NoDup ids ->
  forall acc db,
    FOREACH ids (bulk_update_todos_body now u b) acc db =
    if forallb (fun r => implb (owned_in u ids r) (can_increment r)) (todos db)
    then Return (acc + rows_affected u ids db)
                (with_todos db
                   (map (fun r => if owned_in u ids r
                                  then updated_row now (SET_is_complete b) r else r)
                        (todos db)))
    else Raised numeric_value_out_of_range.
Proof.
  induction 1 as [|v rest Hv _ IH]; intros acc db.
  - cbn [FOREACH]. unfold ret, rows_affected.
    replace (forallb _ (todos db)) with true
      by (symmetry; apply forallb_forall; reflexivity).
    rewrite (proj2 (filter_nil_iff (owned_in u []) (todos db)))
      by reflexivity.
    rewrite (map_id_if (owned_in u []) (todos db) (fun _ _ => eq_refl)).
    now rewrite with_todos_same, Z.add_0_r.
  - cbn [FOREACH]. unfold bind. rewrite bulk_update_todos_body_eq.
    assert (Hdisj : forall r, owned_is u v r = true -> owned_in u rest r = false).
    { intros r Hr. apply owned_is_true in Hr as [Hr _].
      destruct (owned_in u rest r) eqn:E; [|reflexivity].
      apply owned_in_true in E as [E _]. congruence. }
    rewrite (forallb_ext_in
               (fun r => implb (owned_in u (v :: rest) r) (can_increment r))
               (fun r => implb (owned_is u v r) (can_increment r)
                         && implb (owned_in u rest r) (can_increment r))).
    2:{ intros r _. rewrite owned_in_cons.
        destruct (owned_is u v r), (owned_in u rest r), (can_increment r); reflexivity. }
    rewrite forallb_andb.
    destruct (forallb (fun r => implb (owned_is u v r) (can_increment r)) (todos db));
      [|reflexivity].
    rewrite IH. cbn [todos with_todos andb].
    rewrite forallb_map.
    rewrite (forallb_ext_in
               (fun x => implb (owned_in u rest
                                  (if owned_is u v x
                                   then updated_row now (SET_is_complete b) x else x))
                               (can_increment
                                  (if owned_is u v x
                                   then updated_row now (SET_is_complete b) x else x)))
               (fun r => implb (owned_in u rest r) (can_increment r))).
    2:{ intros r _. destruct (owned_is u v r) eqn:E; [|reflexivity].
        rewrite owned_in_updated, (Hdisj r E). reflexivity. }
    destruct (forallb (fun r => implb (owned_in u rest r) (can_increment r)) (todos db));
      [|reflexivity].
    f_equal.
    + unfold rows_affected. cbn [todos with_todos].
      rewrite length_filter_map_if by (intros x; apply owned_in_updated).
      rewrite (filter_ext (owned_in u (v :: rest))
                          (fun r => owned_is u v r || owned_in u rest r))
        by (intros r; apply owned_in_cons).
      rewrite length_filter_orb by (intros r _; apply Hdisj).
      lia.
    + unfold with_todos. cbn [profiles categories todos]. f_equal.
      rewrite map_map. apply map_ext. intros r.
      rewrite owned_in_cons.
      destruct (owned_is u v r) eqn:E; cbn [orb].
      * now rewrite owned_in_updated, (Hdisj r E).
      * reflexivity.
Qed.

Lemma rejected_of_raised (body : plpgsql bulk_row) db :
  (exists e, body db = Raised e) ->
  rejected (BEGIN_EXCEPTION body WHEN_OTHERS db) db.
Proof.
  intros [e H]. rewrite (BEGIN_EXCEPTION_raised _ _ _ _ H).
  exists (SQLERRM e). reflexivity.
Qed.

Lemma IF_count_mismatch {A} (n : Z) (ids : list A) e db :
  ids <> [] -> n <> Z.of_nat (List.length ids) ->
  IF_THEN (int4ne n (array_length ids)) (RAISE e) db = Raised e.
Proof.
  intros Hne Hn. destruct ids as [|x ids]; [congruence|].
  unfold IF_THEN, int4ne, array_length, is_true.
  apply Z.eqb_neq in Hn. now rewrite Hn.
Qed.

Lemma IF_count_match {A} (n : Z) (ids : list A) body :
  n = Z.of_nat (List.length ids) ->
  IF_THEN (int4ne n (array_length ids)) body = ret tt.
Proof.
  intros ->. destruct ids as [|x ids]; [reflexivity|].
  unfold IF_THEN, int4ne, array_length, is_true. now rewrite Z.eqb_refl.
Qed.

Lemma rows_affected_loop_nil u rows : rows_affected_loop u [] rows = 0.
Proof. reflexivity. Qed.

Lemma rows_affected_nil u db : rows_affected u [] db = 0.
Proof.
  unfold rows_affected.
  now rewrite (proj2 (filter_nil_iff (owned_in u []) (todos db))) by reflexivity.
Qed.

Lemma bulk_update_todos_unfold now u ids b :
  bulk_update_todos now u ids b =
  BEGIN_EXCEPTION
    (v_updated_count <- FOREACH ids (bulk_update_todos_body now u b) 0 ;;
     IF_THEN (int4ne v_updated_count (array_length ids))
       (RAISE (raise_exception
          ("Some todos could not be updated. Expected: "
           ++ int4out_null (array_length ids)
           ++ ", Updated: " ++ int4out v_updated_count))) ;;
     ret (mk_bulk_row true v_updated_count None))
    WHEN_OTHERS.
Proof. reflexivity. Qed.

Lemma bulk_update_todos_rejects now u ids b db :
  rows_affected_loop u ids (todos db) <> Z.of_nat (List.length ids) ->
  rejected (bulk_update_todos now u ids b db) db.
Proof.
  intros H. rewrite bulk_update_todos_unfold. apply rejected_of_raised.
  assert (Hne : ids <> []) by (intros ->; now apply H).
  unfold bind.
  destruct (FOREACH_bulk_update_outcome now u b ids 0 db) as [[db' E]|[e E]];
    rewrite E; [|eauto].
  rewrite IF_count_mismatch by (assumption || (simpl; lia)). eauto.
Qed.

Lemma bulk_update_todos_efficient_rejects now u ids b db :
  rows_affected u ids db <> Z.of_nat (List.length ids) ->
  rejected (bulk_update_todos_efficient now u ids b db) db.
Proof.
  intros H. unfold bulk_update_todos_efficient. apply rejected_of_raised.
  assert (Hne : ids <> []) by (intros ->; apply H; apply rows_affected_nil).
  unfold bind. fold (owned_in u ids).
  rewrite UPDATE_todos_keep_category by reflexivity.
  destruct (forallb _ (todos db)); [|eauto].
  rewrite IF_count_mismatch; eauto.
  unfold ROW_COUNT. now rewrite length_map.
Qed.

Lemma bulk_change_category_rejects now u ids c db :
  rows_affected u ids db <> Z.of_nat (List.length ids) ->
  rejected (bulk_change_category now u ids c db) db.
Proof.
  intros H. unfold bulk_change_category. apply rejected_of_raised.
  assert (Hne : ids <> []) by (intros ->; apply H; apply rows_affected_nil).
  fold (owned_in u ids).
  assert (Hupd : forall d, todos d = todos db ->
            exists e,
              (rows <- UPDATE_todos now (owned_in u ids) (SET_category_id c) ;;
               IF_THEN (int4ne (ROW_COUNT rows) (array_length ids))
                 (RAISE (raise_exception "Some todos could not be updated")) ;;
               ret (mk_bulk_row true (ROW_COUNT rows) None)) d = Raised e).
  { intros d Hd. unfold bind. rewrite UPDATE_todos_eq, Hd.
    destruct (forallb _ (todos db)); [|eauto].
    destruct (forallb (fk_category_ok _) _); [|eauto].
    rewrite IF_count_mismatch; eauto.
    unfold ROW_COUNT. now rewrite length_map. }
  destruct c as [c'|]; unfold bind at 1.
  - unfold bind at 1, EXISTS_categories.
    destruct (existsb _ (categories db)); unfold IF_THEN; simpl.
    + apply Hupd. reflexivity.
    + eauto.
  - unfold ret at 1. apply Hupd. reflexivity.
Qed.

Lemma bulk_delete_todos_rejects u ids db :
  rows_affected u ids db <> Z.of_nat (List.length ids) ->
  rejected (bulk_delete_todos u ids db) db.
Proof.
  intros H. unfold bulk_delete_todos. apply rejected_of_raised.
  assert (Hne : ids <> []) by (intros ->; apply H; apply rows_affected_nil).
  unfold bind, DELETE_FROM_todos. fold (owned_in u ids).
  rewrite IF_count_mismatch; eauto.
Qed.

Lemma NoDup_map_filter {Row Key} (key : Row -> Key) (keep : Row -> bool) rows :
  NoDup (map key rows) -> NoDup (map key (filter keep rows)).
Proof.
  induction rows as [|x l IH]; simpl; intros H; [constructor|].
  inversion H as [|? ? Hx Hl]; subst.
  destruct (keep x); simpl; [constructor|]; auto.
  intros Hin. apply Hx. apply in_map_iff in Hin as (y & <- & Hy).
  apply in_map. now apply filter_In in Hy as [Hy _].
Qed.

(** Under the primary key, an id whose row is not the caller's (or does
    not exist) makes the affected count fall short of the request. *)
Lemma rows_affected_short u ids db B :
  todos_pkey db -> In B ids ->
  (forall t, In t (todos db) -> id t = B -> user_id t <> u) ->
  rows_affected u ids db < Z.of_nat (List.length ids).
Proof.
  intros Hpk HB Hother. unfold rows_affected.
  set (matched := filter (owned_in u ids) (todos db)).
  assert (Hnd : NoDup (B :: map id matched)).
  { constructor; [|now apply NoDup_map_filter].
    intros Hin. apply in_map_iff in Hin as (r & Hr & Hm).
    apply filter_In in Hm as [Hm Ho]. apply owned_in_true in Ho as [_ Ho].
    exact (Hother r Hm Hr Ho). }
  assert (Hincl : incl (B :: map id matched) ids).
  { intros x [<-|Hx]; [assumption|].
    apply in_map_iff in Hx as (r & <- & Hm).
    apply filter_In in Hm as [_ Ho]. now apply owned_in_true in Ho as [Ho _]. }
  pose proof (NoDup_incl_length Hnd Hincl) as Hlen.
  simpl in Hlen. rewrite length_map in Hlen. lia.
Qed.

(** C1. Each bulk operation is all-or-nothing: when the number of rows
    its statements affect differs from the number of requested ids, it
    returns [success = false], a count of 0 and an error message, and the
    database is exactly as before the call.  For [bulk_update_todos]
    the affected rows are counted as the function counts them, one per
    requested id and matching row.  In particular, under the primary key
    of [todos], a request naming an id whose row belongs to another user
    (or does not exist) is rejected by [bulk_delete_todos], so no other
    requested row is deleted. *)
Theorem bulk_operations_all_or_nothing :
  forall now u ids b c db,
    (rows_affected_loop u ids (todos db) <> Z.of_nat (List.length ids) ->
     rejected (bulk_update_todos now u ids b db) db)
    /\ (rows_affected u ids db <> Z.of_nat (List.length ids) ->
        rejected (bulk_update_todos_efficient now u ids b db) db
        /\ rejected (bulk_change_category now u ids c db) db
        /\ rejected (bulk_delete_todos u ids db) db)
    /\ (todos_pkey db ->
        forall B, In B ids ->
          (forall t, In t (todos db) -> id t = B -> user_id t <> u) ->
          rejected (bulk_delete_todos u ids db) db).
Proof.
  intros now u ids b c db. split; [|split].
  - apply bulk_update_todos_rejects.
  - intros H. repeat split.
    + now apply bulk_update_todos_efficient_rejects.
    + now apply bulk_change_category_rejects.
    + now apply bulk_delete_todos_rejects.
  - intros Hpk B HB Hother. apply bulk_delete_todos_rejects.
    pose proof (rows_affected_short u ids db B Hpk HB Hother). lia.
Qed.

(** The spec's example: ids [1; 2; 3] where todo 2 belongs to user 20;
    user 10's bulk delete is rejected and todos 1 and 3 are still there. *)
Lemma bulk_operations_all_or_nothing_witness :
  rejected (bulk_delete_todos 10%N [1%N; 2%N; 3%N] db_three_todos) db_three_todos
  /\ rejected (bulk_update_todos 500 10%N [1%N; 2%N; 3%N] true db_three_todos)
              db_three_todos
  /\ rejected (bulk_change_category 500 10%N [1%N; 2%N; 3%N] None db_three_todos)
              db_three_todos.
Proof.
  pose proof (bulk_operations_all_or_nothing 500 10%N [1%N; 2%N; 3%N] true None
                db_three_todos) as (H1 & H2 & H3).
  split; [|split].
  - apply H3 with (B := 2%N).
    + unfold todos_pkey. simpl. repeat constructor; simpl; intuition discriminate.
    + simpl. auto.
    + simpl. intros t [<-|[<-|[<-|[]]]]; simpl; discriminate.
  - apply H1. vm_compute. discriminate.
  - apply H2. vm_compute. discriminate.
Defined.

(** C5 (amended). For a list of pairwise distinct ids, the iterative
    bulk update and the single set-based bulk update return the same row
    (success flag, count and message) and leave the same database. *)
Theorem bulk_update_strategies_agree_on_distinct_ids :
  forall now u ids b db,
    NoDup ids ->
    bulk_update_todos now u ids b db = bulk_update_todos_efficient now u ids b db.
Proof.
  intros now u ids b db Hnd.
  rewrite bulk_update_todos_unfold. unfold bulk_update_todos_efficient.
  unfold BEGIN_EXCEPTION, bind. fold (owned_in u ids).
  rewrite FOREACH_bulk_update_NoDup by assumption.
  rewrite UPDATE_todos_keep_category by reflexivity.
  destruct (forallb _ (todos db)); [|reflexivity].
  unfold ROW_COUNT. rewrite length_map. fold (rows_affected u ids db).
  rewrite Z.add_0_l. reflexivity.
Qed.

Lemma bulk_update_strategies_agree_on_distinct_ids_witness :
  bulk_update_todos 500 10%N [3%N; 1%N] true db_three_todos
  = bulk_update_todos_efficient 500 10%N [3%N; 1%N] true db_three_todos.
Proof.
  apply (bulk_update_strategies_agree_on_distinct_ids 500 10%N [3%N; 1%N] true
           db_three_todos).
  repeat constructor; simpl; intuition discriminate.
Defined.

(** C5 fails as stated: with an id listed twice the loop updates the row
    twice, counts 2 and succeeds (leaving the row two versions later),
    while the set-based statement updates it once, counts 1 against 2
    requested ids and rejects the call. *)
Lemma bulk_update_strategies_differ_on_repeated_id :
  bulk_update_todos 200 10%N [1%N; 1%N] true (db_one_todo 1)
  = Return (mk_bulk_row true 2 None)
           (mk_database [] [] [mk_todo 1%N 10%N "Buy milk" true None 100 200 3])
  /\ bulk_update_todos_efficient 200 10%N [1%N; 1%N] true (db_one_todo 1)
     = Return (mk_bulk_row false 0
                 (Some "Some todos could not be updated. Expected: 2, Updated: 1"))
              (db_one_todo 1).
Proof. split; reflexivity. Qed.

Lemma category_check_passes u c db (k : plpgsql bulk_row) :
  match c with
  | None => True
  | Some c' =>
      existsb (fun x => N.eqb (c_id x) c' && N.eqb (c_user_id x) u) (categories db) = true
  end ->
  (match c with
   | Some c' =>
       v_category_exists <-
         EXISTS_categories (fun x => N.eqb (c_id x) c' && N.eqb (c_user_id x) u) ;;
       IF_THEN (Some (negb v_category_exists))
         (RAISE (raise_exception "Category does not exist or access denied"))
   | None => ret tt
   end ;; k) db = k db.
Proof.
  destruct c as [c'|]; intros H; unfold bind, EXISTS_categories; [|reflexivity].
  now rewrite H.
Qed.

(** C10 (amended). With an empty id array, [bulk_update_todos] and
    [bulk_delete_todos] return [success = true] with count 0 and change
    nothing: [array_length] of the empty array is NULL, so the mismatch
    test is not true.  [bulk_change_category] does the same when its
    category argument is NULL or a category of the caller. *)
Theorem bulk_operations_accept_empty_array :
  forall now u b c db,
    bulk_update_todos now u [] b db = Return (mk_bulk_row true 0 None) db
    /\ bulk_delete_todos u [] db = Return (mk_bulk_row true 0 None) db
    /\ (match c with
        | None => True
        | Some c' =>
            existsb (fun x => N.eqb (c_id x) c' && N.eqb (c_user_id x) u)
                    (categories db) = true
        end ->
        bulk_change_category now u [] c db = Return (mk_bulk_row true 0 None) db).
Proof.
  intros now u b c db. split; [reflexivity|]. split.
  - unfold bulk_delete_todos, BEGIN_EXCEPTION, bind, DELETE_FROM_todos.
    fold (owned_in u []).
    rewrite (proj2 (filter_nil_iff (owned_in u []) (todos db))) by reflexivity.
    rewrite (filter_ext (fun t => negb (owned_in u [] t)) (fun _ => true))
      by reflexivity.
    assert (Hall : forall l : list todo, filter (fun _ => true) l = l)
      by (induction l as [|x l IH]; simpl; congruence).
    rewrite Hall, with_todos_same. reflexivity.
  - intros Hc. unfold bulk_change_category, BEGIN_EXCEPTION.
    rewrite (category_check_passes u c db _ Hc).
    unfold bind. fold (owned_in u []).
    rewrite UPDATE_todos_no_match
      by (apply filter_nil_iff; reflexivity).
    reflexivity.
Qed.

Lemma bulk_operations_accept_empty_array_witness :
  bulk_change_category 500 10%N [] None db_three_todos
  = Return (mk_bulk_row true 0 None) db_three_todos.
Proof.
  apply (bulk_operations_accept_empty_array 500 10%N true None db_three_todos).
  exact I.
Defined.

(** C10 fails as stated for [bulk_change_category]: with an empty id
    array and a category that is not the caller's, the category check
    raises before the count test and the call returns [success = false]. *)
Lemma bulk_change_category_empty_array_rejected :
  bulk_change_category 500 10%N [] (Some 7%N) db_three_todos
  = Return (mk_bulk_row false 0 (Some "Category does not exist or access denied"))
           db_three_todos.
Proof. reflexivity. Qed.

(** ** Versions under the stored procedures *)

Lemma WHEN_OTHERS_success (body : plpgsql bulk_row) db r db' :
  BEGIN_EXCEPTION body WHEN_OTHERS db = Return r db' -> success r = true ->
  body db = Return r db'.
Proof.
  unfold BEGIN_EXCEPTION. destruct (body db) as [r0 d0|e]; [auto|].
  unfold WHEN_OTHERS, ret. intros H. injection H as <- <-. discriminate.
Qed.

Lemma IF_THEN_RAISE_inv c e db u d :
  IF_THEN c (RAISE e) db = Return u d -> d = db.
Proof.
  unfold IF_THEN. destruct (is_true c); [discriminate|].
  unfold ret. intros H. now injection H as _ <-.
Qed.

Lemma UPDATE_todos_bumped_once now cond assign db rows db' :
  UPDATE_todos now cond assign db = Return rows db' ->
  Forall2 (bumped_once now cond) (todos db) (todos db').
Proof.
  intros H. apply UPDATE_todos_rowwise in H.
  eapply Forall2_impl; [|exact H].
  intros OLD NEW. unfold bumped_once. destruct (cond OLD); intros ->; auto.
Qed.

Lemma bulk_update_todos_efficient_versions now u ids b db r db' :
  bulk_update_todos_efficient now u ids b db = Return r db' -> success r = true ->
  Forall2 (bumped_once now (owned_in u ids)) (todos db) (todos db').
Proof.
  intros H Hs. apply WHEN_OTHERS_success in H; [|assumption].
  unfold bind in H. fold (owned_in u ids) in H.
  destruct (UPDATE_todos now (owned_in u ids) (SET_is_complete b) db)
    as [rows db1|e] eqn:E; [|discriminate].
  destruct (IF_THEN _ _ db1) as [[] d|e] eqn:E2; [|discriminate].
  apply IF_THEN_RAISE_inv in E2. subst d. injection H as _ <-.
  now apply UPDATE_todos_bumped_once in E.
Qed.

Lemma bulk_change_category_versions now u ids c db r db' :
  bulk_change_category now u ids c db = Return r db' -> success r = true ->
  Forall2 (bumped_once now (owned_in u ids)) (todos db) (todos db').
Proof.
  intros H Hs. apply WHEN_OTHERS_success in H; [|assumption].
  unfold bind at 1 in H.
  assert (Hpre : forall o,
            match c with
            | Some c' =>
                v_category_exists <-
                  EXISTS_categories
                    (fun k => N.eqb (c_id k) c' && N.eqb (c_user_id k) u) ;;
                IF_THEN (Some (negb v_category_exists))
                  (RAISE (raise_exception "Category does not exist or access denied"))
            | None => ret tt
            end db = o ->
            match o with Return _ d => d = db | Raised _ => True end).
  { intros o <-. destruct c as [c'|]; [|reflexivity].
    unfold bind, EXISTS_categories, IF_THEN, RAISE, ret.
    destruct (is_true _); [exact I|reflexivity]. }
  match type of H with
  | match ?pre with _ => _ end = _ =>
      specialize (Hpre pre eq_refl); destruct pre as [[] d|e]; [|discriminate]
  end.
  subst d. unfold bind in H. fold (owned_in u ids) in H.
  destruct (UPDATE_todos now (owned_in u ids) (SET_category_id c) db)
    as [rows db1|e] eqn:E; [|discriminate].
  destruct (IF_THEN _ _ db1) as [[] d|e] eqn:E2; [|discriminate].
  apply IF_THEN_RAISE_inv in E2. subst d. injection H as _ <-.
  now apply UPDATE_todos_bumped_once in E.
Qed.

Lemma update_todo_with_version_versions now u tid ttl b c v db r db' :
  update_todo_with_version now u tid ttl b c v db = Return r db' ->
  v_success r = true ->
  Forall2 (bumped_once now (owned_at_version u tid v)) (todos db) (todos db').
Proof.
  unfold update_todo_with_version, BEGIN_EXCEPTION.
  fold (owned_at_version u tid v). fold (SET_all ttl b c).
  unfold bind at 1.
  destruct (UPDATE_todos now (owned_at_version u tid v) (SET_all ttl b c) db)
    as [rows db1|e] eqn:E.
  2:{ unfold ret. intros H. injection H as <- <-. discriminate. }
  unfold bind, IF_THEN, EXISTS_todos, RAISE, ret.
  destruct (is_true _).
  - destruct (negb _); intros H; injection H as <- <-; discriminate.
  - intros H _. injection H as _ <-. now apply UPDATE_todos_bumped_once in E.
Qed.

(** The loop of [bulk_update_todos] is the sequence of its UPDATEs. *)
Lemma FOREACH_run_updates now u b ids : forall acc db n db',
  FOREACH ids (bulk_update_todos_body now u b) acc db = Return n db' ->
  run_updates (bulk_update_todos_statements now u ids b) db = Return tt db'.
Proof.
  induction ids as [|v rest IH]; intros acc db n db' H.
  - injection H as _ <-. reflexivity.
  - cbn [FOREACH] in H. unfold bind at 1 in H.
    unfold bulk_update_todos_body at 1 in H. unfold bind at 1 in H.
    cbn [bulk_update_todos_statements map run_updates]. unfold bind at 1.
    destruct (UPDATE_todos now (owned_is u v) (SET_is_complete b) db)
      as [rows db1|e]; [|discriminate].
    unfold ret in H. exact (IH _ _ _ _ H).
Qed.

Lemma bulk_update_todos_versions now u ids b db r db' :
  bulk_update_todos now u ids b db = Return r db' -> success r = true ->
  Forall2 (fun OLD NEW =>
             version NEW
             = version OLD
               + times_updated (bulk_update_todos_statements now u ids b) OLD
             /\ id NEW = id OLD)
          (todos db) (todos db').
Proof.
  rewrite bulk_update_todos_unfold. intros H Hs.
  apply WHEN_OTHERS_success in H; [|assumption].
  unfold bind at 1 in H.
  destruct (FOREACH ids (bulk_update_todos_body now u b) 0 db) as [n db1|e] eqn:E;
    [|discriminate].
  unfold bind in H.
  destruct (IF_THEN _ _ db1) as [[] d|e] eqn:E2; [|discriminate].
  apply IF_THEN_RAISE_inv in E2. subst d. injection H as _ <-.
  apply FOREACH_run_updates in E. now apply run_updates_rowwise in E.
Qed.

(** C3. Every UPDATE of [todos] goes through [increment_version]: a row
    the statement selects is stored with [version = old version + 1] and
    [updated_at] set to the statement's time, whatever its SET clause
    assigned (even to [version] or [updated_at] themselves), and a row it
    does not select is unchanged.  Hence after any sequence of successful
    UPDATE statements the version of a row is its initial version plus
    the number of statements that updated it, and each successful stored
    procedure moves the rows it selects up by exactly one version per
    UPDATE it issues on them. *)
Theorem version_incremented_by_one_on_every_update :
  (forall now cond assign db rows db',
      UPDATE_todos now cond assign db = Return rows db' ->
      Forall2 (bumped_once now cond) (todos db) (todos db'))
  /\ (forall stmts db db',
        run_updates stmts db = Return tt db' ->
        Forall2 (fun OLD NEW =>
                   version NEW = version OLD + times_updated stmts OLD
                   /\ 0 <= times_updated stmts OLD
                   /\ id NEW = id OLD)
                (todos db) (todos db'))
  /\ (forall now u ids b c tid ttl v db db',
        (forall r, bulk_update_todos_efficient now u ids b db = Return r db' ->
                   success r = true ->
                   Forall2 (bumped_once now (owned_in u ids)) (todos db) (todos db'))
        /\ (forall r, bulk_change_category now u ids c db = Return r db' ->
                      success r = true ->
                      Forall2 (bumped_once now (owned_in u ids)) (todos db) (todos db'))
        /\ (forall r, update_todo_with_version now u tid ttl b c v db = Return r db' ->
                      v_success r = true ->
                      Forall2 (bumped_once now (owned_at_version u tid v))
                              (todos db) (todos db'))
        /\ (forall r, bulk_update_todos now u ids b db = Return r db' ->
                      success r = true ->
                      Forall2 (fun OLD NEW =>
                                 version NEW
                                 = version OLD
                                   + times_updated
                                       (bulk_update_todos_statements now u ids b) OLD
                                 /\ id NEW = id OLD)
                              (todos db) (todos db'))).
Proof.
  split; [|split].
  - intros now cond assign db rows db'. apply UPDATE_todos_bumped_once.
  - intros stmts db db' H. apply run_updates_rowwise in H.
    eapply Forall2_impl; [|exact H].
    intros OLD NEW [Hv Hi]. repeat split; auto using times_updated_nonneg.
  - intros now u ids b c tid ttl v db db'. repeat split; intros r.
    + apply bulk_update_todos_efficient_versions.
    + apply bulk_change_category_versions.
    + apply update_todo_with_version_versions.
    + apply bulk_update_todos_versions.
Qed.

(** ** Instances at concrete databases *)

Lemma version_incremented_by_one_on_every_update_witness :
  Forall2 (bumped_once 200 every_row)
          (todos (db_one_todo 5))
          [mk_todo 1%N 10%N "Buy milk" false None 100 200 6]
  /\ Forall2 (fun OLD NEW =>
                version NEW
                = version OLD
                  + times_updated [(200, every_row, SET_version_and_time);
                                   (300, every_row, SET_is_complete true)] OLD
                /\ 0 <= times_updated [(200, every_row, SET_version_and_time);
                                       (300, every_row, SET_is_complete true)] OLD
                /\ id NEW = id OLD)
             (todos (db_one_todo 5))
             [mk_todo 1%N 10%N "Buy milk" true None 100 300 7]
  /\ Forall2 (bumped_once 400 (owned_in 10%N [1%N]))
             (todos (db_one_todo 5))
             [mk_todo 1%N 10%N "Buy milk" true None 100 400 6].
Proof.
  destruct version_incremented_by_one_on_every_update as (H1 & H2 & H3).
  split; [|split].
  - exact (H1 200 every_row SET_version_and_time (db_one_todo 5)
              [mk_todo 1%N 10%N "Buy milk" false None 100 200 6]
              (mk_database [] [] [mk_todo 1%N 10%N "Buy milk" false None 100 200 6])
              eq_refl).
  - exact (H2 [(200, every_row, SET_version_and_time);
               (300, every_row, SET_is_complete true)]
              (db_one_todo 5)
              (mk_database [] [] [mk_todo 1%N 10%N "Buy milk" true None 100 300 7])
              eq_refl).
  - exact (proj1 (H3 400 10%N [1%N] true None 1%N "" 0 (db_one_todo 5)
                     (mk_database [] [] [mk_todo 1%N 10%N "Buy milk" true None 100 400 6]))
                 (mk_bulk_row true 1 None) eq_refl eq_refl).
Defined.

Lemma update_todo_with_version_zero_rows_witness :
  update_todo_with_version 200 10%N 1%N "Buy bread" true None 4 (db_one_todo 5)
  = Return (mk_version_row false (Some 0) (Some Version_conflict)) (db_one_todo 5)
  /\ update_todo_with_version 200 20%N 1%N "Buy bread" true None 5 (db_one_todo 5)
     = Return (mk_version_row false (Some 0) (Some Todo_not_found)) (db_one_todo 5).
Proof.
  split.
  - exact (update_todo_with_version_zero_rows 200 10%N 1%N "Buy bread" true None 4
             (db_one_todo 5) eq_refl).
  - exact (update_todo_with_version_zero_rows 200 20%N 1%N "Buy bread" true None 5
             (db_one_todo 5) eq_refl).
Defined.

Lemma update_todo_with_version_succeeds_then_conflicts_witness :
  exists db',
    update_todo_with_version 200 10%N 1%N "Buy bread" true None 5 (db_one_todo 5)
    = Return (mk_version_row true (Some 6) None) db'
    /\ In (updated_row 200 (SET_all "Buy bread" true None) (the_todo 5)) (todos db')
    /\ version (updated_row 200 (SET_all "Buy bread" true None) (the_todo 5)) = 6
    /\ update_todo_with_version 300 10%N 1%N "Buy eggs" false None 5 db'
       = Return (mk_version_row false (Some 0) (Some Version_conflict)) db'.
Proof.
  refine (update_todo_with_version_succeeds_then_conflicts
            200 300 10%N (the_todo 5) "Buy bread" true None "Buy eggs" false None
            (db_one_todo 5) _ _ _ _).
  - simpl. now left.
  - reflexivity.
  - unfold INT_MIN, INT_MAX. simpl. lia.
  - reflexivity.
Defined.

(** ** ORDER BY, LIMIT and OFFSET *)

Section Ordering.
Context {A : Type} (before : A -> A -> bool).

Lemma insert_by_Permutation x l : Permutation (x :: l) (insert_by before x l).
Proof.
  induction l as [|y l IH]; simpl; [reflexivity|].
  destruct (before x y); [reflexivity|].
  rewrite perm_swap. now constructor.
Qed.

Lemma ORDER_BY_Permutation l : Permutation l (ORDER_BY before l).
Proof.
  induction l as [|x l IH]; simpl; [constructor|].
  rewrite <- insert_by_Permutation. now constructor.
Qed.

Lemma ORDER_BY_In x l : In x (ORDER_BY before l) <-> In x l.
Proof.
  split; apply Permutation_in;
    [symmetry|]; apply ORDER_BY_Permutation.
Qed.

Lemma ORDER_BY_length l : List.length (ORDER_BY before l) = List.length l.
Proof. symmetry. apply Permutation_length, ORDER_BY_Permutation. Qed.

Hypothesis before_total : forall a b, before a b = true \/ before b a = true.
Hypothesis before_trans :
  forall a b c, before a b = true -> before b c = true -> before a c = true.

Lemma insert_by_sorted x l :
  StronglySorted (fun a b => before a b = true) l ->
  StronglySorted (fun a b => before a b = true) (insert_by before x l).
Proof.
  induction 1 as [|y l Hl IH Hy]; simpl; [repeat constructor|].
  destruct (before x y) eqn:E.
  - constructor; [now constructor|].
    constructor; [assumption|].
    eapply Forall_impl; [|exact Hy]. intros z Hz. now apply (before_trans x y z).
  - constructor; [assumption|].
    assert (Hyx : before y x = true)
      by (destruct (before_total x y); congruence).
    rewrite Forall_forall in *. intros z Hz.
    apply (Permutation_in _ (Permutation_sym (insert_by_Permutation x l))) in Hz.
    destruct Hz as [<-|Hz]; auto.
Qed.

Lemma ORDER_BY_sorted l :
  StronglySorted (fun a b => before a b = true) (ORDER_BY before l).
Proof.
  induction l as [|x l IH]; simpl; [constructor|]. now apply insert_by_sorted.
Qed.

Lemma insert_by_front x l :
  (forall z, In z l -> before x z = true) -> insert_by before x l = x :: l.
Proof.
  destruct l as [|y l]; simpl; [reflexivity|].
  intros H. now rewrite (H y (or_introl eq_refl)).
Qed.

(** Sorting commutes with a filter. *)
Lemma insert_by_filter p x l :
  StronglySorted (fun a b => before a b = true) l ->
  filter p (insert_by before x l)
  = if p x then insert_by before x (filter p l) else filter p l.
Proof.
  induction 1 as [|y l Hl IH Hy]; simpl.
  - destruct (p x); reflexivity.
  - destruct (before x y) eqn:E.
    + cbn [filter]. destruct (p x); [|reflexivity].
      rewrite insert_by_front; [reflexivity|].
      intros z Hz. destruct (p y).
      * destruct Hz as [<-|Hz]; [assumption|].
        apply filter_In in Hz as [Hz _]. rewrite Forall_forall in Hy.
        apply (before_trans x y z); auto.
      * apply filter_In in Hz as [Hz _]. rewrite Forall_forall in Hy.
        apply (before_trans x y z); auto.
    + cbn [filter]. rewrite IH.
      destruct (p x), (p y); simpl; try rewrite E; reflexivity.
Qed.

Lemma ORDER_BY_filter p l :
  filter p (ORDER_BY before l) = ORDER_BY before (filter p l).
Proof.
  induction l as [|x l IH]; simpl; [reflexivity|].
  rewrite insert_by_filter by apply ORDER_BY_sorted.
  rewrite IH. destruct (p x); reflexivity.
Qed.
End Ordering.

Lemma StronglySorted_app_inv {A} (R : A -> A -> Prop) (l1 l2 : list A) :
  StronglySorted R (l1 ++ l2) ->
  StronglySorted R l1 /\ StronglySorted R l2
  /\ (forall x y, In x l1 -> In y l2 -> R x y).
Proof.
  induction l1 as [|a l1 IH]; simpl; intros H.
  - repeat split; [constructor|assumption|intros x y []].
  - inversion H as [|? ? Hs Hf]; subst. destruct (IH Hs) as (H1 & H2 & H3).
    rewrite Forall_forall in Hf. repeat split; [|assumption|].
    + constructor; [assumption|]. rewrite Forall_forall.
      intros z Hz. apply Hf, in_or_app. now left.
    + intros x y [<-|Hx] Hy; [apply Hf, in_or_app; now right|now apply H3].
Qed.

Lemma StronglySorted_firstn {A} (R : A -> A -> Prop) n (l : list A) :
  StronglySorted R l -> StronglySorted R (firstn n l).
Proof.
  intros H. rewrite <- (firstn_skipn n l) in H.
  now apply StronglySorted_app_inv in H.
Qed.

Lemma StronglySorted_skipn {A} (R : A -> A -> Prop) n (l : list A) :
  StronglySorted R l -> StronglySorted R (skipn n l).
Proof.
  intros H. rewrite <- (firstn_skipn n l) in H.
  now apply StronglySorted_app_inv in H.
Qed.

Lemma StronglySorted_map {A B} (R : A -> A -> Prop) (S : B -> B -> Prop)
    (f : A -> B) (l : list A) :
  (forall x y, R x y -> S (f x) (f y)) ->
  StronglySorted R l -> StronglySorted S (map f l).
Proof.
  intros HRS. induction 1 as [|x l Hl IH Hx]; simpl; constructor; [assumption|].
  rewrite Forall_forall in *. intros y Hy.
  apply in_map_iff in Hy as (z & <- & Hz). auto.
Qed.

Lemma LIMIT_Ok {A} (n : Z) (rows : list A) :
  0 <= n -> LIMIT n rows = Ok (firstn (Z.to_nat n) rows).
Proof.
  intros H. unfold LIMIT. destruct (n <? 0) eqn:E; [|reflexivity].
  apply Z.ltb_lt in E. lia.
Qed.

Lemma LIMIT_OFFSET_Ok_inv {A} (n k : Z) (rows out : list A) :
  LIMIT_OFFSET n k rows = Ok out ->
  0 <= n /\ 0 <= k /\ out = firstn (Z.to_nat n) (skipn (Z.to_nat k) rows).
Proof.
  unfold LIMIT_OFFSET, LIMIT.
  destruct (k <? 0) eqn:Ek; [discriminate|].
  destruct (n <? 0) eqn:En; [discriminate|].
  apply Z.ltb_ge in Ek, En. intros H. injection H as <-. auto.
Qed.

(** ** LIKE *)









(** The patterns the functions build never end in a lone escape. *)
Lemma like_dangling_escape_built q :
  dangling_escape (q ++ "%") = false
  /\ dangling_escape ("%" ++ q ++ "%") = false.
Proof.
  assert (H : forall q, dangling_escape (q ++ "%") = false
                        /\ forall c, dangling_escape (String c q ++ "%") = false).
  { clear q. induction q as [|d q [IH1 IH2]].
    - split; [reflexivity|]. intros c. simpl. now destruct (Ascii.eqb c "\").
    - split; [apply IH2|]. intros c.
      change (String c (String d q) ++ "%") with (String c (String d (q ++ "%"))).
      cbn [dangling_escape]. destruct (Ascii.eqb c "\"); [exact IH1|apply IH2]. }
  split; [apply H|]. apply (proj2 (H q) "%"%char).
Qed.

(** ** search_todos *)

Lemma Qgt_bool_iff a b : Qgt_bool a b = true <-> (b < a)%Q.
Proof.
  unfold Qgt_bool. rewrite negb_true_iff. split.
  - intros H. apply Qnot_le_lt. intros Hle. apply Qle_bool_iff in Hle. congruence.
  - intros H. destruct (Qle_bool a b) eqn:E; [|reflexivity].
    apply Qle_bool_iff in E. exfalso. eapply Qlt_not_le; eauto.
Qed.

Lemma rank_created_desc_iff rank a b :
  rank_created_desc rank a b = true
  <-> (rank (fst b) < rank (fst a))%Q
      \/ ((rank (fst a) == rank (fst b))%Q
          /\ created_at (fst b) <= created_at (fst a)).
Proof.
  unfold rank_created_desc.
  rewrite orb_true_iff, andb_true_iff, Qgt_bool_iff, Qeq_bool_iff, Z.leb_le.
  reflexivity.
Qed.

Lemma rank_created_desc_total rank a b :
  rank_created_desc rank a b = true \/ rank_created_desc rank b a = true.
Proof.
  rewrite !rank_created_desc_iff.
  destruct (Q_dec (rank (fst a)) (rank (fst b))) as [[H|H]|H]; auto.
  destruct (Z.le_ge_cases (created_at (fst a)) (created_at (fst b))).
  - right. right. split; [now symmetry|assumption].
  - left. right. split; assumption.
Qed.

Lemma rank_created_desc_trans rank a b c :
  rank_created_desc rank a b = true -> rank_created_desc rank b c = true ->
  rank_created_desc rank a c = true.
Proof.
  rewrite !rank_created_desc_iff.
  intros [H1|[H1 H1']] [H2|[H2 H2']].
  - left. eapply Qlt_trans; eauto.
  - left. now rewrite <- H2.
  - left. now rewrite H1.
  - right. split; [now rewrite H1|lia].
Qed.








Lemma In_LEFT_JOIN_categories db j :
  In j (LEFT_JOIN_categories db) -> In (fst j) (todos db).
Proof.
  unfold LEFT_JOIN_categories. intros H.
  apply in_map_iff in H as (t & <- & Ht). exact Ht.
Qed.

Lemma In_firstn_inv {A} n (l : list A) x : In x (firstn n l) -> In x l.
Proof.
  intros H. rewrite <- (firstn_skipn n l). apply in_or_app. now left.
Qed.

Lemma In_skipn_inv {A} n (l : list A) x : In x (skipn n l) -> In x l.
Proof.
  intros H. rewrite <- (firstn_skipn n l). apply in_or_app. now right.
Qed.




(** ** get_todos_cursor *)

Lemma created_desc_total a b : created_desc a b = true \/ created_desc b a = true.
Proof. unfold created_desc. rewrite !Z.leb_le. lia. Qed.

Lemma created_desc_trans a b c :
  created_desc a b = true -> created_desc b c = true -> created_desc a c = true.
Proof. unfold created_desc. rewrite !Z.leb_le. lia. Qed.

Lemma int4pl_1_Ok n : 0 <= n < INT_MAX -> int4pl n 1 = Ok (n + 1).
Proof.
  intros H. unfold int4pl.
  replace ((INT_MIN <=? n + 1) && (n + 1 <=? INT_MAX)) with true; [reflexivity|].
  symmetry. apply andb_true_iff. split; apply Z.leb_le; unfold INT_MIN, INT_MAX in *; lia.
Qed.

(** The function in closed form for a usable limit: the first [p_limit]
    rows of the ordered candidates, each flagged with "there are more
    than [p_limit] candidates". *)
Lemma get_todos_cursor_eq similarity now db u cursor limit q cat :
  0 <= limit < INT_MAX ->
  get_todos_cursor similarity now db u cursor limit q cat
  = Ok (map (fun j =>
               (project j,
                limit <? Z.of_nat (List.length
                                     (cursor_sequence similarity db u
                                        (effective_cursor now cursor) q cat))))
            (firstn (Z.to_nat limit)
                    (cursor_sequence similarity db u (effective_cursor now cursor) q cat))).
Proof.
  intros H. unfold get_todos_cursor. cbv zeta.
  fold (effective_cursor now cursor).
  fold (cursor_sequence similarity db u (effective_cursor now cursor) q cat).
  set (S := cursor_sequence similarity db u (effective_cursor now cursor) q cat).
  rewrite int4pl_1_Ok by assumption.
  rewrite !LIMIT_Ok by lia.
  rewrite firstn_firstn.
  replace (Init.Nat.min (Z.to_nat limit) (Z.to_nat (limit + 1))) with (Z.to_nat limit) by lia.
  f_equal. apply map_ext. intros j. f_equal.
  rewrite length_firstn.
  destruct (limit <? Z.of_nat (List.length S)) eqn:E.
  - apply Z.ltb_lt in E. apply Z.gtb_lt. lia.
  - apply Z.ltb_ge in E. rewrite Z.gtb_ltb. apply Z.ltb_ge. lia.
Qed.

Lemma cursor_sequence_In similarity db u c q cat j :
  In j (cursor_sequence similarity db u c q cat) ->
  In (fst j) (todos db) /\ user_id (fst j) = u /\ created_at (fst j) < c.
Proof.
  unfold cursor_sequence, cursor_candidates. intros H.
  apply ORDER_BY_In, filter_In in H as [Hj Hc].
  apply andb_true_iff in Hc as [Hc _]. apply andb_true_iff in Hc as [Hc _].
  apply andb_true_iff in Hc as [Hu Hlt].
  apply N.eqb_eq in Hu. apply Z.ltb_lt in Hlt.
  apply In_LEFT_JOIN_categories in Hj. auto.
Qed.

Lemma cursor_sequence_sorted similarity db u c q cat :
  StronglySorted (fun a b => created_desc a b = true)
                 (cursor_sequence similarity db u c q cat).
Proof.
  apply ORDER_BY_sorted; [apply created_desc_total|apply created_desc_trans].
Qed.

Lemma filter_twice {A} (f g : A -> bool) (l : list A) :
  filter f (filter g l) = filter (fun x => g x && f x) l.
Proof.
  induction l as [|x l IH]; simpl; [reflexivity|].
  destruct (g x); simpl; [destruct (f x)|]; now rewrite IH.
Qed.

(** Moving the cursor down filters the sequence. *)
Lemma cursor_sequence_lower similarity db u c c' q cat :
  c' <= c ->
  cursor_sequence similarity db u c' q cat
  = filter (fun j => created_at (fst j) <? c')
           (cursor_sequence similarity db u c q cat).
Proof.
  intros Hc. unfold cursor_sequence.
  rewrite ORDER_BY_filter by (apply created_desc_total || apply created_desc_trans).
  f_equal. unfold cursor_candidates. rewrite filter_twice.
  apply filter_ext. intros j.
  destruct (created_at (fst j) <? c') eqn:E1, (created_at (fst j) <? c) eqn:E2;
    rewrite ?andb_true_r, ?andb_false_r; cbn [andb]; try reflexivity.
  apply Z.ltb_lt in E1. apply Z.ltb_ge in E2. lia.
Qed.

Lemma filter_all_true {A} (f : A -> bool) (l : list A) :
  (forall y, In y l -> f y = true) -> filter f l = l.
Proof.
  induction l as [|y l IH]; simpl; intros H; [reflexivity|].
  rewrite (H y (or_introl eq_refl)), IH; [reflexivity|].
  intros z Hz. apply H. now right.
Qed.

(** With pairwise distinct [created_at] the order is strict. *)
Lemma sorted_distinct_strict (S : list (todo * option category)) :
  StronglySorted (fun a b => created_desc a b = true) S ->
  NoDup (map (fun j => created_at (fst j)) S) ->
  StronglySorted (fun a b => created_at (fst b) < created_at (fst a)) S.
Proof.
  induction 1 as [|x l Hl IH Hx]; simpl; intros Hnd; constructor;
    inversion Hnd as [|? ? Hnx Hnl]; subst; [now apply IH|].
  rewrite Forall_forall in *. intros y Hy.
  specialize (Hx y Hy). unfold created_desc in Hx. apply Z.leb_le in Hx.
  assert (created_at (fst y) <> created_at (fst x)); [|lia].
  intros E. apply Hnx. rewrite <- E.
  now apply (in_map (fun j => created_at (fst j))).
Qed.

(** In a strictly descending sequence, the rows created before the last
    row of the first [n] are exactly the rows after the first [n]. *)
Lemma rows_before_last_of_page (S init : list (todo * option category)) n lastj :
  StronglySorted (fun a b => created_at (fst b) < created_at (fst a)) S ->
  firstn n S = (init ++ [lastj])%list ->
  filter (fun j => created_at (fst j) <? created_at (fst lastj)) S = skipn n S.
Proof.
  intros Hs Hpage.
  assert (Hsplit : filter (fun j => created_at (fst j) <? created_at (fst lastj)) S
                   = filter (fun j => created_at (fst j) <? created_at (fst lastj))
                            (firstn n S ++ skipn n S)%list)
    by now rewrite firstn_skipn.
  rewrite Hsplit. clear Hsplit.
  rewrite <- (firstn_skipn n S) in Hs.
  apply StronglySorted_app_inv in Hs as (H1 & H2 & H12).
  rewrite Hpage in H1, H12 |- *.
  apply StronglySorted_app_inv in H1 as (_ & _ & Hinit).
  rewrite filter_app.
  rewrite (proj2 (filter_nil_iff _ (init ++ [lastj]))).
  - simpl. clear H2.
    assert (Hall : forall y, In y (skipn n S) ->
                     (created_at (fst y) <? created_at (fst lastj)) = true).
    { intros y Hy. apply Z.ltb_lt. apply (H12 lastj y); [|assumption].
      apply in_or_app. right. now left. }
    now apply filter_all_true.
  - intros x Hx. apply Z.ltb_ge. apply in_app_or in Hx as [Hx|[<-|[]]]; [|lia].
    specialize (Hinit x lastj Hx (or_introl eq_refl)). lia.
Qed.

Lemma map_fst_flagged {B} (f : todo * option category -> B) l :
  map fst (map (fun j => (project j, f j)) l) = map project l.
Proof. rewrite map_map. reflexivity. Qed.

(** The two calls of a pagination that ends on the second page. *)
Lemma get_todos_cursor_two_pages similarity now now' db u cursor limit q cat :
  0 <= limit < INT_MAX ->
  let S := cursor_sequence similarity db u (effective_cursor now cursor) q cat in
  NoDup (map (fun j => created_at (fst j)) S) ->
  limit < Z.of_nat (List.length S) <= 2 * limit ->
  exists rows1 init last_row rows2,
    get_todos_cursor similarity now db u cursor limit q cat = Ok rows1
    /\ rows1 = (init ++ [last_row])%list
    /\ Z.of_nat (List.length rows1) = limit
    /\ Forall (fun r => snd r = true) rows1
    /\ get_todos_cursor similarity now' db u (Some (l_created_at (fst last_row)))
                        limit q cat = Ok rows2
    /\ Z.of_nat (List.length rows2) = Z.of_nat (List.length S) - limit
    /\ Forall (fun r => snd r = false) rows2
    /\ (map fst rows1 ++ map fst rows2)%list = map project S.
Proof.
  intros Hl S Hnd Hlen.
  set (n := Z.to_nat limit).
  assert (Hn : (n < List.length S)%nat) by lia.
  assert (Hfl : List.length (firstn n S) = n) by (rewrite length_firstn; lia).
  destruct (exists_last (l := firstn n S)) as (init & lastj & Hpage).
  { intros E. rewrite E in Hfl. simpl in Hfl. lia. }
  assert (Hmore : (limit <? Z.of_nat (List.length S)) = true) by (apply Z.ltb_lt; lia).
  exists (map (fun j => (project j, true)) (firstn n S)),
         (map (fun j => (project j, true)) init),
         (project lastj, true),
         (map (fun j => (project j, false)) (skipn n S)).
  assert (Hlast : In lastj S).
  { apply (In_firstn_inv n). rewrite Hpage. apply in_or_app. right. now left. }
  assert (Hc : created_at (fst lastj) <= effective_cursor now cursor).
  { apply cursor_sequence_In in Hlast. lia. }
  assert (Hsecond : cursor_sequence similarity db u (created_at (fst lastj)) q cat
                    = skipn n S).
  { rewrite (cursor_sequence_lower similarity db u _ _ q cat Hc).
    apply rows_before_last_of_page with (init := init); [|exact Hpage].
    apply sorted_distinct_strict; [apply cursor_sequence_sorted|exact Hnd]. }
  split; [|split; [|split; [|split; [|split; [|split; [|split]]]]]].
  - rewrite get_todos_cursor_eq by assumption. fold S. now rewrite Hmore.
  - rewrite Hpage, map_app. reflexivity.
  - rewrite length_map, Hfl. lia.
  - apply Forall_forall. intros r Hr. apply in_map_iff in Hr as (j & <- & _). reflexivity.
  - rewrite get_todos_cursor_eq by assumption.
    destruct lastj as [tl cl]. cbn [project fst l_created_at effective_cursor] in *.
    rewrite Hsecond.
    replace (limit <? Z.of_nat (List.length (skipn n S))) with false
      by (symmetry; apply Z.ltb_ge; rewrite length_skipn; lia).
    rewrite firstn_all2 by (rewrite length_skipn; lia). reflexivity.
  - rewrite length_map, length_skipn. lia.
  - apply Forall_forall. intros r Hr. apply in_map_iff in Hr as (j & <- & _). reflexivity.
  - rewrite !map_fst_flagged, <- map_app, firstn_skipn. reflexivity.
Qed.

(** C7 (amended).  For a limit between 0 and the largest INTEGER minus
    one: a NULL cursor is replaced by now + 1 day, which every row
    created before that instant passes; only rows with [created_at]
    strictly before the cursor are returned, newest first, at most
    [p_limit] of them; each returned row carries [has_more], true
    exactly when more than [p_limit] rows qualify (the extra fetched row
    exists).  When the qualifying rows have pairwise distinct
    [created_at] and number more than [p_limit] but at most twice
    [p_limit] (25 rows for a limit of 20), the first call returns
    [p_limit] rows flagged true, and a second call with the last
    returned row's [created_at] as cursor returns the remaining rows
    flagged false. *)
Theorem get_todos_cursor_pagination :
  forall similarity now db u limit q cat,
    0 <= limit < INT_MAX ->
    get_todos_cursor similarity now db u None limit q cat
    = get_todos_cursor similarity now db u (Some (now + INTERVAL_1_day)) limit q cat
    /\ ((forall t, In t (todos db) -> created_at t < now + INTERVAL_1_day) ->
        cursor_candidates similarity db u (effective_cursor now None) (normalize q) cat
        = filter (fun j => N.eqb (user_id (fst j)) u
                           && search_filter similarity (normalize q) (fst j)
                           && category_filter cat (fst j))
                 (LEFT_JOIN_categories db))
    /\ (forall cursor,
          let S := cursor_sequence similarity db u (effective_cursor now cursor) q cat in
          exists rows,
            get_todos_cursor similarity now db u cursor limit q cat = Ok rows
            /\ map fst rows = map project (firstn (Z.to_nat limit) S)
            /\ Z.of_nat (List.length rows) <= limit
            /\ (forall row, In row rows ->
                  l_created_at (fst row) < effective_cursor now cursor
                  /\ (snd row = true <-> limit < Z.of_nat (List.length S)))
            /\ StronglySorted newest_first rows)
    /\ (forall cursor now',
          let S := cursor_sequence similarity db u (effective_cursor now cursor) q cat in
          NoDup (map (fun j => created_at (fst j)) S) ->
          limit < Z.of_nat (List.length S) <= 2 * limit ->
          exists rows1 init last_row rows2,
            get_todos_cursor similarity now db u cursor limit q cat = Ok rows1
            /\ rows1 = (init ++ [last_row])%list
            /\ Z.of_nat (List.length rows1) = limit
            /\ Forall (fun r => snd r = true) rows1
            /\ get_todos_cursor similarity now' db u
                 (Some (l_created_at (fst last_row))) limit q cat = Ok rows2
            /\ Z.of_nat (List.length rows2) = Z.of_nat (List.length S) - limit
            /\ Forall (fun r => snd r = false) rows2
            /\ (map fst rows1 ++ map fst rows2)%list = map project S).
Proof.
  intros similarity now db u limit q cat Hl.
  split; [reflexivity|]. split; [|split].
  - intros Hpast. unfold cursor_candidates. apply filter_ext_in. intros j Hj.
    apply In_LEFT_JOIN_categories in Hj. apply Hpast in Hj.
    apply Z.ltb_lt in Hj. cbn [effective_cursor]. rewrite Hj.
    now rewrite andb_true_r.
  - intros cursor S. eexists. split; [apply get_todos_cursor_eq; assumption|].
    fold S. split; [apply map_fst_flagged|]. split; [|split].
    + rewrite length_map, length_firstn. lia.
    + intros row Hrow. apply in_map_iff in Hrow as (j & <- & Hj).
      apply In_firstn_inv in Hj. apply cursor_sequence_In in Hj as (_ & _ & Hc).
      destruct j as [t c]. cbn [project fst snd l_created_at] in *.
      split; [exact Hc|]. apply Z.ltb_lt.
    + eapply StronglySorted_map;
        [|apply StronglySorted_firstn, cursor_sequence_sorted].
      intros [t1 c1] [t2 c2] Hb. unfold created_desc in Hb. apply Z.leb_le in Hb.
      exact Hb.
  - intros cursor now'. now apply get_todos_cursor_two_pages.
Qed.

(** 25 todos with distinct timestamps and a limit of 20: 20 rows flagged
    true, then the remaining 5 flagged false. *)
Lemma get_todos_cursor_pagination_witness :
  exists rows1 init last_row rows2,
    get_todos_cursor pg_trgm_similarity 5000
      (db_25_todos (fun k => 1000 + Z.of_nat k)) 10%N None 20 None None = Ok rows1
    /\ rows1 = (init ++ [last_row])%list
    /\ Z.of_nat (List.length rows1) = 20
    /\ Forall (fun r => snd r = true) rows1
    /\ get_todos_cursor pg_trgm_similarity 6000
         (db_25_todos (fun k => 1000 + Z.of_nat k)) 10%N
         (Some (l_created_at (fst last_row))) 20 None None = Ok rows2
    /\ Z.of_nat (List.length rows2) = 25 - 20
    /\ Forall (fun r => snd r = false) rows2
    /\ (map fst rows1 ++ map fst rows2)%list
       = map project
           (cursor_sequence pg_trgm_similarity
              (db_25_todos (fun k => 1000 + Z.of_nat k)) 10%N
              (effective_cursor 5000 None) None None).
Proof.
  assert (Hl : 0 <= 20 < INT_MAX) by (unfold INT_MAX; lia).
  refine (proj2 (proj2 (proj2
            (get_todos_cursor_pagination pg_trgm_similarity 5000
               (db_25_todos (fun k => 1000 + Z.of_nat k)) 10%N 20 None None Hl)))
            None 6000 _ _).
  - vm_compute. repeat (constructor; [simpl; lia|]). constructor.
  - vm_compute. split; [reflexivity|discriminate].
Defined.

(** C7 fails as stated: with 25 todos created at the same instant and a
    limit of 20, the first call returns 20 rows flagged true, and the
    second call, with the 20th row's [created_at] as cursor, returns no
    row at all: the 5 remaining todos are not strictly before it. *)
Lemma get_todos_cursor_skips_equal_timestamps :
  (exists rows1,
      get_todos_cursor pg_trgm_similarity 5000 (db_25_todos (fun _ => 100)) 10%N
                       None 20 None None = Ok rows1
      /\ List.length rows1 = 20%nat
      /\ Forall (fun r => snd r = true) rows1
      /\ map (fun r => l_created_at (fst r)) (skipn 19 rows1) = [100])
  /\ get_todos_cursor pg_trgm_similarity 5000 (db_25_todos (fun _ => 100)) 10%N
                      (Some 100) 20 None None = Ok [].
Proof.
  split; [|reflexivity].
  eexists. split; [vm_compute; reflexivity|].
  split; [reflexivity|]. split; [|reflexivity].
  repeat constructor.
Qed.

(** ** get_search_suggestions *)



















(** ** Limits of the paging functions *)

(** A negative limit is an error, and so is the largest INTEGER, for
    which [p_limit + 1] overflows. *)
Example get_todos_cursor_negative_limit :
  get_todos_cursor pg_trgm_similarity 5000 db_ranking 10%N None (-1) None None
  = Error invalid_row_count_in_limit_clause.
Proof. reflexivity. Qed.

Example get_todos_cursor_limit_overflow :
  get_todos_cursor pg_trgm_similarity 5000 db_ranking 10%N None INT_MAX None None
  = Error numeric_value_out_of_range.
Proof. reflexivity. Qed.

Example get_search_suggestions_negative_limit :
  get_search_suggestions db_ranking 10%N (Some "buy") (-1)
  = Error invalid_row_count_in_limit_clause.
Proof. reflexivity. Qed.

(** A row dated two days ahead is not before now + 1 day. *)
Example get_todos_cursor_future_rows :
  get_todos_cursor pg_trgm_similarity 0 (db_25_todos (fun _ => 2 * INTERVAL_1_day))
                   10%N None 20 None None
  = Ok [].
Proof. reflexivity. Qed.

(** The normalisation trims spaces and folds A-Z. *)
Example normalize_example : normalize (Some "  Buy Milk ") = "buy milk".
Proof. reflexivity. Qed.

Example normalize_null : normalize None = "".
Proof. reflexivity. Qed.

(** pg_trgm's documented example: similarity('word', 'two words'). *)
Example pg_trgm_similarity_example :
  pg_trgm_similarity "word" "two words" = float4 (4 # 11)
  /\ float4 (4 # 11) = (3050403 # 8388608)%Q.
Proof. split; vm_compute; reflexivity. Qed.

(** ** New-user provisioning *)

Lemma create_default_categories_fold now gen u db :
  create_default_categories now gen u db
  = with_categories db (INSERT_categories (starter_categories now gen u) (categories db)).
Proof. reflexivity. Qed.

Lemma category_conflict_app row cats extra :
  category_conflict row (cats ++ extra)
  = category_conflict row cats || category_conflict row extra.
Proof. apply existsb_app. Qed.

Lemma category_conflict_false row cats :
  (forall k, In k cats ->
     c_id k <> c_id row /\ (c_user_id k <> c_user_id row \/ c_name k <> c_name row)) ->
  category_conflict row cats = false.
Proof.
  intros H. unfold category_conflict.
  destruct (existsb _ cats) eqn:E; [|reflexivity].
  apply existsb_exists in E as (k & Hk & E).
  destruct (H k Hk) as [Hid Hun].
  apply orb_true_iff in E as [E|E].
  - apply N.eqb_eq in E. contradiction.
  - apply andb_true_iff in E as [E1 E2].
    apply N.eqb_eq in E1. apply String.eqb_eq in E2. tauto.
Qed.

Lemma has_category_app u n cats extra :
  has_category u n (cats ++ extra) = has_category u n cats || has_category u n extra.
Proof. apply existsb_app. Qed.

(** Inserting never removes a category. *)
Lemma has_category_INSERT u n row cats :
  has_category u n cats = true -> has_category u n (INSERT_category row cats) = true.
Proof.
  intros H. unfold INSERT_category. destruct (category_conflict row cats); [assumption|].
  rewrite has_category_app, H. reflexivity.
Qed.

Lemma has_category_INSERT_categories u n rows : forall cats,
  has_category u n cats = true -> has_category u n (INSERT_categories rows cats) = true.
Proof.
  induction rows as [|r rows IH]; intros cats H; simpl; [assumption|].
  apply IH. now apply has_category_INSERT.
Qed.

(** A row whose (user, name) pair is taken is skipped. *)
Lemma INSERT_category_taken row cats :
  has_category (c_user_id row) (c_name row) cats = true ->
  INSERT_category row cats = cats.
Proof.
  intros H. unfold INSERT_category.
  replace (category_conflict row cats) with true; [reflexivity|].
  symmetry. apply existsb_exists. apply existsb_exists in H as (k & Hk & E).
  exists k. split; [assumption|]. rewrite E. apply orb_true_r.
Qed.

Lemma INSERT_categories_taken rows : forall cats,
  (forall row, In row rows -> has_category (c_user_id row) (c_name row) cats = true) ->
  INSERT_categories rows cats = cats.
Proof.
  induction rows as [|r rows IH]; intros cats H; simpl; [reflexivity|].
  rewrite INSERT_category_taken by (apply H; now left).
  apply IH. intros row Hr. apply H. now right.
Qed.

(** A row whose id is not taken ends up with its (user, name) pair
    present: either it was there or the row is inserted. *)
Lemma INSERT_category_present row cats :
  (forall k, In k cats -> c_id k <> c_id row) ->
  has_category (c_user_id row) (c_name row) (INSERT_category row cats) = true.
Proof.
  intros Hid. unfold INSERT_category.
  destruct (category_conflict row cats) eqn:E.
  - apply existsb_exists in E as (k & Hk & E). apply existsb_exists.
    exists k. split; [assumption|].
    apply orb_true_iff in E as [E|E]; [|assumption].
    apply N.eqb_eq in E. now apply Hid in Hk.
  - rewrite has_category_app. unfold has_category at 2. simpl.
    rewrite N.eqb_refl, String.eqb_refl. simpl. apply orb_true_r.
Qed.

Lemma In_INSERT_category k row cats :
  In k (INSERT_category row cats) -> In k cats \/ k = row.
Proof.
  unfold INSERT_category. destruct (category_conflict row cats); [now left|].
  intros H. apply in_app_or in H as [H|[H|[]]]; auto.
Qed.

Lemma INSERT_categories_present rows : forall cats,
  NoDup (map c_id rows) ->
  (forall k row, In k cats -> In row rows -> c_id k <> c_id row) ->
  forall row, In row rows ->
    has_category (c_user_id row) (c_name row) (INSERT_categories rows cats) = true.
Proof.
  induction rows as [|r rows IH]; intros cats Hnd Hfresh row Hin; [destruct Hin|].
  simpl. inversion Hnd as [|? ? Hr Hnd']; subst.
  destruct Hin as [<-|Hin].
  - apply has_category_INSERT_categories. apply INSERT_category_present.
    intros k Hk. apply Hfresh; [assumption|now left].
  - apply IH; try assumption.
    intros k row' Hk Hrow'. apply In_INSERT_category in Hk as [Hk| ->].
    + apply Hfresh; [assumption|now right].
    + intros E. apply Hr. rewrite E. now apply in_map.
Qed.

Lemma fresh_uuids_starter now gen u db :
  fresh_uuids gen db ->
  NoDup (map c_id (starter_categories now gen u))
  /\ forall k row, In k (categories db) -> In row (starter_categories now gen u) ->
       c_id k <> c_id row.
Proof.
  intros [Hnd Hfresh]. split; [exact Hnd|].
  intros k row Hk [<-|[<-|[<-|[<-|[]]]]]; simpl; apply Hfresh; auto.
Qed.

Lemma starter_names_present now gen now' gen' u cats :
  (forall row, In row (starter_categories now gen u) ->
     has_category (c_user_id row) (c_name row) cats = true) ->
  forall row', In row' (starter_categories now' gen' u) ->
    has_category (c_user_id row') (c_name row') cats = true.
Proof.
  intros H row' [<-|[<-|[<-|[<-|[]]]]]; simpl.
  - apply (H (mk_category (gen 0%nat) u "仕事" "#EF4444" (TIMEZONE_utc now) (TIMEZONE_utc now))).
    simpl; auto.
  - apply (H (mk_category (gen 1%nat) u "個人" "#10B981" (TIMEZONE_utc now) (TIMEZONE_utc now))).
    simpl; auto.
  - apply (H (mk_category (gen 2%nat) u "勉強" "#8B5CF6" (TIMEZONE_utc now) (TIMEZONE_utc now))).
    simpl; auto.
  - apply (H (mk_category (gen 3%nat) u "買い物" "#F59E0B" (TIMEZONE_utc now) (TIMEZONE_utc now))).
    simpl; auto 6.
Qed.

(** Running the category trigger function a second time inserts nothing. *)
Lemma create_default_categories_twice now gen now' gen' u db :
  fresh_uuids gen db ->
  create_default_categories now' gen' u (create_default_categories now gen u db)
  = create_default_categories now gen u db.
Proof.
  intros Hf. destruct (fresh_uuids_starter now gen u db Hf) as [Hnd Hfresh].
  rewrite (create_default_categories_fold now' gen').
  rewrite INSERT_categories_taken.
  - now destruct db.
  - apply (starter_names_present now gen). intros row Hrow.
    rewrite create_default_categories_fold. cbn [categories with_categories].
    now apply INSERT_categories_present.
Qed.

Lemma profiles_create_default_categories now gen u db :
  profiles (create_default_categories now gen u db) = profiles db.
Proof. reflexivity. Qed.

Lemma create_profile_for_user_has_profile now gen u db :
  existsb (fun p => N.eqb (p_id p) u)
          (profiles (create_profile_for_user now gen u db)) = true.
Proof.
  unfold create_profile_for_user.
  destruct (existsb _ (profiles db)) eqn:E; [assumption|].
  rewrite profiles_create_default_categories. simpl.
  rewrite existsb_app. simpl. rewrite N.eqb_refl. apply orb_true_r.
Qed.

(** The hook does nothing for a user who already has a profile. *)
Lemma create_profile_for_user_twice now gen now' gen' u db :
  create_profile_for_user now' gen' u (create_profile_for_user now gen u db)
  = create_profile_for_user now gen u db.
Proof.
  unfold create_profile_for_user at 1.
  now rewrite create_profile_for_user_has_profile.
Qed.

Lemma NoDup4 (a b c d : uuid) :
  NoDup [a; b; c; d] ->
  a <> b /\ a <> c /\ a <> d /\ b <> c /\ b <> d /\ c <> d.
Proof.
  intros H. inversion H as [|? ? Ha H1]; subst.
  inversion H1 as [|? ? Hb H2]; subst. inversion H2 as [|? ? Hc H3]; subst.
  simpl in *. intuition congruence.
Qed.

(** For a user without categories, with fresh ids, all four rows are
    inserted. *)
Lemma create_default_categories_new_user now gen u db :
  categories_of u db = [] -> fresh_uuids gen db ->
  categories (create_default_categories now gen u db)
  = (categories db ++ starter_categories now gen u)%list.
Proof.
  intros Hnone [Hnd Hfresh].
  apply NoDup4 in Hnd as (H01 & H02 & H03 & H12 & H13 & H23).
  assert (Hold : forall i n c t,
             (i < 4)%nat ->
             category_conflict (mk_category (gen i) u n c t t) (categories db) = false).
  { intros i n c t Hi. apply category_conflict_false. intros k Hk. simpl. split.
    - now apply Hfresh.
    - left. intros E. apply N.eqb_eq in E.
      pose proof (proj1 (filter_nil_iff _ _) Hnone k Hk) as Hk'.
      simpl in Hk'. congruence. }
  assert (Hne : forall a b : uuid, a <> b -> N.eqb a b = false)
    by (intros a b; apply N.eqb_neq).
  assert (Hnew : forall i j n m c c' t,
             gen j <> gen i -> (n =? m)%string = false ->
             category_conflict (mk_category (gen i) u m c t t)
                               [mk_category (gen j) u n c' t t] = false).
  { intros i j n m c c' t Hij Hnm. unfold category_conflict. simpl.
    rewrite (Hne _ _ Hij), Hnm. now rewrite andb_false_r. }
  assert (Hstep : forall row cats extra,
             category_conflict row cats = false ->
             category_conflict row extra = false ->
             INSERT_category row (cats ++ extra) = (cats ++ extra ++ [row])%list).
  { intros row cats extra H1 H2. unfold INSERT_category.
    rewrite category_conflict_app, H1, H2. simpl. now rewrite app_assoc. }
  unfold create_default_categories, starter_categories. cbv zeta.
  cbn [categories with_categories].
  rewrite <- (app_nil_r (categories db)) at 1.
  rewrite Hstep; [|apply Hold; lia|reflexivity].
  rewrite Hstep; [|apply Hold; lia|apply Hnew; [assumption|reflexivity]].
  rewrite Hstep; [|apply Hold; lia|].
  2:{ cbn [app].
      change (category_conflict ?r [?a; ?b])
        with (category_conflict r ([a] ++ [b])).
      rewrite category_conflict_app, !Hnew; auto. }
  rewrite Hstep; [|apply Hold; lia|].
  2:{ cbn [app].
      change (category_conflict ?r [?a; ?b; ?c])
        with (category_conflict r ([a] ++ [b] ++ [c])).
      rewrite !category_conflict_app, !Hnew; auto. }
  reflexivity.
Qed.

Lemma filter_app_nil_l {A} (f : A -> bool) (l l' : list A) :
  filter f l = [] -> (forall x, In x l' -> f x = true) ->
  filter f (l ++ l') = l'.
Proof.
  intros Hl Hl'. rewrite filter_app, Hl. simpl.
  induction l' as [|x l' IH]; simpl; [reflexivity|].
  rewrite (Hl' x (or_introl eq_refl)), IH; [reflexivity|].
  intros y Hy. apply Hl'. now right.
Qed.

(** C9. The provisioning hook ([create_profile_for_user], which fires
    [create_default_categories] for the profile row it inserts) is
    idempotent: a second invocation for the same user changes nothing.
    The category trigger function itself, run twice for the same user,
    also inserts nothing the second time, every starter name being
    taken (ids drawn by [gen_random_uuid()] being fresh).  For a new
    user (no profile, no categories) the hook leaves exactly one profile
    row and exactly the four starter categories, also after a second
    invocation. *)
Theorem provisioning_hook_idempotent :
  forall now gen now' gen' u db,
    create_profile_for_user now' gen' u (create_profile_for_user now gen u db)
    = create_profile_for_user now gen u db
    /\ (fresh_uuids gen db ->
        create_default_categories now' gen' u (create_default_categories now gen u db)
        = create_default_categories now gen u db)
    /\ (profiles_of u db = [] -> categories_of u db = [] -> fresh_uuids gen db ->
        let db2 := create_profile_for_user now' gen' u
                     (create_profile_for_user now gen u db) in
        categories_of u db2 = starter_categories now gen u
        /\ List.length (categories_of u db2) = 4%nat
        /\ map c_name (categories_of u db2) = ["仕事"; "個人"; "勉強"; "買い物"]
        /\ profiles_of u db2 = [mk_profile u (TIMEZONE_utc now) (TIMEZONE_utc now)]).
Proof.
  intros now gen now' gen' u db. split; [apply create_profile_for_user_twice|].
  split; [apply create_default_categories_twice|].
  intros Hp Hc Hf db2. subst db2. rewrite create_profile_for_user_twice.
  assert (Hno : existsb (fun p => N.eqb (p_id p) u) (profiles db) = false).
  { destruct (existsb _ (profiles db)) eqn:E; [|reflexivity].
    apply existsb_exists in E as (p & Hin & E).
    pose proof (proj1 (filter_nil_iff _ _) Hp p Hin). congruence. }
  unfold create_profile_for_user. rewrite Hno.
  assert (Hcats : categories_of u
                    (create_default_categories now gen u
                       (with_profiles db
                          (profiles db
                           ++ [mk_profile u (TIMEZONE_utc now) (TIMEZONE_utc now)])))
                  = starter_categories now gen u).
  { unfold categories_of.
    rewrite create_default_categories_new_user by assumption.
    cbn [categories with_profiles].
    apply filter_app_nil_l; [exact Hc|].
    intros k [<-|[<-|[<-|[<-|[]]]]]; simpl; apply N.eqb_refl. }
  rewrite Hcats. repeat split.
  unfold profiles_of. rewrite profiles_create_default_categories.
  cbn [profiles with_profiles].
  apply filter_app_nil_l; [exact Hp|].
  intros p [<-|[]]. simpl. apply N.eqb_refl.
Qed.

Lemma provisioning_hook_idempotent_witness :
  create_default_categories 2000 (uuid_from 200) 7%N
    (create_default_categories 1000 (uuid_from 100) 7%N db_empty)
  = create_default_categories 1000 (uuid_from 100) 7%N db_empty
  /\ List.length
       (categories_of 7%N
          (create_profile_for_user 2000 (uuid_from 200) 7%N
             (create_profile_for_user 1000 (uuid_from 100) 7%N db_empty))) = 4%nat.
Proof.
  destruct (provisioning_hook_idempotent 1000 (uuid_from 100) 2000 (uuid_from 200)
              7%N db_empty) as (_ & H2 & H3).
  assert (Hf : fresh_uuids (uuid_from 100) db_empty).
  { split.
    - repeat constructor; simpl; intuition discriminate.
    - intros i k _ []. }
  split.
  - exact (H2 Hf).
  - exact (proj1 (proj2 (H3 eq_refl eq_refl Hf))).
Defined.

(** * Further properties of the stored procedures *)

(** ** Constraints kept by the computations *)

Section Keeps.
Context (Inv : database -> Prop).

Lemma keeps_ret {A} (a : A) : keeps Inv (ret a).
Proof. intros db a' db' H E. injection E as _ <-. exact H. Qed.

Lemma keeps_RAISE {A} e : keeps Inv (@RAISE A e).
Proof. intros db a db' _ E. discriminate E. Qed.

Lemma keeps_bind {A B} (m : plpgsql A) (k : A -> plpgsql B) :
  keeps Inv m -> (forall a, keeps Inv (k a)) -> keeps Inv (bind m k).
Proof.
  intros Hm Hk db b db' H E. unfold bind in E.
  destruct (m db) as [a d|e] eqn:Em; [|discriminate].
  exact (Hk a d b db' (Hm db a d H Em) E).
Qed.

Lemma keeps_IF_THEN c body : keeps Inv body -> keeps Inv (IF_THEN c body).
Proof.
  intros Hb. unfold IF_THEN. destruct (is_true c); [exact Hb|apply keeps_ret].
Qed.

Lemma keeps_FOREACH {A S} (a : list A) (body : A -> S -> plpgsql S) :
  (forall x s, keeps Inv (body x s)) -> forall s, keeps Inv (FOREACH a body s).
Proof.
  intros Hb. induction a as [|x rest IH]; intros s; cbn [FOREACH].
  - apply keeps_ret.
  - apply keeps_bind; [apply Hb|exact IH].
Qed.

Lemma keeps_BEGIN_EXCEPTION {A} (body : plpgsql A) handler :
  keeps Inv body -> (forall e, keeps Inv (handler e)) ->
  keeps Inv (BEGIN_EXCEPTION body handler).
Proof.
  intros Hb Hh db a db' H E. unfold BEGIN_EXCEPTION in E.
  destruct (body db) as [a0 d|e] eqn:Eb.
  - injection E as <- <-. exact (Hb db _ _ H Eb).
  - exact (Hh e db a db' H E).
Qed.

Lemma keeps_EXISTS_categories cond : keeps Inv (EXISTS_categories cond).
Proof. intros db a db' H E. injection E as _ <-. exact H. Qed.

Lemma keeps_EXISTS_todos cond : keeps Inv (EXISTS_todos cond).
Proof. intros db a db' H E. injection E as _ <-. exact H. Qed.
End Keeps.

Lemma map_id_if_key {K} (key : todo -> K) (sel : todo -> bool) (upd : todo -> todo) rows :
  (forall r, key (upd r) = key r) ->
  map key (map (fun r => if sel r then upd r else r) rows) = map key rows.
Proof.
  intros H. rewrite map_map. apply map_ext. intros r. now destruct (sel r).
Qed.

Lemma forallb_fk_In cats rows (sel : todo -> bool) now assign r :
  forallb (fk_category_ok cats)
          (map (fun r => (r, updated_row now assign r)) (filter sel rows)) = true ->
  In r rows -> sel r = true ->
  fk_category_ok cats (r, updated_row now assign r) = true.
Proof.
  intros H Hr Hs. rewrite forallb_forall in H. apply H.
  apply in_map_iff. exists r. split; [reflexivity|]. now apply filter_In.
Qed.

(** UPDATE keeps the primary key and the foreign key of [todos]. *)
Lemma keeps_UPDATE_todos now cond assign :
  keeps todos_constraints (UPDATE_todos now cond assign).
Proof.
  intros db rows db' [Hpk Hfk] E. rewrite UPDATE_todos_eq in E.
  destruct (forallb _ (todos db)); [|discriminate].
  destruct (forallb (fk_category_ok _) _) eqn:Efk; [|discriminate].
  injection E as _ <-. split.
  - unfold todos_pkey in *. cbn [todos with_todos].
    now rewrite (map_id_if_key id cond (updated_row now assign)).
  - intros t' Ht'. cbn [todos with_todos] in Ht'.
    apply in_map_iff in Ht' as (r & <- & Hr).
    unfold category_ref_ok. cbn [categories with_todos].
    destruct (cond r) eqn:Ec; [|exact (Hfk r Hr)].
    pose proof (forallb_fk_In _ _ _ _ _ r Efk Hr Ec) as Hok.
    unfold fk_category_ok in Hok.
    destruct (category_id (updated_row now assign r)) as [c|]; [|reflexivity].
    apply orb_true_iff in Hok as [Hsame|Hex]; [|exact Hex].
    specialize (Hfk r Hr). destruct (category_id r) as [c0|]; [|discriminate].
    simpl in Hsame. apply N.eqb_eq in Hsame. subst c0. exact Hfk.
Qed.

(** DELETE keeps them too. *)
Lemma keeps_DELETE_FROM_todos cond : keeps todos_constraints (DELETE_FROM_todos cond).
Proof.
  intros db n db' [Hpk Hfk] E. injection E as _ <-. split.
  - unfold todos_pkey. cbn [todos with_todos]. now apply NoDup_map_filter.
  - intros t Ht. cbn [todos with_todos] in Ht. apply filter_In in Ht as [Ht _].
    exact (Hfk t Ht).
Qed.

Lemma keeps_frame_UPDATE_todos db0 now (cond : database -> todo -> bool) assign :
  keeps (todos_constraints_frame db0)
        (fun db => UPDATE_todos now (cond db) assign db).
Proof.
  intros db rows db' (Hc & Hcat & Hprof) E. split.
  - exact (keeps_UPDATE_todos now (cond db) assign db rows db' Hc E).
  - apply UPDATE_todos_Return in E as [_ ->]. cbn [categories profiles with_todos]. auto.
Qed.

Lemma keeps_frame_DELETE_FROM_todos db0 cond :
  keeps (todos_constraints_frame db0) (DELETE_FROM_todos cond).
Proof.
  intros db n db' (Hc & Hcat & Hprof) E. split.
  - exact (keeps_DELETE_FROM_todos cond db n db' Hc E).
  - injection E as _ <-. cbn [categories profiles with_todos]. auto.
Qed.

Ltac keeps_step db0 :=
  first
    [ apply keeps_BEGIN_EXCEPTION
    | apply keeps_bind
    | apply keeps_IF_THEN
    | apply keeps_FOREACH
    | apply keeps_RAISE
    | apply keeps_ret
    | apply keeps_EXISTS_categories
    | apply keeps_EXISTS_todos
    | apply (keeps_frame_UPDATE_todos db0 _ (fun _ => _))
    | apply (keeps_frame_UPDATE_todos db0)
    | apply keeps_frame_DELETE_FROM_todos
    | match goal with |- forall _, _ => intro end ].

(** X1. Whatever they return, the stored procedures of
    transaction_schema_fixed.sql leave [todos] with its primary key and
    with every [category_id] NULL or the id of a category, and do not
    touch [categories] or [profiles]. *)
Theorem stored_procedures_keep_constraints :
  forall db0 now u ids b c tid ttl v,
    keeps (todos_constraints_frame db0) (bulk_update_todos now u ids b)
    /\ keeps (todos_constraints_frame db0) (bulk_update_todos_efficient now u ids b)
    /\ keeps (todos_constraints_frame db0) (bulk_update_todos_ordered now u ids b)
    /\ keeps (todos_constraints_frame db0) (bulk_change_category now u ids c)
    /\ keeps (todos_constraints_frame db0) (bulk_delete_todos u ids)
    /\ keeps (todos_constraints_frame db0) (update_todo_with_version now u tid ttl b c v).
Proof.
  intros db0 now u ids b c tid ttl v.
  split; [|split; [|split; [|split; [|split]]]].
  - unfold bulk_update_todos. repeat keeps_step db0.
  - unfold bulk_update_todos_efficient. repeat keeps_step db0.
  - unfold bulk_update_todos_ordered. repeat keeps_step db0.
  - unfold bulk_change_category. keeps_step db0; [|unfold WHEN_OTHERS; repeat keeps_step db0].
    keeps_step db0; [destruct c|]; repeat keeps_step db0.
  - unfold bulk_delete_todos. repeat keeps_step db0.
  - unfold update_todo_with_version. keeps_step db0; [|repeat keeps_step db0].
    keeps_step db0; [repeat keeps_step db0|]. intros rows.
    keeps_step db0; [|repeat keeps_step db0].
    keeps_step db0. keeps_step db0; [repeat keeps_step db0|].
    intros found. destruct (negb found); apply keeps_RAISE.
Qed.

(** ** The ordered bulk update *)

Lemma eq_ANY_In x ids : eq_ANY x ids = true <-> In x ids.
Proof.
  unfold eq_ANY. rewrite existsb_exists. split.
  - intros (y & Hy & E). apply N.eqb_eq in E. now subst.
  - intros H. exists x. split; [assumption|apply N.eqb_refl].
Qed.

Lemma NoDup_map_injective {Row Key} (key : Row -> Key) rows x y :
  NoDup (map key rows) -> In x rows -> In y rows -> key x = key y -> x = y.
Proof.
  induction rows as [|r rows IH]; simpl; intros Hnd Hx Hy E; [destruct Hx|].
  inversion Hnd as [|? ? Hr Hnd']; subst.
  destruct Hx as [<-|Hx], Hy as [<-|Hy]; auto.
  - exfalso. apply Hr. rewrite E. now apply in_map.
  - exfalso. apply Hr. rewrite <- E. now apply in_map.
Qed.

Lemma UPDATE_todos_ext_in now cond cond' assign db :
  (forall r, In r (todos db) -> cond r = cond' r) ->
  UPDATE_todos now cond assign db = UPDATE_todos now cond' assign db.
Proof.
  intros H. rewrite !UPDATE_todos_eq.
  rewrite (forallb_ext_in (fun r => implb (cond r) (can_increment r))
                          (fun r => implb (cond' r) (can_increment r)))
    by (intros r Hr; now rewrite (H r Hr)).
  rewrite (filter_ext_in cond cond' (todos db) H).
  rewrite (map_ext_in (fun r => if cond r then updated_row now assign r else r)
                      (fun r => if cond' r then updated_row now assign r else r))
    by (intros r Hr; now rewrite (H r Hr)).
  reflexivity.
Qed.

(** Under the primary key, the rows whose id was locked are the caller's
    requested rows. *)
Lemma locked_ids_owned_in u ids db r :
  todos_pkey db -> In r (todos db) ->
  eq_ANY (id r) (locked_ids u ids db) = owned_in u ids r.
Proof.
  intros Hpk Hr. unfold locked_ids. fold (owned_in u ids).
  destruct (owned_in u ids r) eqn:Eo.
  - apply eq_ANY_In, in_map, ORDER_BY_In, filter_In. auto.
  - destruct (eq_ANY _ _) eqn:E; [|reflexivity].
    apply eq_ANY_In, in_map_iff in E as (r' & Eid & Hr').
    apply ORDER_BY_In, filter_In in Hr' as [Hr' Ho].
    rewrite (NoDup_map_injective id _ r' r Hpk Hr' Hr Eid) in Ho. congruence.
Qed.

(** X2. Under the primary key of [todos], [bulk_update_todos_ordered]
    and [bulk_update_todos_efficient] accept the same calls: when one
    succeeds the other returns the same row and leaves the same
    database, and when one rejects the call so does the other (with its
    own message). *)
Theorem bulk_update_todos_ordered_agrees :
  forall now u ids b db,
    todos_pkey db ->
    forall r db',
      bulk_update_todos_efficient now u ids b db = Return r db' ->
      (success r = true -> bulk_update_todos_ordered now u ids b db = Return r db')
      /\ (success r = false ->
          rejected (bulk_update_todos_ordered now u ids b db) db /\ db' = db).
Proof.
  intros now u ids b db Hpk r db'.
  unfold bulk_update_todos_efficient, bulk_update_todos_ordered, BEGIN_EXCEPTION, bind.
  fold (owned_in u ids).
  rewrite (UPDATE_todos_ext_in now (fun t => eq_ANY (id t) (locked_ids u ids db))
                               (owned_in u ids) _ db)
    by (intros t Ht; now apply locked_ids_owned_in).
  destruct (UPDATE_todos now (owned_in u ids) (SET_is_complete b) db) as [rows db1|e].
  - unfold IF_THEN, RAISE, ret, WHEN_OTHERS.
    destruct (is_true (int4ne (ROW_COUNT rows) (array_length ids))).
    + intros E. injection E as <- <-. split; [discriminate|].
      intros _. split; [|reflexivity]. eexists. reflexivity.
    + intros E. injection E as <- <-. split; [reflexivity|discriminate].
  - unfold WHEN_OTHERS, ret. intros E. injection E as <- <-.
    split; [discriminate|]. intros _. split; [|reflexivity]. eexists. reflexivity.
Qed.

(** ** What a successful bulk operation certifies *)

Lemma IF_count_Return_inv {A} (n : Z) (ids : list A) e db u d :
  IF_THEN (int4ne n (array_length ids)) (RAISE e) db = Return u d ->
  d = db /\ n = Z.of_nat (List.length ids) \/ d = db /\ ids = [].
Proof.
  destruct ids as [|x ids]; [intros H; right; split; [|reflexivity]|].
  - now apply IF_THEN_RAISE_inv in H.
  - unfold IF_THEN, int4ne, array_length, is_true.
    destruct (n =? _) eqn:E; simpl; [|discriminate].
    intros H. injection H as <-. apply Z.eqb_eq in E. left. auto.
Qed.

(** Under the primary key, a full count means that the requested ids are
    pairwise distinct and each names a row of the caller. *)
Lemma rows_affected_full u ids db :
  todos_pkey db ->
  rows_affected u ids db = Z.of_nat (List.length ids) ->
  NoDup ids
  /\ forall i, In i ids -> exists t, In t (todos db) /\ id t = i /\ user_id t = u.
Proof.
  intros Hpk Hlen. unfold rows_affected in Hlen.
  set (matched := filter (owned_in u ids) (todos db)) in *.
  assert (Hnd : NoDup (map id matched)) by now apply NoDup_map_filter.
  assert (Hincl : incl (map id matched) ids).
  { intros x Hx. apply in_map_iff in Hx as (r & <- & Hm).
    apply filter_In in Hm as [_ Ho]. now apply owned_in_true in Ho as [Ho _]. }
  assert (Hle : (List.length ids <= List.length (map id matched))%nat)
    by (rewrite length_map; lia).
  split.
  - exact (NoDup_incl_NoDup Hnd Hle Hincl).
  - intros i Hi. apply (NoDup_length_incl Hnd Hle Hincl) in Hi.
    apply in_map_iff in Hi as (t & Et & Ht). apply filter_In in Ht as [Ht Ho].
    apply owned_in_true in Ho as [_ Ho]. eauto.
Qed.

Lemma rows_affected_nil_facts u db :
  NoDup (@nil uuid)
  /\ forall i, In i (@nil uuid) -> exists t, In t (todos db) /\ id t = i /\ user_id t = u.
Proof. split; [constructor|intros i []]. Qed.

Lemma bulk_delete_todos_success u ids db r db' :
  bulk_delete_todos u ids db = Return r db' -> success r = true ->
  db' = with_todos db (filter (fun t => negb (owned_in u ids t)) (todos db))
  /\ updated_count r = rows_affected u ids db
  /\ (rows_affected u ids db = Z.of_nat (List.length ids)).
Proof.
  intros H Hs. apply WHEN_OTHERS_success in H; [|assumption].
  unfold bind, DELETE_FROM_todos in H. fold (owned_in u ids) in H.
  fold (rows_affected u ids db) in H.
  destruct (IF_THEN _ _ _) as [[] d|e] eqn:E; [|discriminate].
  injection H as <- <-.
  apply IF_count_Return_inv in E as [[-> E]|[-> ->]]; repeat split; auto.
  apply rows_affected_nil.
Qed.

(** X3. Under the primary key, when [bulk_delete_todos] returns
    [success = true], the requested ids were pairwise distinct, each
    named a todo of the caller, the returned count is their number, and
    the table afterwards holds exactly the rows whose id was not
    requested. *)
Theorem bulk_delete_todos_success_certifies :
  forall u ids db r db',
    todos_pkey db ->
    bulk_delete_todos u ids db = Return r db' -> success r = true ->
    NoDup ids
    /\ updated_count r = Z.of_nat (List.length ids)
    /\ (forall i, In i ids -> exists t, In t (todos db) /\ id t = i /\ user_id t = u)
    /\ (forall t, In t (todos db') <-> In t (todos db) /\ ~ In (id t) ids)
    /\ categories db' = categories db.
Proof.
  intros u ids db r db' Hpk H Hs.
  destruct (bulk_delete_todos_success u ids db r db' H Hs) as (-> & Hc & Hfull).
  destruct (rows_affected_full u ids db Hpk Hfull) as [Hnd Hown].
  split; [exact Hnd|]. split; [congruence|]. split; [exact Hown|].
  split; [|reflexivity].
  intros t. cbn [todos with_todos]. rewrite filter_In, negb_true_iff. split.
  - intros [Ht Ho]. split; [assumption|]. intros Hi.
    destruct (Hown _ Hi) as (t' & Ht' & Eid & Eu).
    rewrite (NoDup_map_injective id _ t' t Hpk Ht' Ht Eid) in Eu.
    assert (owned_in u ids t = true) by (apply owned_in_true; auto). congruence.
  - intros [Ht Hn]. split; [assumption|].
    destruct (owned_in u ids t) eqn:E; [|reflexivity].
    apply owned_in_true in E as [E _]. contradiction.
Qed.

Lemma set_based_update_success now u ids assign (e : list todo -> sql_error) db r db' :
  (rows <- UPDATE_todos now (owned_in u ids) assign ;;
   IF_THEN (int4ne (ROW_COUNT rows) (array_length ids)) (RAISE (e rows)) ;;
   ret (mk_bulk_row true (ROW_COUNT rows) None)) db = Return r db' ->
  db' = with_todos db (map (fun t => if owned_in u ids t
                                     then updated_row now assign t else t)
                           (todos db))
  /\ updated_count r = rows_affected u ids db
  /\ rows_affected u ids db = Z.of_nat (List.length ids).
Proof.
  unfold bind. intros H.
  destruct (UPDATE_todos now (owned_in u ids) assign db) as [rows db1|e0] eqn:E;
    [|discriminate].
  apply UPDATE_todos_Return in E as [-> ->].
  destruct (IF_THEN _ _ _) as [[] d|e0] eqn:E; [|discriminate].
  injection H as <- <-.
  unfold ROW_COUNT in *. rewrite length_map in *. fold (rows_affected u ids db) in *.
  apply IF_count_Return_inv in E as [[-> E]|[-> ->]]; repeat split; auto.
  apply rows_affected_nil.
Qed.

Lemma owned_count_le_1 u v db :
  todos_pkey db -> (List.length (filter (owned_is u v) (todos db)) <= 1)%nat.
Proof.
  unfold todos_pkey. induction (todos db) as [|t rows IH]; simpl; intros Hpk; [lia|].
  inversion Hpk as [|? ? Ht Hpk']; subst.
  destruct (owned_is u v t) eqn:E; [|now apply IH].
  apply owned_is_true in E as [<- _].
  rewrite (proj2 (filter_nil_iff (owned_is u (id t)) rows)); [simpl; lia|].
  intros r Hr. destruct (owned_is u (id t) r) eqn:E; [|reflexivity].
  apply owned_is_true in E as [E _]. exfalso. apply Ht. rewrite <- E. now apply in_map.
Qed.

Lemma rows_affected_loop_full u ids db :
  todos_pkey db ->
  rows_affected_loop u ids (todos db) = Z.of_nat (List.length ids) ->
  forall i, In i ids -> exists t, In t (todos db) /\ id t = i /\ user_id t = u.
Proof.
  intros Hpk.
  assert (Hle : forall l, rows_affected_loop u l (todos db) <= Z.of_nat (List.length l)).
  { induction l as [|v l IH]; simpl; [lia|].
    pose proof (owned_count_le_1 u v db Hpk). lia. }
  induction ids as [|v rest IH]; intros Hsum i Hi; [destruct Hi|].
  cbn [rows_affected_loop List.length] in Hsum.
  pose proof (owned_count_le_1 u v db Hpk) as H1. pose proof (Hle rest) as H2.
  destruct Hi as [<-|Hi].
  - destruct (filter (owned_is u v) (todos db)) as [|t l] eqn:F; [simpl in Hsum; lia|].
    assert (Ht : In t (filter (owned_is u v) (todos db))) by (rewrite F; now left).
    apply filter_In in Ht as [Ht Ho]. apply owned_is_true in Ho as [? ?]. eauto.
  - apply IH; [lia|assumption].
Qed.

(** X4. Under the primary key, when a bulk update returns
    [success = true], every requested id named a todo of the caller and
    the returned count is the number of requested ids.  For the
    set-based functions the ids were moreover pairwise distinct and the
    table afterwards differs from the one before exactly in the
    requested rows, each rewritten once; [bulk_change_category]
    succeeds only with a NULL category or a category of the caller. *)
Theorem bulk_update_success_certifies :
  forall now u ids b c db r db',
    todos_pkey db ->
    (bulk_update_todos_efficient now u ids b db = Return r db' -> success r = true ->
     NoDup ids
     /\ updated_count r = Z.of_nat (List.length ids)
     /\ (forall i, In i ids -> exists t, In t (todos db) /\ id t = i /\ user_id t = u)
     /\ Forall2 (fun OLD NEW => if eq_ANY (id OLD) ids
                                then NEW = updated_row now (SET_is_complete b) OLD
                                else NEW = OLD)
                (todos db) (todos db'))
    /\ (bulk_change_category now u ids c db = Return r db' -> success r = true ->
        NoDup ids
        /\ updated_count r = Z.of_nat (List.length ids)
        /\ (forall i, In i ids -> exists t, In t (todos db) /\ id t = i /\ user_id t = u)
        /\ Forall2 (fun OLD NEW => if eq_ANY (id OLD) ids
                                   then NEW = updated_row now (SET_category_id c) OLD
                                   else NEW = OLD)
                   (todos db) (todos db')
        /\ match c with
           | None => True
           | Some c' => exists k, In k (categories db) /\ c_id k = c' /\ c_user_id k = u
           end)
    /\ (bulk_update_todos now u ids b db = Return r db' -> success r = true ->
        updated_count r = Z.of_nat (List.length ids)
        /\ forall i, In i ids -> exists t, In t (todos db) /\ id t = i /\ user_id t = u).
Proof.
  intros now u ids b c db r db' Hpk.
  assert (Hrows : forall assign,
            rows_affected u ids db = Z.of_nat (List.length ids) ->
            Forall2 (fun OLD NEW => if eq_ANY (id OLD) ids
                                    then NEW = updated_row now assign OLD else NEW = OLD)
                    (todos db)
                    (map (fun t => if owned_in u ids t then updated_row now assign t else t)
                         (todos db))).
  { intros assign Hfull. destruct (rows_affected_full u ids db Hpk Hfull) as [_ Hown].
    apply Forall2_map_self. intros t Ht.
    destruct (eq_ANY (id t) ids) eqn:E.
    - apply eq_ANY_In in E. destruct (Hown _ E) as (t' & Ht' & Eid & Eu).
      rewrite (NoDup_map_injective id _ t' t Hpk Ht' Ht Eid) in Eu.
      replace (owned_in u ids t) with true; [reflexivity|].
      symmetry. apply owned_in_true. split; assumption.
    - unfold owned_in. now rewrite E. }
  split; [|split].
  - intros H Hs. apply WHEN_OTHERS_success in H; [|assumption].
    fold (owned_in u ids) in H. cbv zeta in H.
    apply (set_based_update_success now u ids (SET_is_complete b)
             (fun rows =>
                raise_exception
                  ("Some todos could not be updated. Expected: "
                   ++ int4out_null (array_length ids)
                   ++ ", Updated: " ++ int4out (ROW_COUNT rows))))
      in H as (-> & Hc & Hfull).
    destruct (rows_affected_full u ids db Hpk Hfull) as [Hnd Hown].
    split; [exact Hnd|]. split; [congruence|]. split; [exact Hown|]. now apply Hrows.
  - intros H Hs. apply WHEN_OTHERS_success in H; [|assumption].
    unfold bind at 1 in H. fold (owned_in u ids) in H.
    assert (Hcat : match c with
                   | None => True
                   | Some c' =>
                       exists k, In k (categories db) /\ c_id k = c' /\ c_user_id k = u
                   end
                   /\ (rows <- UPDATE_todos now (owned_in u ids) (SET_category_id c) ;;
                       IF_THEN (int4ne (ROW_COUNT rows) (array_length ids))
                         (RAISE (raise_exception "Some todos could not be updated")) ;;
                       ret (mk_bulk_row true (ROW_COUNT rows) None)) db = Return r db').
    { destruct c as [c'|]; [|split; [exact I|exact H]].
      unfold bind at 1 in H. unfold EXISTS_categories in H.
      destruct (existsb _ (categories db)) eqn:Ex; unfold IF_THEN in H; simpl in H;
        [|discriminate].
      split; [|exact H]. apply existsb_exists in Ex as (k & Hk & Ek).
      apply andb_true_iff in Ek as [E1 E2]. apply N.eqb_eq in E1, E2. eauto. }
    destruct Hcat as [Hcat H'].
    apply (set_based_update_success now u ids (SET_category_id c)
             (fun _ => raise_exception "Some todos could not be updated"))
      in H' as (-> & Hc & Hfull).
    destruct (rows_affected_full u ids db Hpk Hfull) as [Hnd Hown].
    split; [exact Hnd|]. split; [congruence|]. split; [exact Hown|].
    split; [now apply Hrows|exact Hcat].
  - intros H Hs. rewrite bulk_update_todos_unfold in H.
    apply WHEN_OTHERS_success in H; [|assumption].
    unfold bind at 1 in H.
    destruct (FOREACH_bulk_update_outcome now u b ids 0 db) as [[d E]|[e E]];
      rewrite E in H; [|discriminate].
    unfold bind in H.
    destruct (IF_THEN _ _ d) as [[] d'|e] eqn:E2; [|discriminate].
    injection H as <- <-. cbn [updated_count].
    apply IF_count_Return_inv in E2 as [[_ E2]|[_ ->]].
    + split; [exact E2|]. apply rows_affected_loop_full; [assumption|lia].
    + split; [reflexivity|intros i []].
Qed.

(** ** Deleting a category *)

Lemma fk_set_null_ok cats now rows :
  forallb (fk_category_ok cats)
          (map (fun r => (r, updated_row now (SET_category_id None) r)) rows) = true.
Proof. induction rows as [|r rows IH]; simpl; [reflexivity|exact IH]. Qed.

Lemma UPDATE_todos_set_null now cond db :
  UPDATE_todos now cond (SET_category_id None) db =
  if forallb (fun r => implb (cond r) (can_increment r)) (todos db)
  then Return (map (updated_row now (SET_category_id None)) (filter cond (todos db)))
              (with_todos db
                 (map (fun r => if cond r
                                then updated_row now (SET_category_id None) r else r)
                      (todos db)))
  else Raised numeric_value_out_of_range.
Proof.
  rewrite UPDATE_todos_eq. destruct (forallb _ (todos db)); [|reflexivity].
  now rewrite fk_set_null_ok.
Qed.

Lemma references_any_set_null now deleted r :
  references_any deleted (updated_row now (SET_category_id None) r) = false.
Proof.
  unfold references_any. induction deleted as [|k l IH]; [reflexivity|].
  cbn [existsb]. now rewrite IH.
Qed.

(** The referential actions of one DELETE, in closed form. *)
Lemma FOREACH_set_null now deleted : forall db,
  FOREACH deleted
    (fun k (_ : unit) =>
       UPDATE_todos now (references (c_id k)) (SET_category_id None) ;; ret tt)
    tt db
  = if forallb (fun r => implb (references_any deleted r) (can_increment r)) (todos db)
    then Return tt
           (with_todos db
              (map (fun r => if references_any deleted r
                             then updated_row now (SET_category_id None) r else r)
                   (todos db)))
    else Raised numeric_value_out_of_range.
Proof.
  induction deleted as [|k rest IH]; intros db.
  - cbn [FOREACH]. unfold ret.
    replace (forallb _ (todos db)) with true
      by (symmetry; apply forallb_forall; reflexivity).
    rewrite (map_id_if (references_any []) (todos db) (fun _ _ => eq_refl)).
    now rewrite with_todos_same.
  - cbn [FOREACH]. unfold bind at 1. unfold bind at 1.
    rewrite UPDATE_todos_set_null.
    pose proof (references_any_set_null now rest) as Hnone.
    rewrite (forallb_ext_in
               (fun r => implb (references_any (k :: rest) r) (can_increment r))
               (fun r => implb (references (c_id k) r) (can_increment r)
                         && implb (references_any rest r) (can_increment r))).
    2:{ intros r _. unfold references_any. cbn [existsb].
        destruct (references (c_id k) r),
                 (existsb (fun k0 => references (c_id k0) r) rest),
                 (can_increment r); reflexivity. }
    rewrite forallb_andb.
    destruct (forallb (fun r => implb (references (c_id k) r) (can_increment r))
                      (todos db)) eqn:EA; [|reflexivity].
    rewrite forallb_forall in EA.
    unfold ret at 1. rewrite IH. cbn [todos with_todos andb].
    rewrite forallb_map.
    rewrite (forallb_ext_in
               (fun x => implb (references_any rest
                                  (if references (c_id k) x
                                   then updated_row now (SET_category_id None) x else x))
                               (can_increment
                                  (if references (c_id k) x
                                   then updated_row now (SET_category_id None) x else x)))
               (fun r => implb (references_any rest r) (can_increment r))).
    2:{ intros r Hr. specialize (EA r Hr).
        destruct (references (c_id k) r) eqn:E; [|reflexivity].
        rewrite Hnone. simpl in EA. rewrite EA.
        now destruct (references_any rest r). }
    destruct (forallb (fun r => implb (references_any rest r) (can_increment r))
                      (todos db)); [|reflexivity].
    f_equal. unfold with_todos. cbn [profiles categories todos]. f_equal.
    rewrite map_map. apply map_ext. intros r. cbn [references_any existsb].
    fold (references_any rest r).
    destruct (references (c_id k) r) eqn:E; cbn [orb]; [|reflexivity].
    now rewrite Hnone.
Qed.

Lemma references_any_own uid c cats r :
  references_any (filter (own_category uid c) cats) r
  = existsb (own_category uid c) cats && references c r.
Proof.
  unfold references_any. induction cats as [|k cats IH]; [reflexivity|].
  cbn [filter existsb]. destruct (own_category uid c k) eqn:E; cbn [existsb orb andb].
  - rewrite IH. unfold own_category in E. apply andb_true_iff in E as [E _].
    apply N.eqb_eq in E. rewrite E.
    destruct (references c r), (existsb (own_category uid c) cats); reflexivity.
  - exact IH.
Qed.

Lemma deleteCategory_eq now uid c db :
  deleteCategory now uid c db =
  if forallb (fun r => implb (existsb (own_category uid c) (categories db)
                              && references c r)
                             (can_increment r))
             (todos db)
  then Return (Z.of_nat (List.length (filter (own_category uid c) (categories db))))
         (mk_database (profiles db)
            (filter (fun k => negb (own_category uid c k)) (categories db))
            (map (fun r => if existsb (own_category uid c) (categories db)
                              && references c r
                           then updated_row now (SET_category_id None) r else r)
                 (todos db)))
  else Raised numeric_value_out_of_range.
Proof.
  unfold deleteCategory, DELETE_FROM_categories. fold (own_category uid c).
  rewrite FOREACH_set_null. cbn [todos with_categories].
  rewrite (forallb_ext_in _ _ (todos db)
             (fun r _ => f_equal (fun b => implb b (can_increment r))
                                 (references_any_own uid c (categories db) r))).
  destruct (forallb _ (todos db)); [|reflexivity].
  f_equal. unfold with_todos, with_categories. cbn [profiles categories todos]. f_equal.
  apply map_ext. intros r. now rewrite references_any_own.
Qed.

(** X5. Deleting a category never deletes a todo.  When the delete
    returns, the caller's category with that id is gone, every todo that
    referenced it has [category_id] NULL and has moved one version up,
    every other todo is untouched, and the foreign key still holds; if
    the category is not the caller's, nothing at all changes.  The
    delete raises only when a referencing todo is at the largest
    INTEGER version. *)
Theorem deleteCategory_sets_null :
  forall now uid c db,
    (forall n db',
        deleteCategory now uid c db = Return n db' ->
        categories db' = filter (fun k => negb (own_category uid c k)) (categories db)
        /\ Forall2 (fun OLD NEW =>
                      if existsb (own_category uid c) (categories db) && references c OLD
                      then NEW = updated_row now (SET_category_id None) OLD
                      else NEW = OLD)
                   (todos db) (todos db')
        /\ map id (todos db') = map id (todos db)
        /\ (existsb (own_category uid c) (categories db) = true ->
            forall t, In t (todos db') -> category_id t <> Some c)
        /\ (existsb (own_category uid c) (categories db) = false -> db' = db /\ n = 0)
        /\ (todos_category_fkey db -> todos_category_fkey db'))
    /\ (forall e,
          deleteCategory now uid c db = Raised e ->
          e = numeric_value_out_of_range
          /\ exists t, In t (todos db) /\ category_id t = Some c
                       /\ can_increment t = false).
Proof.
  intros now uid c db. rewrite deleteCategory_eq.
  set (owned := existsb (own_category uid c) (categories db)).
  set (gone := fun r => owned && references c r).
  assert (Href : forall t, references c t = true <-> category_id t = Some c).
  { intros t. unfold references. destruct (category_id t) as [x|]; simpl.
    - rewrite N.eqb_eq. split; congruence.
    - split; discriminate. }
  destruct (forallb _ (todos db)) eqn:Eall; split.
  - intros n db' E. injection E as <- <-. cbn [categories todos].
    split; [reflexivity|]. split; [|split; [|split; [|split]]].
    + apply Forall2_map_self. intros t _. fold (gone t). now destruct (gone t).
    + apply (map_id_if_key id gone (updated_row now (SET_category_id None))).
      reflexivity.
    + intros Ho t Ht. apply in_map_iff in Ht as (r & <- & _).
      fold (gone r). unfold gone. rewrite Ho. cbn [andb].
      destruct (references c r) eqn:Er; [discriminate|].
      intros E. apply Href in E. congruence.
    + intros Ho. split.
      * destruct db as [ps cs ts]. cbn [profiles categories todos] in *.
        f_equal.
        -- apply filter_all_true. intros k Hk. apply negb_true_iff.
           destruct (own_category uid c k) eqn:E; [|reflexivity].
           assert (owned = true) by (apply existsb_exists; eauto). congruence.
        -- apply map_id_if. intros r _. now rewrite Ho.
      * rewrite (proj2 (filter_nil_iff (own_category uid c) (categories db)));
          [reflexivity|].
        intros k Hk. destruct (own_category uid c k) eqn:E; [|reflexivity].
        assert (owned = true) by (apply existsb_exists; eauto). congruence.
    + intros Hfk t Ht. apply in_map_iff in Ht as (r & <- & Hr).
      fold (gone r). unfold category_ref_ok. cbn [categories].
      destruct (gone r) eqn:Eg; [reflexivity|].
      specialize (Hfk r Hr). unfold category_ref_ok in Hfk.
      destruct (category_id r) as [x|] eqn:Ex; [|reflexivity].
      apply existsb_exists in Hfk as (k & Hk & Ek). apply N.eqb_eq in Ek.
      apply existsb_exists. exists k. split; [|now apply N.eqb_eq].
      apply filter_In. split; [assumption|]. apply negb_true_iff.
      destruct (own_category uid c k) eqn:Eo; [|reflexivity].
      assert (Hown : owned = true) by (apply existsb_exists; eauto).
      unfold own_category in Eo. apply andb_true_iff in Eo as [Eo _].
      apply N.eqb_eq in Eo.
      unfold gone in Eg. rewrite Hown in Eg. cbn [andb] in Eg.
      assert (references c r = true) by (apply Href; congruence). congruence.
  - intros e E. discriminate E.
  - intros n db' E. discriminate E.
  - intros e E. injection E as <-. split; [reflexivity|].
    assert (Hex : exists t, In t (todos db)
                            /\ implb (owned && references c t) (can_increment t) = false).
    { clear -Eall. induction (todos db) as [|t l IH]; [discriminate|].
      cbn [forallb] in Eall. apply andb_false_iff in Eall as [E|E].
      - exists t. split; [now left|exact E].
      - destruct (IH E) as (t' & Ht' & E'). exists t'. split; [now right|exact E']. }
    destruct Hex as (t & Ht & E). exists t. split; [assumption|].
    destruct owned; [|discriminate]. cbn [andb] in E.
    destruct (references c t) eqn:Er; [|discriminate].
    destruct (can_increment t); [discriminate|]. split; [now apply Href|reflexivity].
Qed.

(** ** The properties above at concrete databases *)

Lemma todos_constraints_db_categorized v : todos_constraints (db_categorized v).
Proof.
  split.
  - unfold todos_pkey. simpl. repeat constructor; simpl; intuition discriminate.
  - intros t [<-|[<-|[<-|[]]]]; reflexivity.
Qed.

Lemma stored_procedures_keep_constraints_witness :
  exists r db',
    bulk_change_category 500 10%N [1%N; 2%N] (Some 7%N) (db_categorized 1) = Return r db'
    /\ success r = true
    /\ todos_constraints_frame (db_categorized 1) db'.
Proof.
  destruct (bulk_change_category 500 10%N [1%N; 2%N] (Some 7%N) (db_categorized 1))
    as [r db'|e] eqn:E; [|vm_compute in E; discriminate].
  exists r, db'. split; [reflexivity|]. split.
  - vm_compute in E. injection E as <- _. reflexivity.
  - destruct (stored_procedures_keep_constraints (db_categorized 1) 500 10%N
                [1%N; 2%N] true (Some 7%N) 1%N "x" 1) as (_ & _ & _ & H & _).
    apply (H (db_categorized 1) r db'); [|exact E].
    split; [apply todos_constraints_db_categorized|split; reflexivity].
Defined.

Lemma bulk_update_todos_ordered_agrees_witness :
  (exists r db',
      bulk_update_todos_ordered 500 10%N [2%N; 1%N] true (db_categorized 1) = Return r db'
      /\ success r = true)
  /\ rejected (bulk_update_todos_ordered 500 10%N [1%N; 3%N] true (db_categorized 1))
              (db_categorized 1).
Proof.
  assert (Hpk : todos_pkey (db_categorized 1)) by apply todos_constraints_db_categorized.
  split.
  - destruct (bulk_update_todos_efficient 500 10%N [2%N; 1%N] true (db_categorized 1))
      as [r db'|e] eqn:E; [|vm_compute in E; discriminate].
    assert (Hs : success r = true) by (vm_compute in E; injection E as <- _; reflexivity).
    exists r, db'. split; [|exact Hs].
    exact (proj1 (bulk_update_todos_ordered_agrees 500 10%N [2%N; 1%N] true
                    (db_categorized 1) Hpk r db' E) Hs).
  - destruct (bulk_update_todos_efficient 500 10%N [1%N; 3%N] true (db_categorized 1))
      as [r db'|e] eqn:E; [|vm_compute in E; discriminate].
    assert (Hs : success r = false) by (vm_compute in E; injection E as <- _; reflexivity).
    exact (proj1 (proj2 (bulk_update_todos_ordered_agrees 500 10%N [1%N; 3%N] true
                           (db_categorized 1) Hpk r db' E) Hs)).
Defined.

Lemma bulk_delete_todos_success_certifies_witness :
  exists r db',
    bulk_delete_todos 10%N [2%N; 1%N] (db_categorized 1) = Return r db'
    /\ updated_count r = 2
    /\ forall t, In t (todos db') <-> In t (todos (db_categorized 1))
                                      /\ ~ In (id t) [2%N; 1%N].
Proof.
  assert (Hpk : todos_pkey (db_categorized 1)) by apply todos_constraints_db_categorized.
  destruct (bulk_delete_todos 10%N [2%N; 1%N] (db_categorized 1))
    as [r db'|e] eqn:E; [|vm_compute in E; discriminate].
  assert (Hs : success r = true) by (vm_compute in E; injection E as <- _; reflexivity).
  exists r, db'. split; [reflexivity|].
  destruct (bulk_delete_todos_success_certifies 10%N [2%N; 1%N] (db_categorized 1)
              r db' Hpk E Hs) as (_ & Hc & _ & Hrows & _).
  split; [exact Hc|exact Hrows].
Defined.

Lemma bulk_update_success_certifies_witness :
  exists r db',
    bulk_change_category 500 10%N [2%N; 1%N] (Some 7%N) (db_categorized 1) = Return r db'
    /\ NoDup [2%N; 1%N]
    /\ updated_count r = 2
    /\ exists k, In k (categories (db_categorized 1)) /\ c_id k = 7%N /\ c_user_id k = 10%N.
Proof.
  assert (Hpk : todos_pkey (db_categorized 1)) by apply todos_constraints_db_categorized.
  destruct (bulk_change_category 500 10%N [2%N; 1%N] (Some 7%N) (db_categorized 1))
    as [r db'|e] eqn:E; [|vm_compute in E; discriminate].
  assert (Hs : success r = true) by (vm_compute in E; injection E as <- _; reflexivity).
  exists r, db'. split; [reflexivity|].
  destruct (bulk_update_success_certifies 500 10%N [2%N; 1%N] true (Some 7%N)
              (db_categorized 1) r db' Hpk) as (_ & H & _).
  destruct (H E Hs) as (Hnd & Hc & _ & _ & Hk).
  split; [exact Hnd|]. split; [exact Hc|exact Hk].
Defined.

Lemma deleteCategory_sets_null_witness :
  (exists n db',
      deleteCategory 500 10%N 7%N (db_categorized 1) = Return n db'
      /\ map id (todos db') = [1%N; 2%N; 3%N]
      /\ forall t, In t (todos db') -> category_id t <> Some 7%N)
  /\ (exists n,
        deleteCategory 500 10%N 8%N (db_categorized 1) = Return n (db_categorized 1)
        /\ n = 0)
  /\ deleteCategory 500 10%N 7%N (db_categorized INT_MAX)
     = Raised numeric_value_out_of_range.
Proof.
  split; [|split].
  - destruct (deleteCategory 500 10%N 7%N (db_categorized 1)) as [n db'|e] eqn:E;
      [|vm_compute in E; discriminate].
    exists n, db'. split; [reflexivity|].
    destruct (proj1 (deleteCategory_sets_null 500 10%N 7%N (db_categorized 1)) n db' E)
      as (_ & _ & Hid & Hnull & _).
    split; [exact Hid|]. apply Hnull. reflexivity.
  - destruct (deleteCategory 500 10%N 8%N (db_categorized 1)) as [n db'|e] eqn:E;
      [|vm_compute in E; discriminate].
    destruct (proj1 (deleteCategory_sets_null 500 10%N 8%N (db_categorized 1)) n db' E)
      as (_ & _ & _ & _ & Hnot & _).
    destruct (Hnot eq_refl) as [-> ->]. exists 0. split; reflexivity.
  - destruct (deleteCategory 500 10%N 7%N (db_categorized INT_MAX)) as [n db'|e] eqn:E;
      [vm_compute in E; discriminate|].
    destruct (proj2 (deleteCategory_sets_null 500 10%N 7%N (db_categorized INT_MAX)) e
                E) as [-> _].
    reflexivity.
Defined.

(** * Further properties of the provisioning triggers *)

Lemma NoDup_snoc {Key} (keys : list Key) (fresh : Key) :
  NoDup keys -> ~ In fresh keys -> NoDup (keys ++ [fresh]).
Proof.
  intros Hnd Hfresh. apply (Permutation_NoDup (Permutation_cons_append keys fresh)).
  now constructor.
Qed.

Lemma category_conflict_false_inv row cats :
  category_conflict row cats = false ->
  ~ In (c_id row) (map c_id cats)
  /\ ~ In (c_user_id row, c_name row) (map (fun k => (c_user_id k, c_name k)) cats).
Proof.
  unfold category_conflict. intros E. split; intros H;
    apply in_map_iff in H as (k & Ek & Hk);
    assert (Hc : existsb (fun k => N.eqb (c_id k) (c_id row)
                    || (N.eqb (c_user_id k) (c_user_id row)
                        && String.eqb (c_name k) (c_name row))) cats = true);
    try congruence; apply existsb_exists; exists k; (split; [assumption|]).
  - rewrite Ek, N.eqb_refl. reflexivity.
  - injection Ek as -> ->. rewrite N.eqb_refl, String.eqb_refl. apply orb_true_r.
Qed.

(** One row of INSERT ... ON CONFLICT DO NOTHING keeps both constraints
    of [categories] and only ever appends. *)
Lemma INSERT_category_keeps row cats :
  categories_pkey cats -> categories_user_id_name_key cats ->
  categories_pkey (INSERT_category row cats)
  /\ categories_user_id_name_key (INSERT_category row cats).
Proof.
  unfold categories_pkey, categories_user_id_name_key, INSERT_category.
  intros Hpk Hun. destruct (category_conflict row cats) eqn:E; [now split|].
  apply category_conflict_false_inv in E as [E1 E2].
  rewrite !map_app. cbn [map]. split; now apply NoDup_snoc.
Qed.

Lemma INSERT_categories_keeps rows : forall cats,
  categories_pkey cats -> categories_user_id_name_key cats ->
  categories_pkey (INSERT_categories rows cats)
  /\ categories_user_id_name_key (INSERT_categories rows cats).
Proof.
  induction rows as [|r rows IH]; intros cats Hpk Hun; [now split|].
  cbn [INSERT_categories fold_left].
  destruct (INSERT_category_keeps r cats Hpk Hun) as [Hpk' Hun'].
  exact (IH _ Hpk' Hun').
Qed.

Lemma INSERT_categories_appends rows : forall cats,
  exists added,
    INSERT_categories rows cats = (cats ++ added)%list
    /\ forall k, In k added -> In k rows.
Proof.
  induction rows as [|r rows IH]; intros cats.
  - exists []. split; [now rewrite app_nil_r|intros k []].
  - cbn [INSERT_categories fold_left]. fold (INSERT_categories rows (INSERT_category r cats)).
    destruct (IH (INSERT_category r cats)) as (added & -> & Hin).
    unfold INSERT_category. destruct (category_conflict r cats).
    + exists added. split; [reflexivity|]. intros k Hk. right. now apply Hin.
    + exists (r :: added). split; [now rewrite <- app_assoc|].
      intros k [<-|Hk]; [now left|right; now apply Hin].
Qed.

Lemma starter_categories_rows now gen u k :
  In k (starter_categories now gen u) ->
  c_user_id k = u /\ In (c_name k) starter_names.
Proof.
  unfold starter_categories, starter_names.
  intros [<-|[<-|[<-|[<-|[]]]]]; cbn; auto 6.
Qed.

(** X6. Whatever ids [gen_random_uuid()] draws, the provisioning
    triggers never violate a primary key or UNIQUE(user_id, name): they
    keep the three constraints, leave [todos] alone, never change or
    remove an existing category or profile, and add only categories of
    the new user with one of the four starter names. *)
Theorem provisioning_keeps_constraints :
  forall now gen u db,
    setup_constraints db ->
    (let db' := create_default_categories now gen u db in
     setup_constraints db'
     /\ todos db' = todos db /\ profiles db' = profiles db
     /\ exists added,
          categories db' = (categories db ++ added)%list
          /\ forall k, In k added -> c_user_id k = u /\ In (c_name k) starter_names)
    /\ (let db' := create_profile_for_user now gen u db in
        setup_constraints db'
        /\ todos db' = todos db
        /\ (exists added,
              categories db' = (categories db ++ added)%list
              /\ forall k, In k added -> c_user_id k = u /\ In (c_name k) starter_names)
        /\ (profiles db' = profiles db
            \/ exists p, profiles db' = (profiles db ++ [p])%list /\ p_id p = u)).
Proof.
  intros now gen u db (Hp & Hpk & Hun).
  assert (Hcreate : forall db1,
            profiles_pkey db1 -> categories db1 = categories db ->
            let db' := create_default_categories now gen u db1 in
            setup_constraints db'
            /\ todos db' = todos db1 /\ profiles db' = profiles db1
            /\ exists added,
                 categories db' = (categories db ++ added)%list
                 /\ forall k, In k added ->
                              c_user_id k = u /\ In (c_name k) starter_names).
  { intros db1 Hp1 Hc. cbv zeta. rewrite create_default_categories_fold, Hc.
    destruct (INSERT_categories_keeps (starter_categories now gen u) (categories db)
                Hpk Hun) as [Hpk' Hun'].
    destruct (INSERT_categories_appends (starter_categories now gen u) (categories db))
      as (added & E & Hin).
    split; [|split; [reflexivity|split; [reflexivity|]]].
    - split; [exact Hp1|]. cbn [categories with_categories]. now split.
    - exists added. cbn [categories with_categories]. split; [exact E|].
      intros k Hk. apply (starter_categories_rows now gen). now apply Hin. }
  split; [exact (Hcreate db Hp eq_refl)|].
  cbv zeta. unfold create_profile_for_user.
  destruct (existsb (fun p => N.eqb (p_id p) u) (profiles db)) eqn:E.
  - split; [now repeat split|]. split; [reflexivity|]. split; [|now left].
    exists []. split; [now rewrite app_nil_r|intros k []].
  - set (db1 := with_profiles db _).
    assert (Hp1 : profiles_pkey db1).
    { unfold profiles_pkey, db1. cbn [profiles with_profiles]. rewrite map_app.
      apply NoDup_snoc; [exact Hp|]. cbn [p_id map]. intros Hin.
      apply in_map_iff in Hin as (p & Ep & Hin).
      assert (existsb (fun p => N.eqb (p_id p) u) (profiles db) = true); [|congruence].
      apply existsb_exists. exists p. split; [assumption|]. now apply N.eqb_eq. }
    destruct (Hcreate db1 Hp1 eq_refl) as (Hc & Ht & Hpr & Hadd).
    split; [exact Hc|]. split; [exact Ht|]. split; [exact Hadd|].
    right. eexists. split; [rewrite Hpr; reflexivity|reflexivity].
Qed.

Lemma provisioning_keeps_constraints_witness :
  setup_constraints
    (create_profile_for_user 500 (fun _ => 7%N) 10%N (db_categorized 1))
  /\ setup_constraints
       (create_profile_for_user 500 (fun _ => 7%N) 30%N (db_categorized 1)).
Proof.
  assert (H : setup_constraints (db_categorized 1)).
  { unfold setup_constraints, profiles_pkey, categories_pkey,
      categories_user_id_name_key. cbn.
    repeat split; repeat constructor; cbn; intuition discriminate. }
  split.
  - exact (proj1 (proj2 (provisioning_keeps_constraints 500 (fun _ => 7%N) 10%N
                           (db_categorized 1) H))).
  - exact (proj1 (proj2 (provisioning_keeps_constraints 500 (fun _ => 7%N) 30%N
                           (db_categorized 1) H))).
Defined.

(** * Pages of the todo list *)

(** ** Page numbers *)

Lemma CEIL_div_20 (count : Z) :
  CEIL (inject_Z count / inject_Z 20)%Q = (count + 19) / 20.
Proof.
  unfold CEIL, Qceiling, Qfloor, Qdiv, Qmult, Qinv, Qopp, inject_Z. cbn.
  rewrite Z.mul_1_r. Z.to_euclidean_division_equations. lia.
Qed.

Lemma length_filter_LEFT_JOIN (keep : todo -> bool) db :
  List.length (filter (fun j => keep (fst j)) (LEFT_JOIN_categories db))
  = List.length (filter keep (todos db)).
Proof.
  unfold LEFT_JOIN_categories.
  induction (todos db) as [|t rows IH]; [reflexivity|].
  cbn [map filter fst]. destruct (keep t); cbn [List.length]; now rewrite IH.
Qed.

Lemma search_todos_pages similarity db u q cat limit offset :
  search_todos similarity db u q cat limit offset
  = LIMIT_OFFSET limit offset (search_sequence similarity db u q cat).
Proof. reflexivity. Qed.

Lemma search_sequence_length similarity db u q cat :
  List.length (search_sequence similarity db u q cat)
  = List.length (filter (fun t => N.eqb (user_id t) u
                                  && search_filter similarity (normalize q) t
                                  && category_filter cat t)
                        (todos db)).
Proof.
  unfold search_sequence. cbv zeta. rewrite length_map, ORDER_BY_length.
  apply (length_filter_LEFT_JOIN
           (fun t => N.eqb (user_id t) u
                     && search_filter similarity (normalize q) t
                     && category_filter cat t)).
Qed.

Lemma get_pagination_info_eq similarity db u q cat :
  Z.of_nat (List.length (todos db)) <= INT_MAX ->
  get_pagination_info similarity db u q cat
  = Ok (mk_pagination_info
          (Z.of_nat (List.length (search_sequence similarity db u q cat)))
          ((Z.of_nat (List.length (search_sequence similarity db u q cat)) + 19) / 20)
          20).
Proof.
  intros Hmax. unfold get_pagination_info. cbv zeta.
  rewrite search_sequence_length. unfold COUNT, int84.
  set (matching := filter _ (todos db)).
  assert (Hle : (List.length matching <= List.length (todos db))%nat)
    by apply filter_length_le.
  replace ((INT_MIN <=? Z.of_nat (List.length matching))
           && (Z.of_nat (List.length matching) <=? INT_MAX)) with true.
  - now rewrite CEIL_div_20.
  - symmetry. apply andb_true_iff. unfold INT_MIN, INT_MAX in *.
    split; apply Z.leb_le; lia.
Qed.

Lemma firstn_add {Row} (a b : nat) (rows : list Row) :
  firstn (a + b) rows = (firstn a rows ++ firstn b (skipn a rows))%list.
Proof.
  revert rows. induction a as [|a IH]; intros rows; [reflexivity|].
  destruct rows as [|r rows]; cbn [Nat.add firstn skipn app].
  - now rewrite firstn_nil.
  - now rewrite IH.
Qed.

(** Consecutive pages of one size make up the front of the list. *)
Lemma concat_pages {Row} (size : nat) (rows : list Row) : forall n start,
  List.concat (map (fun k => firstn size (skipn (size * k) rows)) (seq start n))
  = firstn (size * n) (skipn (size * start) rows).
Proof.
  induction n as [|n IH]; intros start.
  - rewrite Nat.mul_0_r. reflexivity.
  - cbn [seq map List.concat]. rewrite IH.
    replace (size * S n)%nat with (size + size * n)%nat by lia.
    rewrite firstn_add, skipn_skipn.
    replace (size + size * start)%nat with (size * S start)%nat by lia.
    reflexivity.
Qed.

Lemma search_sequence_sorted similarity db u q cat :
  StronglySorted ranked_before (search_sequence similarity db u q cat).
Proof.
  unfold search_sequence. cbv zeta.
  eapply StronglySorted_map;
    [|apply ORDER_BY_sorted;
      [apply rank_created_desc_total|apply rank_created_desc_trans]].
  intros [t1 c1] [t2 c2] Hb. apply rank_created_desc_iff in Hb.
  unfold ranked_before. exact Hb.
Qed.

(** Two rows that may each precede the other were created at the same
    time. *)
Lemma ranked_before_both (x y : listed_todo * Q) :
  ranked_before x y -> ranked_before y x ->
  l_created_at (fst x) = l_created_at (fst y).
Proof.
  unfold ranked_before. intros [H1|[E1 H1]] [H2|[E2 H2]].
  - exfalso. apply (Qlt_irrefl (snd x)). eapply Qlt_trans; eauto.
  - exfalso. rewrite E2 in H1. exact (Qlt_irrefl _ H1).
  - exfalso. rewrite E1 in H2. exact (Qlt_irrefl _ H2).
  - lia.
Qed.

(** When the rows have pairwise distinct [created_at], ORDER BY rank
    DESC, created_at DESC leaves one order only. *)
Lemma ranked_rows_unique (ranked : list (listed_todo * Q)) :
  StronglySorted ranked_before ranked ->
  NoDup (map (fun row => l_created_at (fst row)) ranked) ->
  forall rows,
    Permutation rows ranked -> StronglySorted ranked_before rows -> rows = ranked.
Proof.
  induction 1 as [|x xs Hxs IH Hx]; intros Hnd rows Hperm Hrows.
  - now apply Permutation_nil, Permutation_sym.
  - destruct rows as [|y ys];
      [apply Permutation_nil_cons in Hperm; destruct Hperm|].
    cbn [map] in Hnd. apply NoDup_cons_iff in Hnd as [Hnx Hnd].
    apply StronglySorted_inv in Hrows as [Hys Hy].
    rewrite Forall_forall in Hx, Hy.
    assert (Exy : y = x).
    { assert (Hin_y : In y (x :: xs))
        by (apply (Permutation_in _ Hperm); now left).
      assert (Hin_x : In x (y :: ys))
        by (apply (Permutation_in _ (Permutation_sym Hperm)); now left).
      destruct Hin_y as [E|Hin_y]; [now symmetry|].
      destruct Hin_x as [E|Hin_x]; [exact E|].
      exfalso. apply Hnx.
      rewrite (ranked_before_both x y (Hx y Hin_y) (Hy x Hin_x)).
      now apply (in_map (fun row => l_created_at (fst row))). }
    subst y. f_equal. apply IH; [exact Hnd| |exact Hys].
    now apply Permutation_cons_inv in Hperm.
Qed.

(** X7. Page-number mode against one database.  Whatever order the rows
    are in: the total is the number of matching rows, "has more" is set
    exactly when the next page is not empty, and every page before the
    last is full.  When the matching rows have pairwise distinct
    [created_at], so that ORDER BY leaves one order only: page [p] shows
    rows 20(p-1)+1 .. 20p of the ranked list, and the pages up to the
    last put together are the whole list, each row once. *)
Theorem fetchTodos_pagination_pages :
  forall similarity now db u reset searchTerm category st,
    Z.of_nat (List.length (todos db)) <= INT_MAX ->
    let ranked := search_sequence similarity db u (or_null searchTerm) category in
    let shown := map (fun row : listed_todo * Q => (fst row, Some (snd row))) in
    let page p :=
      fetchTodos similarity now db u pagination reset searchTerm category p st in
    (forall p,
        1 <= p ->
        st_totalCount (page p) = Z.of_nat (List.length ranked)
        /\ (st_hasMore (page p) = true <-> 20 * p < Z.of_nat (List.length ranked))
        /\ (st_hasMore (page p) = true <-> st_todos (page (p + 1)) <> [])
        /\ (st_hasMore (page p) = true -> List.length (st_todos (page p)) = 20%nat)
        /\ st_cursor (page p) = st_cursor st)
    /\ (NoDup (map (fun row => l_created_at (fst row)) ranked) ->
        (forall rows,
            Permutation rows ranked -> StronglySorted ranked_before rows ->
            rows = ranked)
        /\ (forall p,
              1 <= p ->
              st_todos (page p)
              = shown (firstn 20 (skipn (Z.to_nat (20 * (p - 1))) ranked)))
        /\ (forall n,
              Z.of_nat (List.length ranked) <= 20 * Z.of_nat n ->
              List.concat (map (fun k => st_todos (page (Z.of_nat k))) (seq 1 n))
              = shown ranked)).
Proof.
  intros similarity now db u reset searchTerm category st Hmax ranked shown page.
  assert (Hpage : forall p, 1 <= p ->
            page p = mk_list_state
                       (shown (firstn 20 (skipn (Z.to_nat (20 * (p - 1))) ranked)))
                       (p <? (Z.of_nat (List.length ranked) + 19) / 20)
                       (st_cursor st)
                       (Z.of_nat (List.length ranked))).
  { intros p Hp. unfold page, fetchTodos. cbv zeta.
    rewrite get_pagination_info_eq by assumption.
    rewrite search_todos_pages. fold ranked.
    unfold LIMIT_OFFSET, ITEMS_PER_PAGE.
    replace ((p - 1) * 20 <? 0) with false by (symmetry; apply Z.ltb_ge; lia).
    rewrite LIMIT_Ok by lia. cbn [total_pages total_count].
    replace (Z.to_nat ((p - 1) * 20)) with (Z.to_nat (20 * (p - 1))) by lia.
    reflexivity. }
  assert (Hmore : forall p, 1 <= p ->
            (st_hasMore (page p) = true <-> 20 * p < Z.of_nat (List.length ranked))).
  { intros p Hp. rewrite (Hpage p Hp). cbn [st_hasMore]. rewrite Z.ltb_lt.
    Z.to_euclidean_division_equations. lia. }
  assert (Hlen : forall p, 1 <= p ->
            Z.of_nat (List.length (st_todos (page p)))
            = Z.min 20 (Z.max 0 (Z.of_nat (List.length ranked) - 20 * (p - 1)))).
  { intros p Hp. rewrite (Hpage p Hp). cbn [st_todos]. unfold shown.
    rewrite length_map, length_firstn, length_skipn. lia. }
  split.
  - intros p Hp.
    split; [now rewrite (Hpage p Hp)|]. split; [exact (Hmore p Hp)|].
    split; [|split; [|now rewrite (Hpage p Hp)]].
    + rewrite (Hmore p Hp).
      assert (Hnext := Hlen (p + 1) ltac:(lia)).
      destruct (st_todos (page (p + 1))) as [|row rows] eqn:E.
      * cbn [List.length] in Hnext. split; [lia|congruence].
      * cbn [List.length] in Hnext. split; [discriminate|lia].
    + intros Hm. apply (Hmore p Hp) in Hm. specialize (Hlen p Hp). lia.
  - intros Hnd. split; [|split].
    + apply ranked_rows_unique; [apply search_sequence_sorted|exact Hnd].
    + intros p Hp. now rewrite (Hpage p Hp).
    + intros n Hn.
      rewrite (map_ext_in _ (fun k => shown (firstn 20 (skipn (20 * (k - 1)) ranked)))).
      * assert (Hseq : map (fun k => (k - 1)%nat) (seq 1 n) = seq 0 n).
        { rewrite <- seq_shift, map_map. erewrite map_ext; [apply map_id|].
          intros k. cbn. lia. }
        transitivity
          (shown (List.concat (map (fun k => firstn 20 (skipn (20 * k) ranked))
                                   (seq 0 n)))).
        -- unfold shown. rewrite concat_map, <- Hseq, !map_map. reflexivity.
        -- rewrite concat_pages. cbn [Nat.mul skipn]. f_equal.
           apply firstn_all2. lia.
      * intros k Hk. apply in_seq in Hk. rewrite Hpage by lia. cbn [st_todos].
        do 3 f_equal. lia.
Qed.

(** ** Infinite scrolling *)

(** A cursor above every row selects the same rows as any other such. *)
Lemma cursor_sequence_above similarity db u c c' q cat :
  (forall t, In t (todos db) -> created_at t < c) ->
  (forall t, In t (todos db) -> created_at t < c') ->
  cursor_sequence similarity db u c q cat = cursor_sequence similarity db u c' q cat.
Proof.
  intros Hc Hc'. unfold cursor_sequence, cursor_candidates. f_equal.
  apply filter_ext_in. intros j Hj. apply In_LEFT_JOIN_categories in Hj.
  replace (created_at (fst j) <? c) with true
    by (symmetry; apply Z.ltb_lt; auto).
  replace (created_at (fst j) <? c') with true
    by (symmetry; apply Z.ltb_lt; auto).
  reflexivity.
Qed.

(** One more fetch of the infinite list. *)
Lemma fetchTodos_infinite_step similarity db u searchTerm cat matching k now pg st :
  StronglySorted (fun a b => created_at (fst b) < created_at (fst a)) matching ->
  (forall t, In t (todos db) -> created_at t < now + INTERVAL_1_day) ->
  scrolled similarity db u searchTerm cat matching k st ->
  let st' := fetchTodos similarity now db u infinite false searchTerm cat pg st in
  scrolled similarity db u searchTerm cat matching (S k) st'
  /\ st_hasMore st' = (Z.of_nat (20 * S k) <? Z.of_nat (List.length matching))
  /\ st_totalCount st' = st_totalCount st.
Proof.
  intros Hsorted Hpast [Htodos Hnext]. cbv zeta.
  specialize (Hnext now Hpast) as Hseq.
  unfold fetchTodos.
  rewrite get_todos_cursor_eq by (unfold ITEMS_PER_PAGE, INT_MAX; lia).
  rewrite Hseq. unfold ITEMS_PER_PAGE.
  change (Z.to_nat 20) with 20%nat.
  set (rest_rows := skipn (20 * k) matching) in *.
  assert (Hrest : List.length rest_rows = (List.length matching - 20 * k)%nat)
    by apply length_skipn.
  destruct (firstn 20 rest_rows) as [|j1 page] eqn:Epage.
  - assert (Hnil : rest_rows = []).
    { destruct rest_rows; [reflexivity|discriminate]. }
    rewrite Hnil in Hrest. cbn [List.length] in Hrest.
    cbn [map st_todos st_hasMore st_cursor st_totalCount].
    split; [split|split; [|reflexivity]].
    + cbn [st_todos]. rewrite Htodos. f_equal. rewrite !firstn_all2 by lia.
      reflexivity.
    + intros now' Hpast'. cbn [st_cursor]. rewrite (Hnext now' Hpast').
      fold rest_rows.
      rewrite Hnil. symmetry. apply skipn_all2. lia.
    + symmetry. apply Z.ltb_ge. lia.
  - cbn [map snd fst st_todos st_hasMore st_cursor st_totalCount].
    destruct (exists_last (l := j1 :: page)) as (init & lastj & Hlast);
      [discriminate|].
    split; [split|split; [|reflexivity]].
    + cbn [st_todos]. rewrite Htodos.
      replace (20 * S k)%nat with (20 * k + 20)%nat by lia.
      rewrite firstn_add, map_app. fold rest_rows. rewrite Epage.
      f_equal. cbn [map]. rewrite map_map. reflexivity.
    + intros now' Hpast'. cbn [st_cursor effective_cursor].
      set (flagged := fun j : todo * option category =>
                        (project j, 20 <? Z.of_nat (List.length rest_rows))).
      change ((project j1, 20 <? Z.of_nat (List.length rest_rows))
              :: map flagged page) with (map flagged (j1 :: page)).
      change (project j1, 20 <? Z.of_nat (List.length rest_rows)) with (flagged j1).
      rewrite Hlast, map_app. cbn [map]. rewrite last_last.
      assert (Hin : In lastj rest_rows).
      { apply (In_firstn_inv 20). rewrite Epage, Hlast.
        apply in_or_app. right. now left. }
      assert (Hc : created_at (fst lastj)
                   <= effective_cursor now (st_cursor st)).
      { rewrite <- Hseq in Hin. apply cursor_sequence_In in Hin. lia. }
      destruct lastj as [tl cl]. unfold flagged.
      cbn [project fst l_created_at] in *.
      rewrite (cursor_sequence_lower similarity db u _ _ _ cat Hc), Hseq.
      assert (Hrows := rows_before_last_of_page rest_rows init 20 (tl, cl)
                         (StronglySorted_skipn _ _ _ Hsorted)
                         (eq_trans Epage Hlast)).
      cbn [fst] in Hrows. rewrite Hrows.
      unfold rest_rows. rewrite skipn_skipn. f_equal. lia.
    + destruct (20 <? Z.of_nat (List.length rest_rows)) eqn:E.
      * apply Z.ltb_lt in E. symmetry. apply Z.ltb_lt. lia.
      * apply Z.ltb_ge in E. symmetry. apply Z.ltb_ge. lia.
Qed.

(** Any number of further fetches. *)
Lemma fetchTodos_infinite_fold similarity db u searchTerm cat matching :
  StronglySorted (fun a b => created_at (fst b) < created_at (fst a)) matching ->
  forall later n st,
    (forall now t, In now later -> In t (todos db) ->
                   created_at t < now + INTERVAL_1_day) ->
    scrolled similarity db u searchTerm cat matching n st ->
    st_hasMore st = (Z.of_nat (20 * n) <? Z.of_nat (List.length matching)) ->
    let st' :=
      fold_left
        (fun st1 now =>
           fetchTodos similarity now db u infinite false searchTerm cat 1 st1)
        later st in
    scrolled similarity db u searchTerm cat matching (n + List.length later) st'
    /\ st_hasMore st'
       = (Z.of_nat (20 * (n + List.length later)) <? Z.of_nat (List.length matching))
    /\ st_totalCount st' = st_totalCount st.
Proof.
  intros Hsorted. induction later as [|now later IH]; intros n st Hpast Hn Hm; cbv zeta.
  - cbn [fold_left List.length]. rewrite Nat.add_0_r. auto.
  - cbn [fold_left List.length].
    destruct (fetchTodos_infinite_step similarity db u searchTerm cat matching
                n now 1 st Hsorted
                (fun t Ht => Hpast now t (or_introl eq_refl) Ht) Hn)
      as (Hn1 & Hm1 & Hc1).
    destruct (IH (S n) _ (fun now' t Hin => Hpast now' t (or_intror Hin)) Hn1 Hm1)
      as (Hn2 & Hm2 & Hc2).
    replace (n + S (List.length later))%nat with (S n + List.length later)%nat by lia.
    split; [exact Hn2|]. split; [exact Hm2|]. now rewrite Hc2.
Qed.

(** X8. Infinite scrolling against one database whose matching todos
    have pairwise distinct [created_at]: after the first fetch and [n]
    more, the list holds the first 20 (n + 1) matching todos, newest
    first, each once; "has more" says whether todos remain; and once
    20 (n + 1) reaches their number the list is complete. *)
Theorem scroll_loads_every_page :
  forall similarity db u searchTerm cat first_now later st,
    st_cursor st = None ->
    (forall now t, In now (first_now :: later) -> In t (todos db) ->
                   created_at t < now + INTERVAL_1_day) ->
    let matching :=
      cursor_sequence similarity db u (first_now + INTERVAL_1_day)
                      (or_null searchTerm) cat in
    NoDup (map (fun j => created_at (fst j)) matching) ->
    let st' := scroll similarity db u searchTerm cat first_now later st in
    let k := S (List.length later) in
    st_todos st' = map without_meta (firstn (20 * k) matching)
    /\ st_hasMore st' = (Z.of_nat (20 * k) <? Z.of_nat (List.length matching))
    /\ ((List.length matching <= 20 * k)%nat ->
        st_todos st' = map without_meta matching /\ st_hasMore st' = false)
    /\ st_totalCount st' = st_totalCount st.
Proof.
  intros similarity db u searchTerm cat first_now later st Hcur Hpast
         matching Hnd st' k.
  assert (Hsorted : StronglySorted
                      (fun a b => created_at (fst b) < created_at (fst a)) matching).
  { apply sorted_distinct_strict; [apply cursor_sequence_sorted|exact Hnd]. }
  assert (Hmain : scrolled similarity db u searchTerm cat matching k st'
                  /\ st_hasMore st'
                     = (Z.of_nat (20 * k) <? Z.of_nat (List.length matching))
                  /\ st_totalCount st' = st_totalCount st).
  { unfold st', k, scroll.
    assert (Hfirst :
              fetchTodos similarity first_now db u infinite true searchTerm cat 1 st
              = fetchTodos similarity first_now db u infinite false searchTerm cat 1
                  (mk_list_state [] (st_hasMore st) None (st_totalCount st))).
    { unfold fetchTodos. cbn [st_cursor st_todos st_totalCount app]. rewrite Hcur.
      reflexivity. }
    rewrite Hfirst.
    assert (H0 : scrolled similarity db u searchTerm cat matching 0
                   (mk_list_state [] (st_hasMore st) None (st_totalCount st))).
    { split; [reflexivity|]. intros now Hnow. cbn [st_cursor effective_cursor skipn Nat.mul].
      apply cursor_sequence_above; [exact Hnow|].
      intros t Ht. apply (Hpast first_now t); [now left|exact Ht]. }
    destruct (fetchTodos_infinite_step similarity db u searchTerm cat matching
                0 first_now 1 _ Hsorted
                (fun t Ht => Hpast first_now t (or_introl eq_refl) Ht) H0)
      as (H1 & Hm1 & Hc1).
    cbn [st_totalCount] in Hc1.
    destruct (fetchTodos_infinite_fold similarity db u searchTerm cat matching
                Hsorted later 1 _
                (fun now t Hin => Hpast now t (or_intror Hin)) H1 Hm1)
      as (H2 & Hm2 & Hc2).
    change (S (List.length later)) with (1 + List.length later)%nat.
    split; [exact H2|]. split; [exact Hm2|]. now rewrite Hc2. }
  destruct Hmain as ([Htodos _] & Hmore & Hcount).
  split; [exact Htodos|]. split; [exact Hmore|]. split; [|exact Hcount].
  intros Hall. split.
  - rewrite Htodos. now rewrite firstn_all2.
  - rewrite Hmore. apply Z.ltb_ge. lia.
Qed.

(** 25 todos created at distinct times: page 1 is full, page 2 holds
    the five oldest. *)
Lemma fetchTodos_pagination_pages_witness :
  let page p :=
    fetchTodos pg_trgm_similarity 5000 (db_25_todos created_1000) 10%N pagination
               false "" None p initial_list_state in
  List.length (st_todos (page 1)) = 20%nat
  /\ st_hasMore (page 1) = true
  /\ st_totalCount (page 2) = 25
  /\ (st_hasMore (page 2) = true <-> st_todos (page 3) <> [])
  /\ map (fun row => l_id (fst row)) (st_todos (page 2)) = [5; 4; 3; 2; 1]%N.
Proof.
  assert (Hmax : Z.of_nat (List.length (todos (db_25_todos created_1000))) <= INT_MAX)
    by (vm_compute; discriminate).
  destruct (fetchTodos_pagination_pages pg_trgm_similarity 5000
              (db_25_todos created_1000) 10%N false "" None initial_list_state Hmax)
    as [Hpage Hrows].
  cbv zeta in Hpage, Hrows |- *.
  destruct (Hpage 1 ltac:(lia)) as (_ & Hmore1 & _ & Hfull1 & _).
  destruct (Hpage 2 ltac:(lia)) as (Hcount2 & _ & Hnext2 & _).
  assert (H1 : st_hasMore
                 (fetchTodos pg_trgm_similarity 5000 (db_25_todos created_1000) 10%N
                    pagination false "" None 1 initial_list_state) = true).
  { apply Hmore1. vm_compute. reflexivity. }
  split; [exact (Hfull1 H1)|]. split; [exact H1|].
  split; [rewrite Hcount2; vm_compute; reflexivity|]. split; [exact Hnext2|].
  destruct Hrows as (_ & Hslice & _).
  - vm_compute. repeat (constructor; [simpl; lia|]). constructor.
  - rewrite (Hslice 2 ltac:(lia)). vm_compute. reflexivity.
Defined.

Lemma scroll_loads_every_page_witness :
  let st' := scroll pg_trgm_similarity (db_25_todos created_1000) 10%N "" None
                    5000 [6000] initial_list_state in
  List.length (st_todos st') = 25%nat /\ st_hasMore st' = false.
Proof.
  cbv zeta.
  assert (Hpast : forall now t,
            In now [5000; 6000] ->
            In t (todos (db_25_todos created_1000)) ->
            created_at t < now + INTERVAL_1_day).
  { intros now t Hnow Ht. unfold db_25_todos in Ht. cbn [todos] in Ht.
    apply in_map_iff in Ht as (k & <- & Hk). apply in_seq in Hk.
    cbn [created_at]. unfold created_1000, INTERVAL_1_day.
    destruct Hnow as [<-|[<-|[]]]; lia. }
  assert (Hnd : NoDup (map (fun j => created_at (fst j))
                         (cursor_sequence pg_trgm_similarity
                            (db_25_todos created_1000) 10%N
                            (5000 + INTERVAL_1_day) (or_null "") None))).
  { vm_compute. repeat (constructor; [simpl; lia|]). constructor. }
  destruct (scroll_loads_every_page pg_trgm_similarity (db_25_todos created_1000)
              10%N "" None 5000 [6000] initial_list_state eq_refl Hpast Hnd)
    as (_ & _ & Hall & _).
  destruct Hall as [Htodos Hmore]; [vm_compute; lia|].
  split; [rewrite Htodos; vm_compute; reflexivity|exact Hmore].
Defined.

(** * Keyword search *)













(** ** Blank queries *)

Lemma ltrim_empty s : ltrim s = "" <-> only_spaces s = true.
Proof.
  unfold only_spaces. induction s as [|c s IH]; cbn [ltrim list_ascii_of_string forallb].
  - split; reflexivity.
  - destruct (Ascii.eqb c " "); cbn [andb]; [exact IH|]. split; discriminate.
Qed.

(** What [ltrim] leaves does not start with a space. *)
Lemma ltrim_head s c rest : ltrim s = String c rest -> Ascii.eqb c " " = false.
Proof.
  induction s as [|d s IH]; cbn [ltrim]; [discriminate|].
  destruct (Ascii.eqb d " ") eqn:E; [exact IH|]. intros H. injection H as <- _. exact E.
Qed.

Lemma string_rev_empty s : string_rev s = "" -> s = "".
Proof.
  unfold string_rev. destruct s as [|c s]; [reflexivity|].
  cbn [list_ascii_of_string rev]. intros H.
  apply (f_equal list_ascii_of_string) in H.
  rewrite list_ascii_of_string_of_list_ascii in H. cbn in H.
  destruct (rev (list_ascii_of_string s)); discriminate.
Qed.

Lemma only_spaces_string_rev s : only_spaces (string_rev s) = only_spaces s.
Proof.
  unfold only_spaces, string_rev. rewrite list_ascii_of_string_of_list_ascii.
  set (chars := list_ascii_of_string s).
  destruct (forallb _ chars) eqn:E.
  - apply forallb_forall. intros c Hc. apply in_rev in Hc.
    rewrite forallb_forall in E. now apply E.
  - destruct (forallb _ (rev chars)) eqn:E'; [|reflexivity].
    rewrite <- E. symmetry. apply forallb_forall. intros c Hc.
    rewrite forallb_forall in E'. apply E'. now apply in_rev in Hc.
Qed.

Lemma TRIM_empty s : TRIM s = "" <-> only_spaces s = true.
Proof.
  unfold TRIM. split.
  - intros H. apply string_rev_empty, ltrim_empty in H.
    rewrite only_spaces_string_rev in H. apply ltrim_empty.
    destruct (ltrim s) as [|c rest] eqn:E; [reflexivity|].
    apply ltrim_head in E. unfold only_spaces in H.
    cbn [list_ascii_of_string forallb] in H. rewrite E in H. discriminate.
  - intros H. apply ltrim_empty in H. rewrite H. reflexivity.
Qed.

Lemma LOWER_empty s : LOWER s = "" <-> s = "".
Proof. destruct s; cbn; split; congruence. Qed.

Lemma normalize_blank q : normalize q = "" <-> blank_query q = true.
Proof.
  unfold normalize, blank_query. rewrite LOWER_empty, TRIM_empty.
  destruct q; reflexivity.
Qed.

Lemma insert_by_same_order {Row} (before before' : Row -> Row -> bool) x rows :
  (forall a b, before a b = before' a b) ->
  insert_by before x rows = insert_by before' x rows.
Proof.
  intros Hsame. induction rows as [|y rows IH]; cbn [insert_by]; [reflexivity|].
  rewrite Hsame, IH. reflexivity.
Qed.

Lemma ORDER_BY_same_order {Row} (before before' : Row -> Row -> bool) rows :
  (forall a b, before a b = before' a b) ->
  ORDER_BY before rows = ORDER_BY before' rows.
Proof.
  intros Hsame. induction rows as [|y rows IH]; cbn [ORDER_BY]; [reflexivity|].
  rewrite IH. now apply insert_by_same_order.
Qed.

(** With a blank query [search_todos] lists the caller's todos of the
    category, newest first, rank 0. *)
Lemma search_sequence_blank similarity db u q cat :
  normalize q = "" ->
  search_sequence similarity db u q cat
  = map (fun j => (project j, 0%Q))
        (ORDER_BY created_desc
           (filter (fun j => N.eqb (user_id (fst j)) u && category_filter cat (fst j))
                   (LEFT_JOIN_categories db))).
Proof.
  intros Hv. unfold search_sequence. cbv zeta. rewrite Hv.
  rewrite (ORDER_BY_same_order (rank_created_desc (search_rank similarity ""))
                               created_desc) by reflexivity.
  f_equal. f_equal. apply filter_ext. intros j.
  unfold search_filter. cbn [is_empty orb]. now rewrite andb_true_r.
Qed.

(** X10. A query is normalised to the empty text exactly when it is
    NULL or consists of spaces.  For such a query the result of
    [search_todos] does not depend on [similarity], every rank is 0 and
    the rows come newest first.  When the matching todos have pairwise
    distinct [created_at], so that the order of the rows is fixed, the
    first page is the page [get_todos_cursor] returns for a NULL cursor
    when every todo was created before now + 1 day: both list modes of
    the client start with the same rows. *)
Theorem search_todos_blank_query :
  forall similarity db u q cat limit offset rows,
    (normalize q = "" <-> blank_query q = true)
    /\ (blank_query q = true ->
        search_todos similarity db u q cat limit offset = Ok rows ->
        (forall similarity',
            search_todos similarity' db u q cat limit offset = Ok rows)
        /\ (forall row rank, In (row, rank) rows -> rank = 0%Q)
        /\ StronglySorted newest_first rows
        /\ (forall now,
              offset = 0 -> limit < INT_MAX ->
              (forall t, In t (todos db) -> created_at t < now + INTERVAL_1_day) ->
              NoDup (map (fun row => l_created_at (fst row))
                         (search_sequence similarity db u q cat)) ->
              exists rows',
                get_todos_cursor similarity now db u None limit q cat = Ok rows'
                /\ map fst rows' = map fst rows)).
Proof.
  intros similarity db u q cat limit offset rows.
  split; [apply normalize_blank|]. intros Hblank H.
  apply normalize_blank in Hblank.
  rewrite search_todos_pages, (search_sequence_blank _ _ _ _ _ Hblank) in H.
  split; [|split; [|split]].
  - intros similarity'.
    now rewrite search_todos_pages, (search_sequence_blank _ _ _ _ _ Hblank).
  - apply LIMIT_OFFSET_Ok_inv in H as (_ & _ & ->). intros row rank Hin.
    apply In_firstn_inv, In_skipn_inv in Hin.
    apply in_map_iff in Hin as (j & E & _). congruence.
  - apply LIMIT_OFFSET_Ok_inv in H as (_ & _ & ->).
    apply StronglySorted_firstn, StronglySorted_skipn.
    eapply StronglySorted_map;
      [|apply ORDER_BY_sorted; [apply created_desc_total|apply created_desc_trans]].
    intros [t1 c1] [t2 c2] Hb. unfold created_desc in Hb. apply Z.leb_le in Hb.
    exact Hb.
  - intros now -> Hlimit Hpast _.
    apply LIMIT_OFFSET_Ok_inv in H as (Hl & _ & ->).
    rewrite get_todos_cursor_eq by lia. eexists. split; [reflexivity|].
    rewrite map_fst_flagged. replace (Z.to_nat 0) with 0%nat by reflexivity.
    cbn [skipn]. rewrite firstn_map, map_map. cbn [fst].
    change (fun x : todo * option category => project x) with project.
    f_equal. f_equal.
    unfold cursor_sequence, cursor_candidates. rewrite Hblank. f_equal.
    apply filter_ext_in. intros j Hj. apply In_LEFT_JOIN_categories in Hj.
    replace (created_at (fst j) <? effective_cursor now None) with true
      by (symmetry; apply Z.ltb_lt; cbn [effective_cursor]; auto).
    unfold search_filter. cbn [is_empty orb]. now rewrite !andb_true_r.
Qed.

Lemma search_todos_blank_query_witness :
  exists rows rows',
    search_todos pg_trgm_similarity db_ranking 10%N (Some "   ") None 20 0 = Ok rows
    /\ get_todos_cursor pg_trgm_similarity 5000 db_ranking 10%N None 20 (Some "   ") None
       = Ok rows'
    /\ map fst rows' = map fst rows
    /\ StronglySorted newest_first rows.
Proof.
  destruct (search_todos pg_trgm_similarity db_ranking 10%N (Some "   ") None 20 0)
    as [rows|e] eqn:E; [|vm_compute in E; discriminate].
  destruct (proj2 (search_todos_blank_query pg_trgm_similarity db_ranking 10%N
                     (Some "   ") None 20 0 rows) eq_refl E)
    as (_ & _ & Hsorted & Hfirst).
  destruct (Hfirst 5000 eq_refl) as (rows' & E' & Hsame).
  - unfold INT_MAX. lia.
  - intros t [<-|[<-|[<-|[]]]]; cbn; unfold INTERVAL_1_day; lia.
  - vm_compute. repeat (constructor; [simpl; lia|]). constructor.
  - exists rows, rows'. auto.
Defined.

(** * The transactions API of the client *)

(** ** Retrying *)

Lemma world_before_shift {W T} (operation : W -> (T + js_error) * W) w i :
  world_before operation w (S i) = world_before operation (snd (operation w)) i.
Proof.
  induction i as [|i IH]; [reflexivity|].
  cbn [world_before] in *. now rewrite IH.
Qed.

Lemma retry_delays_shift retries n :
  retry_delay (S retries) :: map (fun i => retry_delay (retries - i)) (seq 0 n)
  = map (fun i => retry_delay (S retries - i)) (seq 0 (S n)).
Proof.
  cbn [seq map]. f_equal. rewrite <- seq_shift, map_map. reflexivity.
Qed.

(** X11. [retryWithBackoff] runs the operation once and then once more
    after each failure that [isRetryableError] accepts, at most
    [retries] more times.  Its outcome and final world are those of the
    last attempt, which returned, or threw an error that is not
    retryable, or was the last one allowed.  With the default of three
    retries it sleeps 1000, 2000 and 4000 ms before the second, third
    and fourth attempt: at most four attempts and seven seconds. *)
Theorem retryWithBackoff_attempts :
  forall (W T : Type) (operation : W -> (T + js_error) * W) retries w,
    exists n,
      (n <= retries)%nat
      /\ snd (retryWithBackoff operation retries w)
         = map (fun i => retry_delay (retries - i)) (seq 0 n)
      /\ (forall i, (i < n)%nat ->
            exists e, fst (operation (world_before operation w i)) = inr e
                      /\ isRetryableError e = true)
      /\ fst (retryWithBackoff operation retries w)
         = operation (world_before operation w n)
      /\ (forall e, fst (operation (world_before operation w n)) = inr e ->
            isRetryableError e = false \/ n = retries)
      /\ (retries = MAX_RETRIES ->
          snd (retryWithBackoff operation retries w)
          = firstn n [1000; 2000; 4000]%Q).
Proof.
  intros W T operation retries.
  assert (Hmain : forall w,
            exists n,
              (n <= retries)%nat
              /\ snd (retryWithBackoff operation retries w)
                 = map (fun i => retry_delay (retries - i)) (seq 0 n)
              /\ (forall i, (i < n)%nat ->
                    exists e, fst (operation (world_before operation w i)) = inr e
                              /\ isRetryableError e = true)
              /\ fst (retryWithBackoff operation retries w)
                 = operation (world_before operation w n)
              /\ (forall e, fst (operation (world_before operation w n)) = inr e ->
                    isRetryableError e = false \/ n = retries)).
  { induction retries as [|retries IH]; intros w.
    - exists 0%nat. cbn [retryWithBackoff world_before seq map].
      destruct (operation w) as [[value|error] w'] eqn:E; cbn [fst snd];
        (split; [lia|]); (split; [reflexivity|]);
        (split; [intros i Hi; lia|]); (split; [reflexivity|]); auto.
    - cbn [retryWithBackoff].
      destruct (operation w) as [[value|error] w'] eqn:E.
      + exists 0%nat. cbn [world_before seq map fst snd]. rewrite E.
        split; [lia|]. split; [reflexivity|]. split; [intros i Hi; lia|].
        split; [reflexivity|]. intros e He. discriminate He.
      + destruct (isRetryableError error) eqn:Er.
        * destruct (IH w') as (n & Hn & Hs & Hfail & Hlast & Hstop).
          exists (S n).
          destruct (retryWithBackoff operation retries w') as [[outcome w''] slept].
          cbn [fst snd] in *.
          assert (Ew : w' = snd (operation w)) by now rewrite E.
          split; [lia|]. split; [|split; [|split]].
          -- rewrite Hs. apply retry_delays_shift.
          -- intros [|i] Hi.
             ++ exists error. cbn [world_before]. now rewrite E.
             ++ rewrite world_before_shift, <- Ew. apply Hfail. lia.
          -- rewrite world_before_shift, <- Ew. exact Hlast.
          -- intros e He. rewrite world_before_shift, <- Ew in He.
             destruct (Hstop e He) as [H| ->]; auto.
        * exists 0%nat. cbn [world_before seq map fst snd]. rewrite E.
          split; [lia|]. split; [reflexivity|]. split; [intros i Hi; lia|].
          split; [reflexivity|].
          intros e He. cbn [fst] in He. injection He as <-. now left. }
  intros w. destruct (Hmain w) as (n & Hn & Hs & Hfail & Hlast & Hstop).
  exists n. repeat (split; [assumption|]).
  intros ->. rewrite Hs. unfold MAX_RETRIES in Hn.
  destruct n as [|[|[|[|n]]]]; try lia; reflexivity.
Qed.

Lemma retryWithBackoff_attempts_witness :
  exists n,
    (n <= 3)%nat
    /\ snd (retryWithBackoff fails_twice MAX_RETRIES 0%nat)
       = firstn n [1000; 2000; 4000]%Q
    /\ fst (retryWithBackoff fails_twice MAX_RETRIES 0%nat) = (inl 2%nat, 3%nat).
Proof.
  destruct (retryWithBackoff_attempts nat nat fails_twice MAX_RETRIES 0%nat)
    as (n & Hn & _ & _ & _ & _ & Hsleep).
  exists n. split; [exact Hn|]. split; [exact (Hsleep eq_refl)|reflexivity].
Defined.

(** ** Messages of the stored procedures *)

Lemma prefix_has_char c : forall sub s,
  String.prefix sub s = true -> has_char c sub = true -> has_char c s = true.
Proof.
  unfold has_char. induction sub as [|a sub IH]; intros s Hp Hc; [discriminate|].
  destruct s as [|b s]; [discriminate|]. cbn [String.prefix] in Hp.
  destruct (ascii_dec a b) as [<-|]; [|discriminate].
  cbn [list_ascii_of_string existsb] in *.
  apply orb_true_iff in Hc as [Hc|Hc]; [now rewrite Hc|].
  rewrite (IH s Hp Hc). apply orb_true_r.
Qed.

(** A text that lacks a character of [sub] does not include [sub]. *)
Lemma includes_has_char c sub : forall s,
  includes s sub = true -> has_char c sub = true -> has_char c s = true.
Proof.
  induction s as [|b s IH]; intros Hi Hc; cbn [includes] in Hi.
  - rewrite orb_false_r in Hi. exact (prefix_has_char c sub "" Hi Hc).
  - apply orb_true_iff in Hi as [Hi|Hi]; [exact (prefix_has_char c sub _ Hi Hc)|].
    unfold has_char in *. cbn [list_ascii_of_string existsb].
    rewrite (IH Hi Hc). apply orb_true_r.
Qed.

Lemma has_char_app c a b : has_char c (a ++ b) = has_char c a || has_char c b.
Proof.
  unfold has_char. induction a as [|x a IH]; [reflexivity|].
  cbn [append list_ascii_of_string existsb]. now rewrite IH, orb_assoc.
Qed.

(** A printed INTEGER consists of digits and at most a sign. *)
Lemma has_char_int4out c n :
  has_char c "-0123456789" = false -> has_char c (int4out n) = false.
Proof.
  intros Hc. unfold int4out, NilZero.string_of_int, NilZero.string_of_uint.
  assert (Hd : forall d, has_char c (NilEmpty.string_of_uint d) = false).
  { unfold has_char in *. cbn [list_ascii_of_string existsb] in Hc.
    repeat (apply orb_false_iff in Hc as [? Hc]).
    induction d; cbn [NilEmpty.string_of_uint list_ascii_of_string existsb];
      rewrite ?IHd; rewrite ?orb_false_r; auto. }
  assert (H0 : has_char c "0" = false /\ Ascii.eqb c "-" = false).
  { unfold has_char in *. cbn [list_ascii_of_string existsb] in *.
    repeat (apply orb_false_iff in Hc as [? Hc]). split; [|assumption].
    rewrite orb_false_r. assumption. }
  destruct H0 as [H0 Hm].
  destruct (Z.to_int n) as [d|d]; destruct d; try exact H0; try apply Hd;
    unfold has_char; cbn [list_ascii_of_string existsb]; rewrite Hm;
    try exact H0; apply Hd.
Qed.

Lemma has_char_int4out_null c n :
  has_char c "-0123456789<NUL>" = false -> has_char c (int4out_null n) = false.
Proof.
  intros Hc. destruct n as [n|]; cbn [int4out_null].
  - apply has_char_int4out. unfold has_char in *.
    cbn [list_ascii_of_string existsb] in *.
    repeat (apply orb_false_iff in Hc as [? Hc]).
    repeat (apply orb_false_iff; split; try assumption).
  - unfold has_char in *. cbn [list_ascii_of_string existsb] in *.
    repeat (apply orb_false_iff in Hc as [? Hc]).
    repeat (apply orb_false_iff; split; try assumption).
Qed.

(** The count messages of the bulk procedures. *)
Lemma count_message_not_retryable (expected done : string) a b :
  has_char "f" expected = false -> has_char "i" expected = false ->
  has_char "f" done = false -> has_char "i" done = false ->
  expected <> "" ->
  not_retryable_message (expected ++ int4out_null a ++ done ++ int4out b).
Proof.
  intros Hf1 Hi1 Hf2 Hi2 Hne.
  assert (Hno : forall c, has_char c "-0123456789<NUL>" = false ->
                  has_char c expected = false -> has_char c done = false ->
                  has_char c (expected ++ int4out_null a ++ done ++ int4out b) = false).
  { intros c Hc H1 H2. rewrite !has_char_app, H1, H2.
    rewrite (has_char_int4out_null c a Hc). rewrite has_char_int4out; [reflexivity|].
    unfold has_char in *. cbn [list_ascii_of_string existsb] in *.
    repeat (apply orb_false_iff in Hc as [? Hc]).
    repeat (apply orb_false_iff; split; try assumption). }
  split; [|split].
  - destruct expected; [congruence|discriminate].
  - destruct (includes _ "fetch") eqn:E; [|reflexivity].
    apply (includes_has_char "f") in E; [|reflexivity].
    rewrite Hno in E; [discriminate|reflexivity|assumption|assumption].
  - destruct (includes _ "timeout") eqn:E; [|reflexivity].
    apply (includes_has_char "i") in E; [|reflexivity].
    rewrite Hno in E; [discriminate|reflexivity|assumption|assumption].
Qed.

Lemma UPDATE_todos_Raised now cond assign db e :
  UPDATE_todos now cond assign db = Raised e ->
  e = numeric_value_out_of_range \/ e = foreign_key_violation.
Proof.
  rewrite UPDATE_todos_eq. destruct (forallb _ (todos db)).
  - destruct (forallb _ _); [discriminate|]. intros H. injection H as <-. now right.
  - intros H. injection H as <-. now left.
Qed.

Lemma storage_error_not_retryable e :
  e = numeric_value_out_of_range \/ e = foreign_key_violation ->
  not_retryable_message (SQLERRM e).
Proof. intros [-> | ->]; (split; [discriminate|split; reflexivity]). Qed.

Lemma FOREACH_bulk_update_Raised now u b ids : forall acc db e,
  FOREACH ids (bulk_update_todos_body now u b) acc db = Raised e ->
  e = numeric_value_out_of_range.
Proof.
  induction ids as [|v rest IH]; intros acc db e; cbn [FOREACH]; [discriminate|].
  unfold bind. rewrite bulk_update_todos_body_eq.
  destruct (forallb _ (todos db)); [apply IH|]. intros H. now injection H as <-.
Qed.

(** A stored procedure that always returns its row and, when it
    rejects, leaves the database alone and reports a message that is
    not taken for a network failure. *)
Lemma bulk_update_todos_reports now u ids b db :
  exists r db',
    bulk_update_todos now u ids b db = Return r db'
    /\ (success r = false ->
        db' = db /\ exists m, error_message r = Some m /\ not_retryable_message m).
Proof.
  rewrite bulk_update_todos_unfold. unfold BEGIN_EXCEPTION, bind.
  destruct (FOREACH ids (bulk_update_todos_body now u b) 0 db) as [n db1|e] eqn:E.
  - unfold IF_THEN. destruct (is_true _).
    + unfold RAISE, WHEN_OTHERS, ret. eexists _, _. split; [reflexivity|].
      intros _. split; [reflexivity|]. eexists. split; [reflexivity|].
      cbn [SQLERRM]. now apply count_message_not_retryable.
    + unfold ret. eexists _, _. split; [reflexivity|]. discriminate.
  - apply FOREACH_bulk_update_Raised in E as ->.
    unfold WHEN_OTHERS, ret. eexists _, _. split; [reflexivity|].
    intros _. split; [reflexivity|]. eexists. split; [reflexivity|].
    apply storage_error_not_retryable. now left.
Qed.

Lemma bulk_change_category_reports now u ids c db :
  exists r db',
    bulk_change_category now u ids c db = Return r db'
    /\ (success r = false ->
        db' = db /\ exists m, error_message r = Some m /\ not_retryable_message m).
Proof.
  assert (Hrest : exists r db',
            BEGIN_EXCEPTION
              (fun _ : database =>
                 (rows <- UPDATE_todos now (owned_in u ids) (SET_category_id c) ;;
                  IF_THEN (int4ne (ROW_COUNT rows) (array_length ids))
                    (RAISE (raise_exception "Some todos could not be updated")) ;;
                  ret (mk_bulk_row true (ROW_COUNT rows) None)) db)
              WHEN_OTHERS db = Return r db'
            /\ (success r = false ->
                db' = db
                /\ exists m, error_message r = Some m /\ not_retryable_message m)).
  { unfold BEGIN_EXCEPTION, bind.
    destruct (UPDATE_todos now (owned_in u ids) (SET_category_id c) db)
      as [rows db1|e] eqn:E.
    - unfold IF_THEN. destruct (is_true _).
      + unfold RAISE, WHEN_OTHERS, ret. eexists _, _. split; [reflexivity|].
        intros _. split; [reflexivity|]. eexists. split; [reflexivity|].
        split; [discriminate|split; reflexivity].
      + unfold ret. eexists _, _. split; [reflexivity|]. discriminate.
    - apply UPDATE_todos_Raised in E.
      unfold WHEN_OTHERS, ret. eexists _, _. split; [reflexivity|].
      intros _. split; [reflexivity|]. eexists. split; [reflexivity|].
      now apply storage_error_not_retryable. }
  unfold bulk_change_category. fold (owned_in u ids).
  destruct c as [c|].
  - unfold BEGIN_EXCEPTION at 1. unfold bind at 1. unfold bind at 1.
    unfold EXISTS_categories at 1.
    destruct (existsb _ (categories db)) eqn:Ex.
    + cbn [negb IF_THEN is_true]. unfold ret at 1.
      destruct Hrest as (r & db' & H & Hr). unfold BEGIN_EXCEPTION in H.
      exists r, db'. split; [exact H|exact Hr].
    + cbn [negb]. unfold IF_THEN, is_true, RAISE, WHEN_OTHERS, ret.
      eexists _, _. split; [reflexivity|].
      intros _. split; [reflexivity|]. eexists. split; [reflexivity|].
      split; [discriminate|split; reflexivity].
  - unfold BEGIN_EXCEPTION at 1. unfold bind at 1. unfold ret at 1.
    destruct Hrest as (r & db' & H & Hr). unfold BEGIN_EXCEPTION in H.
    exists r, db'. split; [exact H|exact Hr].
Qed.

Lemma bulk_delete_todos_reports u ids db :
  exists r db',
    bulk_delete_todos u ids db = Return r db'
    /\ (success r = false ->
        db' = db /\ exists m, error_message r = Some m /\ not_retryable_message m).
Proof.
  unfold bulk_delete_todos, BEGIN_EXCEPTION, bind, DELETE_FROM_todos, IF_THEN.
  destruct (is_true _).
  - unfold RAISE, WHEN_OTHERS, ret. eexists _, _. split; [reflexivity|].
    intros _. split; [reflexivity|]. eexists. split; [reflexivity|].
    cbn [SQLERRM]. now apply count_message_not_retryable.
  - unfold ret. eexists _, _. split; [reflexivity|]. discriminate.
Qed.

Lemma isRetryableError_UNKNOWN m :
  not_retryable_message m -> isRetryableError (TransactionError m "UNKNOWN") = false.
Proof.
  intros (_ & Hf & Ht). unfold isRetryableError, message_includes, TransactionError.
  cbn [code message]. rewrite Hf, Ht. reflexivity.
Qed.

Lemma or_else_nonempty m fallback : m <> "" -> or_else (Some m) fallback = m.
Proof. intros H. destruct m; [congruence|reflexivity]. Qed.

(** An attempt that returns, or throws an error that is not retryable,
    is the only one. *)
Lemma retryWithBackoff_once {W T} (operation : W -> (T + js_error) * W) retries w :
  match fst (operation w) with
  | inl _ => True
  | inr error => isRetryableError error = false
  end ->
  retryWithBackoff operation retries w = (operation w, []).
Proof.
  destruct retries; cbn [retryWithBackoff];
    destruct (operation w) as [[value|error] w']; cbn [fst]; intros H;
    try rewrite H; reflexivity.
Qed.

(** The retry loop around such a procedure runs it once. *)
Lemma bulk_operation_served_once NOW fn failed w :
  (forall u now db,
      exists r db',
        fn u now db = Return r db'
        /\ (success r = false ->
            db' = db
            /\ exists m, error_message r = Some m /\ not_retryable_message m)) ->
  served_once NOW fn w
    (retryWithBackoff (bulk_operation NOW fn failed) MAX_RETRIES w).
Proof.
  intros Hfn. unfold served_once.
  destruct w as [[u|] db k]; cbn [auth_user server requests].
  - destruct (Hfn u (NOW k) db) as (r & db' & E & Hrej).
    assert (Eop : bulk_operation NOW fn failed (mk_client_world (Some u) db k)
                  = (if negb (success r)
                     then inr (TransactionError
                                 (or_else (error_message r) "Transaction failed")
                                 "UNKNOWN")
                     else inl (mk_count_result true (updated_count r)),
                     mk_client_world (Some u) db' (S k))).
    { unfold bulk_operation, rpc. cbn [auth_user server requests]. rewrite E.
      destruct (success r); reflexivity. }
    exists r, db'. split; [exact E|].
    destruct (success r) eqn:Es; cbn [negb] in Eop.
    + rewrite retryWithBackoff_once; rewrite Eop; [reflexivity|exact I].
    + destruct (Hrej eq_refl) as (-> & m & Em & Hm).
      split; [reflexivity|]. exists m. split; [exact Em|]. split; [exact Hm|].
      rewrite Em, (or_else_nonempty m _ (proj1 Hm)) in Eop.
      rewrite retryWithBackoff_once; rewrite Eop; [reflexivity|].
      cbn [fst]. now apply isRetryableError_UNKNOWN.
  - rewrite retryWithBackoff_once; reflexivity.
Qed.

(** X12. Over a connection that delivers every request, the three bulk
    functions of the API never retry: without a signed-in user they
    throw PERMISSION_DENIED without calling the server; otherwise the
    stored procedure runs exactly once, its count is returned on
    success, and a rejection leaves the database as it was and is
    thrown as UNKNOWN with the procedure's own message, which is never
    empty and never mentions 'fetch' or 'timeout'. *)
Theorem bulk_api_served_once :
  forall NOW w todoIds isComplete categoryId,
    served_once NOW (fun u now => bulk_update_todos now u todoIds isComplete) w
                (bulkUpdateTodos NOW todoIds isComplete w)
    /\ served_once NOW (fun u now => bulk_change_category now u todoIds categoryId) w
                   (bulkChangeCategory NOW todoIds categoryId w)
    /\ served_once NOW (fun u _ => bulk_delete_todos u todoIds) w
                   (bulkDeleteTodos NOW todoIds w).
Proof.
  intros NOW w todoIds isComplete categoryId.
  split; [|split].
  - apply bulk_operation_served_once. intros u now db.
    apply bulk_update_todos_reports.
  - apply bulk_operation_served_once. intros u now db.
    apply bulk_change_category_reports.
  - apply bulk_operation_served_once. intros u now db.
    apply bulk_delete_todos_reports.
Qed.

(** ** The optimistic lock seen from the client *)

(** When the conditional UPDATE selects a row, the procedure succeeds
    or reports an INTEGER overflow or a foreign-key violation. *)
Lemma update_todo_with_version_selected now u tid ttl b c v db :
  filter (owned_at_version u tid v) (todos db) <> [] ->
  exists r db',
    update_todo_with_version now u tid ttl b c v db = Return r db'
    /\ (v_success r = true
        \/ (db' = db /\ v_success r = false
            /\ exists e, (e = numeric_value_out_of_range \/ e = foreign_key_violation)
                         /\ v_error_message r = Some (SQLERRM e))).
Proof.
  intros Hsel. unfold update_todo_with_version, BEGIN_EXCEPTION, bind.
  fold (owned_at_version u tid v). fold (SET_all ttl b c).
  rewrite UPDATE_todos_eq.
  destruct (forallb _ (todos db)).
  - destruct (forallb (fk_category_ok _) _).
    + unfold IF_THEN, ROW_COUNT. rewrite length_map.
      destruct (filter (owned_at_version u tid v) (todos db)) as [|t sel];
        [congruence|].
      cbn [List.length is_true]. 
      replace (Z.of_nat (S (List.length sel)) =? 0) with false
        by (symmetry; apply Z.eqb_neq; lia).
      unfold ret. eexists _, _. split; [reflexivity|]. now left.
    + unfold ret. eexists _, _. split; [reflexivity|]. right.
      split; [reflexivity|]. split; [reflexivity|].
      exists foreign_key_violation. split; [now right|reflexivity].
  - unfold ret. eexists _, _. split; [reflexivity|]. right.
    split; [reflexivity|]. split; [reflexivity|].
    exists numeric_value_out_of_range. split; [now left|reflexivity].
Qed.

(** X13. For a signed-in user and a table with unique ids,
    [updateTodoWithVersion] throws VERSION_CONFLICT exactly when the
    todo exists, is the caller's, and stands at another version than
    the expected one.  When no todo of the caller has the id it throws
    UNKNOWN with 'Todo not found or access denied'; when the todo stands
    at the expected version, below the largest INTEGER, and the
    category exists, it returns the expected version plus one.
    Whenever it throws, the database is as it was. *)
Theorem updateTodoWithVersion_outcomes :
  forall NOW w u todoId ttl b c v,
    auth_user w = Some u ->
    todos_pkey (server w) ->
    let outcome := updateTodoWithVersion NOW todoId ttl b c v w in
    (fst outcome = inr VersionConflictError
     <-> exists t, In t (todos (server w))
                   /\ id t = todoId /\ user_id t = u /\ version t <> v)
    /\ ((forall t, In t (todos (server w)) -> id t = todoId -> user_id t <> u) ->
        fst outcome = inr (TransactionError Todo_not_found "UNKNOWN"))
    /\ (forall t,
          In t (todos (server w)) -> id t = todoId -> user_id t = u ->
          version t = v -> INT_MIN <= v < INT_MAX ->
          category_ref_ok (server w) c = true ->
          fst outcome = inl (mk_version_result true (Some (v + 1))))
    /\ (forall e, fst outcome = inr e -> server (snd outcome) = server w)
    /\ requests (snd outcome) = S (requests w).
Proof.
  intros NOW w u tid ttl b c v Hu Hpk outcome.
  destruct w as [au db k]. cbn [auth_user server requests] in *. subst au.
  set (now := NOW k).
  assert (Hout : outcome
                 = match update_todo_with_version now u tid ttl b c v db with
                   | Return r db' =>
                       (if negb (v_success r)
                        then if match v_error_message r with
                                | Some m => includes m "Version conflict"
                                | None => false
                                end
                             then inr VersionConflictError
                             else inr (TransactionError
                                         (or_else (v_error_message r) "Update failed")
                                         "UNKNOWN")
                        else inl (mk_version_result true (new_version r)),
                        mk_client_world (Some u) db' (S k))
                   | Raised e =>
                       (inr (TransactionError
                               (or_else (Some (SQLERRM e)) "Failed to update todo")
                               "UNKNOWN"),
                        mk_client_world (Some u) db (S k))
                   end).
  { unfold outcome, updateTodoWithVersion, rpc. cbn [auth_user server requests].
    fold now. destruct (update_todo_with_version now u tid ttl b c v db) as [r db'|e];
      [|reflexivity].
    destruct (v_success r); cbn [negb]; [reflexivity|].
    destruct (match v_error_message r with Some _ => _ | None => _ end); reflexivity. }
  assert (Hcases :
            (filter (owned_at_version u tid v) (todos db) = []
             /\ outcome = (if existsb (owned_is u tid) (todos db)
                           then inr VersionConflictError
                           else inr (TransactionError Todo_not_found "UNKNOWN"),
                           mk_client_world (Some u) db (S k)))
            \/ (filter (owned_at_version u tid v) (todos db) <> []
                /\ exists res db',
                     outcome = (res, mk_client_world (Some u) db' (S k))
                     /\ res <> inr VersionConflictError
                     /\ (forall e, res = inr e -> db' = db))).
  { destruct (filter (owned_at_version u tid v) (todos db)) as [|t0 sel] eqn:Ef.
    - left. split; [reflexivity|]. rewrite Hout.
      rewrite (update_todo_with_version_no_match now u tid ttl b c v db Ef).
      cbn [v_success negb v_error_message].
      destruct (existsb (owned_is u tid) (todos db)); reflexivity.
    - right. split; [discriminate|].
      destruct (update_todo_with_version_selected now u tid ttl b c v db)
        as (r & db' & E & Hr); [rewrite Ef; discriminate|].
      rewrite Hout, E. eexists _, db'. split; [reflexivity|].
      destruct Hr as [Hs|(-> & Hs & e & He & Em)]; rewrite Hs; cbn [negb].
      + split; [discriminate|]. intros e He. discriminate He.
      + rewrite Em. split; [|reflexivity].
        destruct He as [-> | ->]; cbn; discriminate. }
  assert (Hexists : existsb (owned_is u tid) (todos db) = true
                    <-> exists t, In t (todos db) /\ id t = tid /\ user_id t = u).
  { rewrite existsb_exists. split; intros (t & Ht & H); exists t.
    - apply owned_is_true in H. tauto.
    - split; [tauto|]. apply owned_is_true. tauto. }
  assert (Hsel : forall t, In t (todos db) -> id t = tid -> user_id t = u ->
                   (filter (owned_at_version u tid v) (todos db) = []
                    <-> version t <> v)).
  { intros t Ht Hid Hus. rewrite filter_nil_iff. split.
    - intros Hnone Hv. specialize (Hnone t Ht).
      assert (owned_at_version u tid v t = true) by (apply owned_at_version_true; auto).
      congruence.
    - intros Hv r Hr. destruct (owned_at_version u tid v r) eqn:E; [|reflexivity].
      apply owned_at_version_true in E as (Eid & _ & Ev).
      assert (r = t).
      { apply (NoDup_map_injective id (todos db)); auto. congruence. }
      subst r. contradiction. }
  split; [|split; [|split; [|split]]].
  - split.
    + intros Hc. destruct Hcases as [[Ef Eo]|(Hne & res & db' & Eo & Hres & _)].
      * rewrite Eo in Hc. cbn [fst] in Hc.
        destruct (existsb (owned_is u tid) (todos db)) eqn:Ex; [|discriminate].
        destruct (proj1 Hexists eq_refl) as (t & Ht & Hid & Hus). exists t.
        repeat (split; [assumption|]). now apply (Hsel t Ht Hid Hus).
      * rewrite Eo in Hc. cbn [fst] in Hc. contradiction.
    + intros (t & Ht & Hid & Hus & Hv).
      apply (Hsel t Ht Hid Hus) in Hv.
      destruct Hcases as [[Ef Eo]|(Hne & _)]; [|contradiction].
      rewrite Eo. cbn [fst].
      replace (existsb (owned_is u tid) (todos db)) with true; [reflexivity|].
      symmetry. apply Hexists. eauto.
  - intros Hnone.
    assert (Ex : existsb (owned_is u tid) (todos db) = false).
    { destruct (existsb _ _) eqn:Ex; [|reflexivity].
      destruct (proj1 Hexists eq_refl) as (t & Ht & Hid & Hus).
      now destruct (Hnone t Ht Hid). }
    destruct Hcases as [[Ef Eo]|(Hne & _)].
    + rewrite Eo, Ex. reflexivity.
    + exfalso. apply Hne. apply filter_nil_iff. intros r Hr.
      destruct (owned_at_version u tid v r) eqn:E; [|reflexivity].
      apply owned_at_version_true in E as (Eid & Eus & _).
      now destruct (Hnone r Hr Eid).
  - intros t Ht Hid Hus Hv Hrange Hcat. rewrite Hout. subst tid v.
    rewrite (update_todo_with_version_match now u t ttl b c db Ht Hus Hrange Hcat).
    reflexivity.
  - intros e He.
    destruct Hcases as [[Ef Eo]|(Hne & res & db' & Eo & _ & Hdb)].
    + rewrite Eo. reflexivity.
    + rewrite Eo in He |- *. cbn [fst snd server] in *. exact (Hdb e He).
  - destruct Hcases as [[Ef Eo]|(Hne & res & db' & Eo & _)]; rewrite Eo; reflexivity.
Qed.

Lemma updateTodoWithVersion_outcomes_witness :
  fst (updateTodoWithVersion (fun _ => 500) 1%N "Report" true (Some 7%N) 1
         (mk_client_world (Some 10%N) (db_categorized 1) 0))
  = inl (mk_version_result true (Some 2))
  /\ fst (updateTodoWithVersion (fun _ => 500) 1%N "Report" true (Some 7%N) 1
            (mk_client_world (Some 10%N) (db_categorized 2) 0))
     = inr VersionConflictError.
Proof.
  assert (Hpk : forall n, todos_pkey (db_categorized n))
    by (intros n; apply todos_constraints_db_categorized).
  split.
  - destruct (updateTodoWithVersion_outcomes (fun _ => 500)
                (mk_client_world (Some 10%N) (db_categorized 1) 0)
                10%N 1%N "Report" true (Some 7%N) 1 eq_refl (Hpk 1))
      as (_ & _ & Hok & _).
    apply (Hok (mk_todo 1%N 10%N "Write report" false (Some 7%N) 100 100 1));
      try reflexivity.
    + now left.
    + unfold INT_MIN, INT_MAX. lia.
  - destruct (updateTodoWithVersion_outcomes (fun _ => 500)
                (mk_client_world (Some 10%N) (db_categorized 2) 0)
                10%N 1%N "Report" true (Some 7%N) 1 eq_refl (Hpk 2))
      as (Hconflict & _).
    apply Hconflict.
    exists (mk_todo 1%N 10%N "Write report" false (Some 7%N) 100 100 2).
    split; [now left|]. repeat split. discriminate.
Defined.

(** * The bulk actions of the todo list *)

Import TodoListWithTransactions.

Lemma bulk_update_todos_stores now u ids b db r db' :
  NoDup ids ->
  bulk_update_todos now u ids b db = Return r db' -> success r = true ->
  db' = with_todos db (map (fun t => if owned_in u ids t
                                     then updated_row now (SET_is_complete b) t else t)
                           (todos db)).
Proof.
  intros Hnd H Hs. rewrite bulk_update_todos_unfold in H.
  apply WHEN_OTHERS_success in H; [|assumption].
  unfold bind at 1 in H. rewrite (FOREACH_bulk_update_NoDup now u b ids Hnd) in H.
  destruct (forallb _ (todos db)); [|discriminate].
  unfold bind in H.
  destruct (IF_THEN _ _ _) as [[] d|e] eqn:E; [|discriminate].
  injection H as _ <-. now apply IF_THEN_RAISE_inv in E.
Qed.

Lemma bulk_change_category_stores now u ids c db r db' :
  bulk_change_category now u ids c db = Return r db' -> success r = true ->
  db' = with_todos db (map (fun t => if owned_in u ids t
                                     then updated_row now (SET_category_id c) t else t)
                           (todos db)).
Proof.
  intros H Hs. apply WHEN_OTHERS_success in H; [|assumption].
  unfold bind at 1 in H. fold (owned_in u ids) in H.
  assert (H' : (rows <- UPDATE_todos now (owned_in u ids) (SET_category_id c) ;;
                IF_THEN (int4ne (ROW_COUNT rows) (array_length ids))
                  (RAISE (raise_exception "Some todos could not be updated")) ;;
                ret (mk_bulk_row true (ROW_COUNT rows) None)) db = Return r db').
  { destruct c as [c'|]; [|exact H].
    unfold bind at 1 in H. unfold EXISTS_categories in H.
    destruct (existsb _ (categories db)); unfold IF_THEN in H; simpl in H;
      [exact H|discriminate]. }
  now apply (set_based_update_success now u ids (SET_category_id c)
               (fun _ => raise_exception "Some todos could not be updated"))
    in H' as (-> & _).
Qed.

(** A row of the list that mirrors the caller's row [t] is selected by
    the bulk statement exactly when its id is in the selection. *)
Lemma owned_in_Set_has u ids t :
  user_id t = u -> owned_in u ids t = Set_has ids (id t).
Proof.
  intros <-. unfold owned_in, Set_has, eq_ANY. now rewrite N.eqb_refl, andb_true_r.
Qed.

(** The outcome of a bulk API call of a signed-in user, as the handlers
    read it. *)
Lemma served_once_signed_in NOW fn w u outcome :
  auth_user w = Some u ->
  served_once NOW fn w outcome ->
  exists r db',
    fn u (NOW (requests w)) (server w) = Return r db'
    /\ ((success r = true
         /\ outcome = (inl (mk_count_result true (updated_count r)),
                       mk_client_world (Some u) db' (S (requests w)), []))
        \/ (exists m,
              not_retryable_message m
              /\ outcome = (inr (TransactionError m "UNKNOWN"),
                            mk_client_world (Some u) (server w) (S (requests w)), []))).
Proof.
  intros Hu H. unfold served_once in H. rewrite Hu in H.
  destruct H as (r & db' & E & H). exists r, db'. split; [exact E|].
  destruct (success r); [left; auto|].
  destruct H as (_ & m & _ & Hm & Ho). right. eauto.
Qed.

(** The operations on the selection keep its ids distinct. *)
Lemma Set_add_NoDup s x : NoDup s -> NoDup (Set_add s x).
Proof.
  intros Hs. unfold Set_add. destruct (Set_has s x) eqn:E; [exact Hs|].
  apply NoDup_snoc; [exact Hs|]. intros Hin.
  assert (Set_has s x = true); [|congruence].
  apply existsb_exists. exists x. split; [exact Hin|apply N.eqb_refl].
Qed.

Lemma Set_delete_NoDup s x : NoDup s -> NoDup (Set_delete s x).
Proof. intros Hs. unfold Set_delete. now apply NoDup_filter. Qed.

Lemma new_Set_NoDup values : NoDup (new_Set values).
Proof.
  unfold new_Set. assert (H : forall s, NoDup s -> NoDup (fold_left Set_add values s)).
  { induction values as [|v values IH]; intros s Hs; [exact Hs|].
    cbn [fold_left]. apply IH. now apply Set_add_NoDup. }
  apply H. constructor.
Qed.

(** X14. The bulk actions of the list, for a signed-in user, a
    selection of distinct ids that is not empty, and a list whose rows
    are rows of the table owned by the user.  Each action either fails,
    and then the table, the list and the selection are as they were and
    the procedure's message is shown; or it succeeds, clears the
    selection, and the list is in step with the table again, except
    that a row rewritten by "complete" or "change category" is shown
    one version behind the table.  After a bulk delete no selected todo
    is left in the list or in the table.  Exactly one request is sent:
    the refetch for a version conflict never runs.  Selecting one todo
    or all of them keeps the selected ids distinct. *)
Theorem bulk_actions_keep_list_in_step :
  forall NOW st w u,
    auth_user w = Some u ->
    todos_pkey (server w) ->
    NoDup (selectedTodos st) ->
    selectedTodos st <> [] ->
    (forall j, In j (ui_todos st) ->
               In (fst j) (todos (server w)) /\ user_id (fst j) = u) ->
    let lag j := if Set_has (selectedTodos st) (id (fst j)) then 1 else 0 in
    (forall isComplete,
        let after := handleBulkComplete NOW isComplete st w in
        requests (snd after) = S (requests w)
        /\ (action_failed st w after
            \/ (ui_error (fst after) = None
                /\ selectedTodos (fst after) = []
                /\ forall j, In j (ui_todos (fst after)) ->
                     shows (server (snd after)) (lag j) j
                     /\ (lag j = 1 -> is_complete (fst j) = isComplete))))
    /\ (forall categoryId,
          let after := handleBulkChangeCategory NOW categoryId st w in
          requests (snd after) = S (requests w)
          /\ (action_failed st w after
              \/ (ui_error (fst after) = None
                  /\ selectedTodos (fst after) = []
                  /\ forall j, In j (ui_todos (fst after)) ->
                       shows (server (snd after)) (lag j) j
                       /\ (lag j = 1 -> category_id (fst j) = categoryId))))
    /\ (let after := handleBulkDelete NOW true st w in
        requests (snd after) = S (requests w)
        /\ (action_failed st w after
            \/ (ui_error (fst after) = None
                /\ selectedTodos (fst after) = []
                /\ (forall j, In j (ui_todos (fst after)) ->
                      shows (server (snd after)) 0 j /\ lag j = 0)
                /\ forall r, In r (todos (server (snd after))) ->
                             ~ In (id r) (selectedTodos st))))
    /\ handleBulkDelete NOW false st w = (st, w)
    /\ NoDup (selectedTodos (handleSelectAll st))
    /\ forall id', NoDup (selectedTodos (handleSelectTodo id' st)).
Proof.
  intros NOW st w u Hu Hpk Hnd Hsel Hmirror.
  destruct (selectedTodos st) as [|x xs] eqn:Esel; [congruence|]. clear Hsel.
  rewrite <- Esel in *. intros lag.
  assert (Hfail : forall m after,
            not_retryable_message m ->
            after = (failed st (Some m),
                     mk_client_world (Some u) (server w) (S (requests w))) ->
            requests (snd after) = S (requests w) /\ action_failed st w after).
  { intros m after Hm ->. split; [reflexivity|]. unfold action_failed. cbn.
    repeat split; eauto. }
  split; [|split; [|split; [|split; [|split]]]].
  - intros isComplete after.
    destruct (served_once_signed_in NOW _ w u _ Hu
                (bulk_operation_served_once NOW
                   (fun u0 now => bulk_update_todos now u0 (selectedTodos st) isComplete)
                   "Failed to update todos" w
                   (fun u0 now db => bulk_update_todos_reports now u0 _ isComplete db)))
      as (r & db' & E & [[Hs Ho]|(m & Hm & Ho)]).
    + assert (Eafter : after
                = (succeeded st
                     (map (fun todo =>
                             if Set_has (selectedTodos st) (id (fst todo))
                             then (SET_is_complete isComplete (fst todo), snd todo)
                             else todo) (ui_todos st))
                     (String_of_number (updated_count r) ++ "件のTodoを"
                      ++ (if isComplete then "完了" else "未完了") ++ "にしました"),
                   mk_client_world (Some u) db' (S (requests w)))).
      { unfold after, handleBulkComplete, bulkUpdateTodos. rewrite Esel at 1.
        rewrite Ho. reflexivity. }
      rewrite Eafter. cbn [fst snd requests server succeeded ui_error selectedTodos
                           ui_todos].
      split; [reflexivity|]. right. split; [reflexivity|]. split; [reflexivity|].
      apply (bulk_update_todos_stores _ _ _ _ _ _ _ Hnd E) in Hs. subst db'.
      intros j' Hj'. apply in_map_iff in Hj' as (j & <- & Hj).
      destruct (Hmirror j Hj) as [Ht Hown]. destruct j as [t c]. cbn [fst] in *.
      unfold lag. unfold shows.
      destruct (Set_has (selectedTodos st) (id t)) eqn:Eh; cbn [fst SET_is_complete id].
      * rewrite Eh. split; [|reflexivity].
        exists (updated_row (NOW (requests w)) (SET_is_complete isComplete) t).
        split; [|repeat split].
        cbn [todos with_todos]. apply in_map_iff. exists t. split; [|exact Ht].
        now rewrite (owned_in_Set_has u _ t Hown), Eh.
      * rewrite Eh. split; [|discriminate].
        exists t. split; [|repeat split; lia].
        cbn [todos with_todos]. apply in_map_iff. exists t. split; [|exact Ht].
        now rewrite (owned_in_Set_has u _ t Hown), Eh.
    + destruct (Hfail m after Hm) as [Hr Hf].
      { unfold after, handleBulkComplete, bulkUpdateTodos. rewrite Esel at 1.
        rewrite Ho. reflexivity. }
      split; [exact Hr|left; exact Hf].
  - intros categoryId after.
    destruct (served_once_signed_in NOW _ w u _ Hu
                (bulk_operation_served_once NOW
                   (fun u0 now =>
                      bulk_change_category now u0 (selectedTodos st) categoryId)
                   "Failed to change categories" w
                   (fun u0 now db => bulk_change_category_reports now u0 _ categoryId db)))
      as (r & db' & E & [[Hs Ho]|(m & Hm & Ho)]).
    + assert (Eafter : after
                = (succeeded st
                     (map (fun todo =>
                             if Set_has (selectedTodos st) (id (fst todo))
                             then (SET_category_id categoryId (fst todo),
                                   find (fun c => option_uuid_eqb (Some (c_id c))
                                                                  categoryId)
                                        (ui_categories st))
                             else todo) (ui_todos st))
                     (String_of_number (updated_count r)
                      ++ "件のカテゴリーを変更しました"),
                   mk_client_world (Some u) db' (S (requests w)))).
      { unfold after, handleBulkChangeCategory, bulkChangeCategory. rewrite Esel at 1.
        rewrite Ho. reflexivity. }
      rewrite Eafter. cbn [fst snd requests server succeeded ui_error selectedTodos
                           ui_todos].
      split; [reflexivity|]. right. split; [reflexivity|]. split; [reflexivity|].
      apply (bulk_change_category_stores _ _ _ _ _ _ _ E) in Hs. subst db'.
      intros j' Hj'. apply in_map_iff in Hj' as (j & <- & Hj).
      destruct (Hmirror j Hj) as [Ht Hown]. destruct j as [t c]. cbn [fst] in *.
      unfold lag. unfold shows.
      destruct (Set_has (selectedTodos st) (id t)) eqn:Eh; cbn [fst SET_category_id id].
      * rewrite Eh. split; [|reflexivity].
        exists (updated_row (NOW (requests w)) (SET_category_id categoryId) t).
        split; [|repeat split].
        cbn [todos with_todos]. apply in_map_iff. exists t. split; [|exact Ht].
        now rewrite (owned_in_Set_has u _ t Hown), Eh.
      * rewrite Eh. split; [|discriminate].
        exists t. split; [|repeat split; lia].
        cbn [todos with_todos]. apply in_map_iff. exists t. split; [|exact Ht].
        now rewrite (owned_in_Set_has u _ t Hown), Eh.
    + destruct (Hfail m after Hm) as [Hr Hf].
      { unfold after, handleBulkChangeCategory, bulkChangeCategory. rewrite Esel at 1.
        rewrite Ho. reflexivity. }
      split; [exact Hr|left; exact Hf].
  - intros after.
    destruct (served_once_signed_in NOW _ w u _ Hu
                (bulk_operation_served_once NOW
                   (fun u0 _ => bulk_delete_todos u0 (selectedTodos st))
                   "Failed to delete todos" w
                   (fun u0 _ db => bulk_delete_todos_reports u0 _ db)))
      as (r & db' & E & [[Hs Ho]|(m & Hm & Ho)]).
    + assert (Eafter : after
                = (succeeded st
                     (filter (fun todo =>
                                negb (Set_has (selectedTodos st) (id (fst todo))))
                             (ui_todos st))
                     (String_of_number (updated_count r) ++ "件のTodoを削除しました"),
                   mk_client_world (Some u) db' (S (requests w)))).
      { unfold after, handleBulkDelete, bulkDeleteTodos. rewrite Esel at 1.
        cbn [negb]. rewrite Ho. reflexivity. }
      rewrite Eafter. cbn [fst snd requests server succeeded ui_error selectedTodos
                           ui_todos].
      split; [reflexivity|]. right. split; [reflexivity|]. split; [reflexivity|].
      destruct (bulk_delete_todos_success _ _ _ _ _ E Hs) as (-> & _ & Hfull).
      destruct (rows_affected_full u _ _ Hpk Hfull) as [_ Hown].
      split.
      * intros j Hj. apply filter_In in Hj as [Hj Hn]. apply negb_true_iff in Hn.
        destruct (Hmirror j Hj) as [Ht Hu']. unfold lag. rewrite Hn.
        split; [|reflexivity]. exists (fst j). split; [|repeat split; lia].
        cbn [todos with_todos]. apply filter_In. split; [exact Ht|].
        now rewrite (owned_in_Set_has u _ _ Hu'), Hn.
      * intros r' Hr' Hin. cbn [todos with_todos] in Hr'.
        apply filter_In in Hr' as [Hr' Hn]. apply negb_true_iff in Hn.
        destruct (Hown _ Hin) as (t & Ht & Eid & Eu).
        assert (t = r') by (apply (NoDup_map_injective id (todos (server w))); auto).
        subst t. rewrite (owned_in_Set_has u _ _ Eu) in Hn.
        unfold Set_has in Hn. apply eq_ANY_In in Hin. unfold eq_ANY in Hin. congruence.
    + destruct (Hfail m after Hm) as [Hr Hf].
      { unfold after, handleBulkDelete, bulkDeleteTodos. rewrite Esel at 1.
        cbn [negb]. rewrite Ho. reflexivity. }
      split; [exact Hr|left; exact Hf].
  - unfold handleBulkDelete. rewrite Esel. reflexivity.
  - unfold handleSelectAll. destruct (Nat.eqb _ _); cbn [selectedTodos with_selectedTodos].
    + constructor.
    + apply new_Set_NoDup.
  - intros id'. unfold handleSelectTodo. cbn [selectedTodos with_selectedTodos].
    destruct (Set_has (selectedTodos st) id').
    + now apply Set_delete_NoDup.
    + now apply Set_add_NoDup.
Qed.

Lemma bulk_actions_keep_list_in_step_witness :
  let after := handleBulkComplete (fun _ => 500) true list_of_user_10
                                  client_of_user_10 in
  selectedTodos (fst after) = []
  /\ forall j, In j (ui_todos (fst after)) ->
       shows (server (snd after)) (if Set_has [1%N] (id (fst j)) then 1 else 0) j.
Proof.
  cbv zeta.
  destruct (bulk_actions_keep_list_in_step (fun _ => 500) list_of_user_10
              client_of_user_10 10%N eq_refl) as (Hcomplete & _).
  - apply todos_constraints_db_categorized.
  - repeat constructor. intros [].
  - discriminate.
  - intros j [<-|[<-|[]]]; cbn; auto.
  - destruct (Hcomplete true) as (_ & [Hf|(_ & Hsel & Hrows)]).
    + destruct Hf as (_ & _ & _ & m & Hm & _). vm_compute in Hm. discriminate.
    + split; [exact Hsel|]. intros j Hj. exact (proj1 (Hrows j Hj)).
Defined.

(** * Cursor pages under concurrent changes, and completion rates *)

Lemma filter_LEFT_JOIN (keep : todo -> bool) db :
  filter (fun j => keep (fst j)) (LEFT_JOIN_categories db)
  = LEFT_JOIN_categories (with_todos db (filter keep (todos db))).
Proof.
  unfold LEFT_JOIN_categories. cbn [todos categories with_todos].
  induction (todos db) as [|t rows IH]; [reflexivity|].
  cbn [map filter fst]. destruct (keep t); cbn [map]; now rewrite IH.
Qed.

(** The rows [get_todos_cursor] selects depend on the todos created
    before the cursor only. *)
Lemma cursor_candidates_before similarity db u c v cat :
  cursor_candidates similarity db u c v cat
  = cursor_candidates similarity
      (with_todos db (filter (fun t => created_at t <? c) (todos db))) u c v cat.
Proof.
  unfold cursor_candidates.
  rewrite <- (filter_LEFT_JOIN (fun t => created_at t <? c) db), filter_twice.
  apply filter_ext. intros j. destruct (created_at (fst j) <? c); [reflexivity|].
  now rewrite !andb_false_r.
Qed.

Lemma cursor_candidates_same_before similarity db db' u c v cat :
  categories db' = categories db ->
  filter (fun t => created_at t <? c) (todos db')
  = filter (fun t => created_at t <? c) (todos db) ->
  cursor_candidates similarity db' u c v cat
  = cursor_candidates similarity db u c v cat.
Proof.
  intros Hcat Hbefore.
  rewrite (cursor_candidates_before similarity db'),
          (cursor_candidates_before similarity db).
  unfold cursor_candidates, LEFT_JOIN_categories.
  cbn [todos categories with_todos]. now rewrite Hcat, Hbefore.
Qed.

(** X15. A page of [get_todos_cursor] for a given cursor depends only
    on the categories and on the todos created before the cursor:
    todos added, changed or deleted at or after the cursor while the
    list is being scrolled do not change any later page, nor its
    [has_more] flag. *)
Theorem get_todos_cursor_ignores_newer_rows :
  forall similarity now now' db db' u c limit q cat,
    categories db' = categories db ->
    filter (fun t => created_at t <? c) (todos db')
    = filter (fun t => created_at t <? c) (todos db) ->
    get_todos_cursor similarity now' db' u (Some c) limit q cat
    = get_todos_cursor similarity now db u (Some c) limit q cat.
Proof.
  intros similarity now now' db db' u c limit q cat Hcat Hbefore.
  unfold get_todos_cursor. cbv zeta.
  now rewrite (cursor_candidates_same_before similarity db db' u c _ cat Hcat Hbefore).
Qed.

Lemma get_todos_cursor_ignores_newer_rows_witness :
  get_todos_cursor pg_trgm_similarity 6000 db_26_todos 10%N (Some 1021) 20 None None
  = get_todos_cursor pg_trgm_similarity 5000 (db_25_todos created_1000) 10%N
                     (Some 1021) 20 None None.
Proof.
  apply get_todos_cursor_ignores_newer_rows; [reflexivity|].
  vm_compute. reflexivity.
Defined.

(** ** Completion rate *)

Lemma int84_Ok_inv n m : int84 n = Ok m -> m = n /\ INT_MIN <= n <= INT_MAX.
Proof.
  unfold int84. destruct ((INT_MIN <=? n) && (n <=? INT_MAX)) eqn:E; [|discriminate].
  intros H. injection H as <-. apply andb_true_iff in E as [E1 E2].
  apply Z.leb_le in E1, E2. auto.
Qed.

(** The rate of [c] out of [t > 0], in percent with two decimals. *)
Lemma ROUND_2_percentage (c t : Z) :
  0 <= c <= t -> 0 < t ->
  let exact := (inject_Z c / inject_Z t * 100)%Q in
  let r := ROUND_2 exact in
  (0 <= r <= 100)%Q
  /\ (exact - (1 # 200) <= r <= exact + (1 # 200))%Q
  /\ (c = t -> (r == 100)%Q)
  /\ (c = 0 -> (r == 0)%Q).
Proof.
  intros Hc Ht exact r.
  assert (Hexact : (0 <= exact <= 100)%Q).
  { unfold exact. destruct t as [|p|p]; try lia.
    unfold Qdiv, Qmult, Qinv, Qle, inject_Z. cbn [Qnum Qden]. split; nia. }
  assert (He100 : c = t -> (exact == 100)%Q).
  { intros ->. unfold exact. destruct t as [|p|p]; try lia.
    unfold Qeq, Qdiv, Qmult, Qinv, inject_Z. cbn [Qnum Qden]. lia. }
  assert (He0 : c = 0 -> (exact == 0)%Q).
  { intros ->. unfold exact. destruct t as [|p|p]; try lia. reflexivity. }
  assert (Hr : r = Qmake (Qfloor (exact * 100 + (1 # 2))%Q) 100).
  { unfold r, ROUND_2. destruct (Qle_bool 0 exact) eqn:E; [reflexivity|].
    exfalso. destruct Hexact as [H0 _]. apply Qle_bool_iff in H0. congruence. }
  clearbody r. clearbody exact.
  pose proof (Qfloor_le (exact * 100 + (1 # 2))%Q) as Hlo.
  pose proof (Qlt_floor (exact * 100 + (1 # 2))%Q) as Hhi.
  set (f := Qfloor (exact * 100 + (1 # 2))%Q) in *. clearbody f.
  assert (Hf : (r == inject_Z f * (1 # 100))%Q).
  { rewrite Hr. unfold Qeq, Qmult, inject_Z. cbn [Qnum Qden]. lia. }
  rewrite inject_Z_plus in Hhi. change (inject_Z 1) with 1%Q in Hhi.
  assert (Hf0 : (0 <= inject_Z f)%Q).
  { assert (H : (inject_Z (-1) < inject_Z f)%Q)
      by (change (inject_Z (-1)) with (-1)%Q; lra).
    rewrite <- Zlt_Qlt in H. change 0%Q with (inject_Z 0).
    rewrite <- Zle_Qle. lia. }
  assert (Hf100 : (inject_Z f <= 10000)%Q).
  { assert (H : (inject_Z f < inject_Z 10001)%Q)
      by (change (inject_Z 10001) with 10001%Q; lra).
    rewrite <- Zlt_Qlt in H. change 10000%Q with (inject_Z 10000).
    rewrite <- Zle_Qle. lia. }
  split; [|split; [|split]].
  - rewrite Hf. split; lra.
  - rewrite Hf. split; lra.
  - intros E. specialize (He100 E). rewrite Hf.
    assert (H : (inject_Z 9999 < inject_Z f)%Q)
      by (change (inject_Z 9999) with 9999%Q; lra).
    rewrite <- Zlt_Qlt in H.
    assert (H' : (inject_Z f < inject_Z 10001)%Q)
      by (change (inject_Z 10001) with 10001%Q; lra).
    rewrite <- Zlt_Qlt in H'. replace f with 10000 by lia. reflexivity.
  - intros E. specialize (He0 E). rewrite Hf.
    assert (H : (inject_Z f < inject_Z 1)%Q)
      by (change (inject_Z 1) with 1%Q; lra).
    rewrite <- Zlt_Qlt in H.
    assert (H' : (inject_Z (-1) < inject_Z f)%Q)
      by (change (inject_Z (-1)) with (-1)%Q; lra).
    rewrite <- Zlt_Qlt in H'. replace f with 0 by lia. reflexivity.
Qed.

(** X16. [get_completion_rate_for_period] returns its row whenever the
    table has no more rows than the largest INTEGER.  In the row the
    completed todos are at most the total; the rate is NULL exactly
    when no todo of the user was created in the period (as when the
    period ends before it starts); otherwise it lies between 0 and 100,
    within 0.005 of the exact percentage, and is 100 when all are
    complete and 0 when none is. *)
Theorem get_completion_rate_for_period_bounds :
  forall db u p_start_date p_end_date,
    (Z.of_nat (List.length (todos db)) <= INT_MAX ->
     exists row, get_completion_rate_for_period db u p_start_date p_end_date = Ok row)
    /\ forall row,
         get_completion_rate_for_period db u p_start_date p_end_date = Ok row ->
         0 <= completed_todos row <= total_todos row
         /\ (completion_rate row = None <-> total_todos row = 0)
         /\ (p_end_date < p_start_date -> total_todos row = 0)
         /\ forall r,
              completion_rate row = Some r ->
              let exact := (inject_Z (completed_todos row)
                            / inject_Z (total_todos row) * 100)%Q in
              (0 <= r <= 100)%Q
              /\ (exact - (1 # 200) <= r <= exact + (1 # 200))%Q
              /\ (completed_todos row = total_todos row -> (r == 100)%Q)
              /\ (completed_todos row = 0 -> (r == 0)%Q).
Proof.
  intros db u p_start_date p_end_date.
  unfold get_completion_rate_for_period. cbv zeta.
  set (selected := filter _ (todos db)).
  assert (Hsel : (List.length selected <= List.length (todos db))%nat)
    by apply filter_length_le.
  assert (Hdone : (List.length (filter is_complete selected)
                   <= List.length selected)%nat) by apply filter_length_le.
  unfold COUNT. split.
  - intros Hmax. unfold int84.
    replace ((INT_MIN <=? Z.of_nat (List.length selected))
             && (Z.of_nat (List.length selected) <=? INT_MAX)) with true
      by (symmetry; apply andb_true_iff; unfold INT_MIN, INT_MAX in *;
          split; apply Z.leb_le; lia).
    replace ((INT_MIN <=? Z.of_nat (List.length (filter is_complete selected)))
             && (Z.of_nat (List.length (filter is_complete selected)) <=? INT_MAX))
      with true
      by (symmetry; apply andb_true_iff; unfold INT_MIN, INT_MAX in *;
          split; apply Z.leb_le; lia).
    eauto.
  - intros row H.
    destruct (int84 (Z.of_nat (List.length selected))) as [total|e] eqn:Et;
      [|discriminate].
    destruct (int84 (Z.of_nat (List.length (filter is_complete selected))))
      as [completed|e] eqn:Ec; [|discriminate].
    apply int84_Ok_inv in Et as [-> _]. apply int84_Ok_inv in Ec as [-> _].
    injection H as <-. cbn [total_todos completed_todos completion_rate].
    split; [lia|]. split; [|split].
    + unfold NULLIF.
      destruct (Z.of_nat (List.length selected) =? 0) eqn:E.
      * apply Z.eqb_eq in E. split; auto.
      * apply Z.eqb_neq in E. split; [discriminate|contradiction].
    + intros Hperiod.
      assert (Hnone : selected = []).
      { apply filter_nil_iff. intros t _.
        destruct (p_start_date <=? created_at t) eqn:E1;
          destruct (created_at t <=? p_end_date) eqn:E2;
          rewrite ?andb_false_r; try reflexivity.
        apply Z.leb_le in E1, E2. lia. }
      now rewrite Hnone.
    + intros r Hr. unfold NULLIF in Hr.
      destruct (Z.of_nat (List.length selected) =? 0) eqn:E; [discriminate|].
      apply Z.eqb_neq in E. injection Hr as <-.
      apply ROUND_2_percentage; lia.
Qed.

Lemma get_completion_rate_for_period_bounds_witness :
  exists row r,
    get_completion_rate_for_period db_two_of_three_done 10%N 100 102 = Ok row
    /\ total_todos row = 3 /\ completed_todos row = 2
    /\ completion_rate row = Some r
    /\ (0 <= r <= 100)%Q.
Proof.
  destruct (get_completion_rate_for_period_bounds db_two_of_three_done 10%N 100 102)
    as [Hreturns Hrow].
  destruct Hreturns as [row E]; [vm_compute; discriminate|].
  destruct (completion_rate row) as [r|] eqn:Er.
  - exists row, r.
    destruct (Hrow row E) as (_ & _ & _ & Hrate).
    destruct (Hrate r Er) as (Hbounds & _).
    assert (E' := E). vm_compute in E'. injection E' as <-.
    split; [exact E|]. split; [reflexivity|]. split; [reflexivity|].
    split; [exact Er|exact Hbounds].
  - exfalso. assert (E' := E). vm_compute in E'. injection E' as <-. discriminate Er.
Defined.

(** * Creating a category with its todos *)

Lemma distinct_ids_NoDup ids : distinct_ids ids = true -> NoDup ids.
Proof.
  induction ids as [|x rest IH]; cbn [distinct_ids]; intros H; constructor.
  - apply andb_true_iff in H as [H _]. apply negb_true_iff in H. intros Hin.
    assert (existsb (N.eqb x) rest = true); [|congruence].
    apply existsb_exists. exists x. split; [exact Hin|apply N.eqb_refl].
  - apply IH. now apply andb_true_iff in H as [_ H].
Qed.

Lemma todosToInsert_titles now gen u c titles :
  map title (todosToInsert now gen u c titles) = titles.
Proof.
  unfold todosToInsert. rewrite map_map. cbn [title inserted_todo].
  generalize 0%nat. induction titles as [|ttl titles IH]; intros start; [reflexivity|].
  cbn [List.length seq combine map snd]. now rewrite IH.
Qed.

Lemma todosToInsert_rows now gen u c titles t :
  In t (todosToInsert now gen u c titles) ->
  user_id t = u /\ category_id t = Some c /\ is_complete t = false /\ version t = 1.
Proof.
  unfold todosToInsert. intros H. apply in_map_iff in H as (kt & <- & _).
  repeat split.
Qed.

(** Deleting a category that no todo references, and that is the only
    one with its id, undoes its insertion. *)
Lemma deleteCategory_undoes_insert now u row db :
  c_user_id row = u ->
  category_conflict row (categories db) = false ->
  todos_category_fkey db ->
  deleteCategory now u (c_id row) (with_categories db (categories db ++ [row]))
  = Return 1 db.
Proof.
  intros Hu Hnew Hfk. rewrite deleteCategory_eq. cbn [categories todos with_categories profiles].
  apply category_conflict_false_inv in Hnew as [Hid _].
  assert (Hrefs : forall r, In r (todos db) -> references (c_id row) r = false).
  { intros r Hr. specialize (Hfk r Hr). unfold references, category_ref_ok in *.
    destruct (category_id r) as [x|]; [|reflexivity]. cbn [option_uuid_eqb].
    destruct (N.eqb x (c_id row)) eqn:E; [|reflexivity]. apply N.eqb_eq in E. subst x.
    apply existsb_exists in Hfk as (k & Hk & Ek). apply N.eqb_eq in Ek.
    exfalso. apply Hid. rewrite <- Ek. now apply in_map. }
  assert (Hothers : forall k, In k (categories db) -> own_category u (c_id row) k = false).
  { intros k Hk. unfold own_category. destruct (N.eqb (c_id k) (c_id row)) eqn:E;
      [|reflexivity]. apply N.eqb_eq in E. exfalso. apply Hid. rewrite <- E.
    now apply in_map. }
  assert (Hown : own_category u (c_id row) row = true).
  { unfold own_category. now rewrite Hu, !N.eqb_refl. }
  replace (forallb _ (todos db)) with true.
  - f_equal.
    + rewrite filter_app. cbn [filter]. rewrite Hown.
      rewrite (proj2 (filter_nil_iff _ (categories db)) Hothers). reflexivity.
    + destruct db as [ps cs ts]. cbn [profiles categories todos] in *. f_equal.
      * rewrite filter_app. cbn [filter]. rewrite Hown. cbn [negb].
        rewrite app_nil_r. apply filter_all_true. intros k Hk.
        now rewrite (Hothers k Hk).
      * apply map_id_if. intros r Hr. rewrite (Hrefs r Hr). apply andb_false_r.
  - symmetry. apply forallb_forall. intros r Hr. rewrite (Hrefs r Hr).
    now rewrite andb_false_r.
Qed.

(** Deleting a category that is not there changes nothing. *)
Lemma deleteCategory_absent now u c db :
  (forall k, In k (categories db) -> own_category u c k = false) ->
  deleteCategory now u c db = Return 0 db.
Proof.
  intros Hnone. rewrite deleteCategory_eq.
  assert (Ex : existsb (own_category u c) (categories db) = false).
  { destruct (existsb _ _) eqn:E; [|reflexivity].
    apply existsb_exists in E as (k & Hk & E). rewrite (Hnone k Hk) in E. discriminate. }
  rewrite Ex. cbn [andb implb].
  replace (forallb (fun _ : todo => true) (todos db)) with true
    by (symmetry; apply forallb_forall; reflexivity).
  rewrite (proj2 (filter_nil_iff _ (categories db)) Hnone).
  destruct db as [ps cs ts]. cbn [profiles categories todos List.length Z.of_nat] in *.
  f_equal. f_equal.
  - apply filter_all_true. intros k Hk. now rewrite (Hnone k Hk).
  - apply map_id.
Qed.

Lemma INSERT_INTO_categories_Some row db db1 :
  INSERT_INTO_categories row db = Some db1 ->
  category_conflict row (categories db) = false
  /\ db1 = with_categories db (categories db ++ [row]).
Proof.
  unfold INSERT_INTO_categories. destruct (category_conflict row (categories db));
    [discriminate|]. intros H. injection H as <-. auto.
Qed.

Lemma INSERT_INTO_todos_Some rows db db2 :
  INSERT_INTO_todos rows db = Some db2 ->
  db2 = with_todos db (todos db ++ rows)
  /\ NoDup (map id rows)
  /\ (forall r, In r rows -> ~ In (id r) (map id (todos db)))
  /\ (forall r, In r rows -> category_ref_ok db (category_id r) = true).
Proof.
  unfold INSERT_INTO_todos.
  destruct (distinct_ids (map id rows)) eqn:E1; [|discriminate].
  destruct (forallb (fun r => negb (existsb _ (todos db))) rows) eqn:E2;
    [|discriminate].
  destruct (forallb (fun r => category_ref_ok db (category_id r)) rows) eqn:E3;
    [|discriminate].
  cbn [andb]. intros H. injection H as <-.
  split; [reflexivity|]. split; [now apply distinct_ids_NoDup|].
  rewrite forallb_forall in E2, E3. split; [|exact E3].
  intros r Hr Hin. specialize (E2 r Hr). apply negb_true_iff in E2.
  apply in_map_iff in Hin as (t & Et & Ht).
  assert (existsb (fun t0 => N.eqb (id t0) (id r)) (todos db) = true); [|congruence].
  apply existsb_exists. exists t. split; [exact Ht|]. now apply N.eqb_eq.
Qed.

(** What one run of the operation does for a signed-in user. *)
Lemma createCategoryWithTodos_operation_cases NOW cu tu name color titles w u :
  auth_user w = Some u ->
  todos_category_fkey (server w) ->
  let c := mk_category (cu (requests w)) u name color
                       (NOW (requests w)) (NOW (requests w)) in
  let rows := todosToInsert (NOW (S (requests w))) (tu (S (requests w))) u
                            (c_id c) titles in
  let op := createCategoryWithTodos_operation NOW cu tu name color titles w in
  (exists db1 db2,
      INSERT_INTO_categories c (server w) = Some db1
      /\ INSERT_INTO_todos rows db1 = Some db2
      /\ op = (inl (mk_created_result true (c_id c) (map id rows)),
               mk_client_world (Some u) db2 (S (S (requests w)))))
  \/ (fst op = inr CreateFailedError /\ server (snd op) = server w).
Proof.
  intros Hu Hfk c rows op.
  destruct w as [au db k]. cbn [auth_user server requests] in *. subst au.
  unfold op, createCategoryWithTodos_operation.
  cbn [auth_user server requests served]. cbv zeta. unfold TIMEZONE_utc.
  fold c. cbn [c_id] in *.
  destruct (INSERT_INTO_categories c db) as [db1|] eqn:E1; [|right; split; reflexivity].
  cbn [auth_user server requests served].
  destruct (INSERT_INTO_todos _ db1) as [db2|] eqn:E2.
  - left. exists db1, db2. split; [reflexivity|]. split; [exact E2|reflexivity].
  - right. split; [reflexivity|].
    apply INSERT_INTO_categories_Some in E1 as [Hnew ->].
    unfold delete_category_ignoring at 2. cbn [auth_user server requests served].
    change (cu k) with (c_id c).
    rewrite (deleteCategory_undoes_insert _ u c db eq_refl Hnew Hfk).
    unfold delete_category_ignoring. cbn [auth_user server requests served].
    rewrite deleteCategory_absent; [reflexivity|].
    intros k0 Hk0. apply category_conflict_false_inv in Hnew as [Hid _].
    unfold own_category. destruct (N.eqb (c_id k0) (c_id c)) eqn:E; [|reflexivity].
    apply N.eqb_eq in E. exfalso. apply Hid. rewrite <- E. now apply in_map.
Qed.

(** X17. [createCategoryWithTodos] for a signed-in user, over a
    connection that delivers every request and a table whose
    [category_id]s all name a category: it never retries, and it is all
    or nothing.  When it throws, the database is exactly as it was: a
    category inserted before the todos were refused has been deleted
    again.  When it returns, the category of the caller with the
    returned id, name and colour has been added, and one todo per title,
    in order, each of the caller, filed under the new category, not
    complete and at version 1; the returned ids are theirs, and the
    primary keys and the foreign key still hold. *)
Theorem createCategoryWithTodos_all_or_nothing :
  forall NOW category_uuid todo_uuid categoryName categoryColor todoTitles w u,
    auth_user w = Some u ->
    todos_category_fkey (server w) ->
    let result := createCategoryWithTodos NOW category_uuid todo_uuid
                    categoryName categoryColor todoTitles w in
    let outcome := fst (fst result) in
    let db' := server (snd (fst result)) in
    snd result = []
    /\ (forall e, outcome = inr e -> e = CreateFailedError /\ db' = server w)
    /\ (forall r,
          outcome = inl r ->
          cw_success r = true
          /\ exists c rows,
               categories db' = (categories (server w) ++ [c])%list
               /\ c_id c = cw_categoryId r /\ c_user_id c = u
               /\ c_name c = categoryName /\ c_color c = categoryColor
               /\ todos db' = (todos (server w) ++ rows)%list
               /\ cw_todoIds r = map id rows
               /\ map title rows = todoTitles
               /\ (forall t, In t rows ->
                     user_id t = u /\ category_id t = Some (cw_categoryId r)
                     /\ is_complete t = false /\ version t = 1)
               /\ profiles db' = profiles (server w)
               /\ todos_category_fkey db'
               /\ (todos_pkey (server w) -> todos_pkey db')
               /\ (categories_pkey (categories (server w)) ->
                   categories_pkey (categories db'))).
Proof.
  intros NOW cu tu name color titles w u Hu Hfk result outcome db'.
  assert (Hresult : result
                    = (createCategoryWithTodos_operation NOW cu tu name color titles w,
                       [])).
  { unfold result, createCategoryWithTodos. apply retryWithBackoff_once.
    destruct (createCategoryWithTodos_operation_cases NOW cu tu name color titles
                w u Hu Hfk) as [(db1 & db2 & _ & _ & ->)|[-> _]]; cbn [fst];
      [exact I|reflexivity]. }
  unfold outcome, db'. rewrite Hresult. cbn [fst snd].
  split; [reflexivity|].
  destruct (createCategoryWithTodos_operation_cases NOW cu tu name color titles
              w u Hu Hfk) as [(db1 & db2 & E1 & E2 & ->)|[Ho Hdb]].
  - cbn [fst snd server]. split; [intros e He; discriminate He|].
    intros r Hr. injection Hr as <-. cbn [cw_success cw_categoryId cw_todoIds c_id].
    split; [reflexivity|].
    apply INSERT_INTO_categories_Some in E1 as [Hnew ->].
    apply INSERT_INTO_todos_Some in E2 as (-> & Hnd & Hfresh & Hcat).
    cbn [categories todos profiles with_todos with_categories] in *.
    eexists _, _. split; [reflexivity|]. split; [reflexivity|].
    split; [reflexivity|]. split; [reflexivity|]. split; [reflexivity|].
    split; [reflexivity|]. split; [reflexivity|].
    split; [apply todosToInsert_titles|].
    split; [intros t Ht; now apply todosToInsert_rows in Ht|].
    split; [reflexivity|]. split; [|split].
    + intros t Ht. cbn [todos with_todos] in Ht. apply in_app_or in Ht as [Ht|Ht].
      * specialize (Hfk t Ht). unfold category_ref_ok in *.
        cbn [categories with_todos with_categories].
        destruct (category_id t); [|reflexivity].
        rewrite existsb_app, Hfk. reflexivity.
      * exact (Hcat t Ht).
    + unfold todos_pkey. cbn [todos with_todos]. intros Hpk. rewrite map_app.
      apply NoDup_app; [exact Hpk|exact Hnd|].
      intros i Hi Hi'. apply in_map_iff in Hi' as (r & <- & Hr).
      exact (Hfresh r Hr Hi).
    + unfold categories_pkey. cbn [categories with_todos with_categories].
      intros Hpk. rewrite map_app. cbn [map].
      apply NoDup_snoc; [exact Hpk|].
      now apply category_conflict_false_inv in Hnew as [Hid _].
  - split.
    + intros e He. rewrite Ho in He. injection He as <-. auto.
    + intros r Hr. rewrite Ho in Hr. discriminate Hr.
Qed.

(** A todo id that is already taken makes the second insert fail; the
    category inserted first is removed again. *)
Lemma createCategoryWithTodos_all_or_nothing_witness :
  let result := createCategoryWithTodos (fun _ => 500) (fun _ => 50%N)
                  (fun _ _ => 1%N) "Errands" "#F59E0B" ["Post office"]
                  client_of_user_10 in
  fst (fst result) = inr CreateFailedError
  /\ server (snd (fst result)) = db_categorized 1.
Proof.
  cbv zeta.
  destruct (createCategoryWithTodos_all_or_nothing (fun _ => 500) (fun _ => 50%N)
              (fun _ _ => 1%N) "Errands" "#F59E0B" ["Post office"]
              client_of_user_10 10%N eq_refl) as (_ & Hthrows & _).
  - intros t [<-|[<-|[<-|[]]]]; reflexivity.
  - split; [reflexivity|].
    exact (proj2 (Hthrows CreateFailedError eq_refl)).
Defined.
